(** * The office map: layout geometry, camera, derived graphs and AI search

    A shallow embedding of [components/OfficeMap.tsx] and of
    [searchBusinessesWithAI] from [services/geminiService.ts].

    Number model.  A JavaScript number is an IEEE double.  Every finite double
    is a rational, and the camera, grid and traffic code only add, subtract,
    multiply, divide, compare and clamp, so those numbers are embedded as
    exact rationals [Q] (rounding is not modelled, nor are NaN and the
    infinities).  The globe placement calls [Math.acos] and [Math.sqrt] on
    array indices; it is embedded over the real numbers [R].

    String model.  A string is a [string]: the sequence of its bytes in
    UTF-8.  On well-formed strings equality, concatenation and the substring
    test [includes] read the same on bytes as on UTF-16 code units, and they
    are defined here.  [toLowerCase] and [trim] depend on the Unicode tables
    of the host; they are taken from the host as an interface
    ([JS.StringMethods]), so that what is proved holds for whatever the host
    does.  The examples run on an instance that acts on ASCII text. *)

From Stdlib Require Import Bool List Arith Lia ZArith.
From Stdlib Require Import Ascii String DecimalString.
From Stdlib Require Import QArith Qminmax Lqa.
From Stdlib Require Import Reals Lra.
From Stdlib Require Import Sorted Permutation.
Import ListNotations.

Set Implicit Arguments.

(* ================================================================== *)
(** * JavaScript primitives used by the two source files *)
(* ================================================================== *)

Module JS.

Open Scope string_scope.

(** [String.prototype.toLowerCase] and [String.prototype.trim]: the two
    string methods whose result depends on the Unicode tables of the host
    (case mappings, white space and line terminators). *)
Class StringMethods : Type := {
  toLowerCase : string -> string;
  trim : string -> string
}.

(** [s.includes(sub)]: [sub] occurs in [s] at some position. *)
Fixpoint includes (s sub : string) : bool :=
  String.prefix sub s ||
  match s with
  | EmptyString => false
  | String _ s' => includes s' sub
  end.

(** The two host methods as they act on ASCII text: the letters [A]-[Z] are
    the upper-case letters, and TAB, LF, VT, FF, CR and SPACE the white space.
    The examples are run on these; on a string with other characters they
    are not the host's methods. *)
Module Ascii.

Definition lower_ascii (c : ascii) : ascii :=
  let n := nat_of_ascii c in
  if (65 <=? n)%nat && (n <=? 90)%nat then ascii_of_nat (n + 32) else c.

Fixpoint toLowerCase (s : string) : string :=
  match s with
  | EmptyString => EmptyString
  | String c s' => String (lower_ascii c) (toLowerCase s')
  end.

Definition is_space (c : ascii) : bool :=
  let n := nat_of_ascii c in
  ((9 <=? n)%nat && (n <=? 13)%nat) || (n =? 32)%nat.

Fixpoint trimStart (s : string) : string :=
  match s with
  | EmptyString => EmptyString
  | String c s' => if is_space c then trimStart s' else s
  end.

Fixpoint trimEnd (s : string) : string :=
  match s with
  | EmptyString => EmptyString
  | String c s' =>
      match trimEnd s' with
      | EmptyString => if is_space c then EmptyString else String c EmptyString
      | r => String c r
      end
  end.

Definition trim (s : string) : string := trimEnd (trimStart s).

End Ascii.

(** [s.replace(/pat/g, rep)] for a literal, non-empty pattern: [skip] counts
    the characters of a match that are still to be dropped. *)
Fixpoint replaceAll_from (skip : nat) (pat rep s : string) : string :=
  match s with
  | EmptyString => EmptyString
  | String c s' =>
      match skip with
      | S k => replaceAll_from k pat rep s'
      | O =>
          if String.prefix pat s
          then rep ++ replaceAll_from (String.length pat - 1) pat rep s'
          else String c (replaceAll_from 0 pat rep s')
      end
  end.

Definition replaceAll (pat rep s : string) : string :=
  replaceAll_from 0 pat rep s.

(** Truthiness of a string: only the empty string is falsy. *)
Definition truthy_string (s : string) : bool :=
  match s with EmptyString => false | _ => true end.

(** Truthiness of a possibly undefined boolean. *)
Definition truthy (v : option bool) : bool :=
  match v with Some true => true | _ => false end.

(** [a || b] on possibly undefined booleans. *)
Definition or_else (a b : option bool) : option bool :=
  if truthy a then a else b.

(** [arr?.some(p)], where the callback's result is read by truthiness. *)
Definition opt_some {A : Type} (arr : option (list A)) (p : A -> option bool)
  : option bool :=
  match arr with
  | None => None
  | Some xs => Some (existsb (fun a => truthy (p a)) xs)
  end.

(** [arr.includes(s)] on an array of strings. *)
Definition array_includes (arr : list string) (s : string) : bool :=
  existsb (String.eqb s) arr.

(** [v || 0] on a possibly undefined number. *)
Definition or_zero (v : option Q) : Q :=
  match v with
  | Some q => if Qeq_bool q 0 then 0%Q else q
  | None => 0%Q
  end.

(** Truthiness of a possibly null number, as in
    [lastTouchDist.current && ...]: null and 0 are falsy. *)
Definition truthy_number (v : option Q) : bool :=
  match v with
  | Some q => negb (Qeq_bool q 0)
  | None => false
  end.

(** [arr.map((x, index) => f(x, index))]. *)
Fixpoint map_indexed_from {A B : Type} (k : nat) (f : A -> nat -> B)
  (xs : list A) : list B :=
  match xs with
  | [] => []
  | x :: xs' => f x k :: map_indexed_from (S k) f xs'
  end.

Definition map_indexed {A B : Type} (f : A -> nat -> B) (xs : list A) : list B :=
  map_indexed_from 0 f xs.

(** [for (let k = lo; k < hi; k++) acc = body(k, acc)]. *)
Definition for_range {A : Type} (lo hi : nat) (body : nat -> A -> A) (acc : A) : A :=
  fold_left (fun a k => body k a) (seq lo (hi - lo)) acc.

(** Decimal rendering of a loop counter inside a template string. *)
Definition nat_to_string (n : nat) : string :=
  NilEmpty.string_of_uint (Nat.to_uint n).

(** A loop counter used as a number. *)
Definition num (n : nat) : Q := inject_Z (Z.of_nat n).

End JS.

(* ================================================================== *)
(** * The data model of [../types] *)
(* ================================================================== *)

Module Types.

(** An object [{x, y}]: a grid position, a scene point or a pointer
    position. *)
Record Point : Type := mkPoint { px : Q; py : Q }.

(** Modelled from the spec: the type [BusinessGenome] is declared in
    [../types], which is not among the sources.  The two service lists are
    the fields the map reads; it reads them through [?.], so each may be
    undefined. *)
Record BusinessGenome : Type := mkGenome {
  servicesOffered : option (list string);
  servicesNeeded : option (list string)
}.

(** Modelled from the spec: the type [Business] is declared in [../types],
    which is not among the sources.  These are the fields the map and the
    search read: [description] and [activeVisitors] are tested for
    definedness by the code, [genomeProfile] is optional. *)
Record Business : Type := mkBusiness {
  business_id : string;
  name : string;
  description : option string;
  category : string;
  isOccupied : bool;
  activeVisitors : option Q;
  gridPosition : Point;
  genomeProfile : option BusinessGenome
}.

End Types.

(* ================================================================== *)
(** * [services/geminiService.ts]: the AI search *)
(* ================================================================== *)

Module GeminiService.

Import Types.
Open Scope string_scope.

Record Filters : Type := mkFilters {
  status : string;
  categories : list string
}.

Record AISearchResponse : Type := mkResponse {
  ids : list string;
  filters : Filters
}.

(** How an awaited promise settles. *)
Inductive Settled (A : Type) : Type :=
| Fulfilled (value : A)
| Rejected.
Arguments Rejected {A}.

(** The outcome of [ai.models.generateContent]: the request rejects, or a
    response arrives whose [text] may be undefined. *)
Inductive GenerateContent : Type :=
| RequestFails
| Responds (text : option string).

(** What [JSON.parse] yields, as far as the function reads it.  [JSON.parse]
    returns a value of any shape; the function returns it as an
    [AISearchResponse] without a check.  The records below follow that
    declared type: a field is absent or falsy ([None]), or has the type the
    interface declares.  A reply whose [ids] is a truthy value that is not
    an array of strings is outside this model. *)
Record ParsedFilters : Type := mkParsedFilters {
  parsed_status : option string;
  parsed_categories : option (list string)
}.

Record ParsedResult : Type := mkParsed {
  parsed_ids : option (list string);
  parsed_filters : option ParsedFilters
}.

Inductive ParseOutcome : Type :=
| SyntaxError                       (* [JSON.parse] throws *)
| ParsedNull                        (* the text is [null]: reading [.ids] throws *)
| ParsedValue (result : ParsedResult).

(** The value of the [catch] block. *)
Definition fallbackResponse : AISearchResponse :=
  mkResponse [] (mkFilters "all" []).

Section Service.

(** The string methods of the host. *)
Context {strings : JS.StringMethods}.

(** [JSON.parse] of the host. *)
Variable JSON_parse : string -> ParseOutcome.

(** [text.replace(/```json/g, '').replace(/```/g, '').trim()]. *)
Definition cleanText (text : string) : string :=
  JS.trim (JS.replaceAll "```" "" (JS.replaceAll "```json" "" text)).

(** The body of the [try] block after the request has settled; [None] is a
    thrown exception. *)
Definition tryBody (reply : GenerateContent) : option AISearchResponse :=
  match reply with
  | RequestFails => None
  | Responds response_text =>
      let text :=
        match response_text with
        | Some t => if JS.truthy_string t then t else "{}"
        | None => "{}"
        end in
      match JSON_parse (cleanText text) with
      | SyntaxError => None
      | ParsedNull => None
      | ParsedValue result =>
          Some (mkResponse
                  (match parsed_ids result with Some l => l | None => [] end)
                  (mkFilters
                     (match parsed_filters result with
                      | Some f =>
                          match parsed_status f with
                          | Some s => if JS.truthy_string s then s else "all"
                          | None => "all"
                          end
                      | None => "all"
                      end)
                     (match parsed_filters result with
                      | Some f =>
                          match parsed_categories f with
                          | Some c => c
                          | None => []
                          end
                      | None => []
                      end)))
      end
  end.

(** [searchBusinessesWithAI(query, businesses, language)].  The three
    arguments only shape the prompt that is sent; [reply] is what comes
    back.  Every exception of the [try] block is caught. *)
Definition searchBusinessesWithAI (query : string) (businesses : list Business)
  (language : string) (reply : GenerateContent) : Settled AISearchResponse :=
  match tryBody reply with
  | Some response => Fulfilled response
  | None => Fulfilled fallbackResponse
  end.

End Service.

(** [analyzeMapTrends(businesses, language)].  The two arguments only shape
    the prompt; [reply] is what comes back.  The [catch] block returns a
    fixed message. *)
Definition analyzeMapTrends (businesses : list Business) (language : string)
  (reply : GenerateContent) : Settled string :=
  match reply with
  | RequestFails => Fulfilled "Unable to generate insights at this time."
  | Responds response_text =>
      Fulfilled
        match response_text with
        | Some t => if JS.truthy_string t then t else "No insights generated."
        | None => "No insights generated."
        end
  end.

End GeminiService.

(* ================================================================== *)
(** * [components/OfficeMap.tsx] *)
(* ================================================================== *)

Module OfficeMap.

Import Types GeminiService.
Open Scope list_scope.
Open Scope Q_scope.

(** ** Constants for the spatial layout *)

Definition CONTAINER_SIZE : Q := 1200.
Definition GRID_COLS : nat := 3.
Definition PADDING : Q := 120.
Definition GAP : Q := 120.
Definition CELL_SIZE : Q :=
  (CONTAINER_SIZE - (PADDING * 2) - (GAP * (JS.num GRID_COLS - 1))) / JS.num GRID_COLS.
Definition GLOBE_RADIUS : Q := 320.

Definition getCellCenter (gridPos : Point) : Point :=
  let colIndex := px gridPos - 1 in
  let rowIndex := py gridPos - 1 in
  let x := PADDING + (colIndex * CELL_SIZE) + (colIndex * GAP) + (CELL_SIZE / 2) in
  let y := PADDING + (rowIndex * CELL_SIZE) + (rowIndex * GAP) + (CELL_SIZE / 2) in
  mkPoint x y.

(** ** Modes and camera *)

Inductive MapMode : Type := standard | heatmap | networking | traffic | globe.

Inductive InteractionMode : Type := pan | rotate.

Definition MapMode_eqb (a b : MapMode) : bool :=
  match a, b with
  | standard, standard | heatmap, heatmap | networking, networking
  | traffic, traffic | globe, globe => true
  | _, _ => false
  end.

Record ViewState : Type := mkView {
  zoom : Q;
  rotateX : Q;
  rotateZ : Q;
  panX : Q;
  panY : Q
}.

(** ** Derived graphs *)

Inductive EdgeType : Type := synergy | industry.

Record Connection : Type := mkConnection {
  conn_id : string;
  participants : list string;
  conn_start : Point;
  conn_end : Point;
  conn_type : EdgeType
}.

Inductive Orientation : Type := vertical | horizontal.

Record Segment : Type := mkSegment {
  seg_id : string;
  x1 : Q;
  y1 : Q;
  x2 : Q;
  y2 : Q;
  visitors : Q;
  orientation : Orientation
}.

(** [b?.genomeProfile?.servicesNeeded] and [...?.servicesOffered]. *)
Definition needsOf (b : Business) : option (list string) :=
  match genomeProfile b with Some g => servicesNeeded g | None => None end.

Definition offersOf (b : Business) : option (list string) :=
  match genomeProfile b with Some g => servicesOffered g | None => None end.

(** One operand of the synergy check:
    [needer.genomeProfile?.servicesNeeded?.some(need =>
       offerer.genomeProfile?.servicesOffered?.some(offer => ...))]. *)
Definition needsMeetOffers {strings : JS.StringMethods}
  (needer offerer : Business) : option bool :=
  JS.opt_some (needsOf needer) (fun need =>
    JS.opt_some (offersOf offerer) (fun offer =>
      Some (JS.includes (JS.toLowerCase offer) (JS.toLowerCase need)
            || JS.includes (JS.toLowerCase need) (JS.toLowerCase offer)))).

Definition hasSynergy {strings : JS.StringMethods} (b1 b2 : Business)
  : option bool :=
  JS.or_else (needsMeetOffers b1 b2) (needsMeetOffers b2 b1).

(** The value of [type] after the two [if]s; [None] is [null]. *)
Definition connectionType {strings : JS.StringMethods} (b1 b2 : Business)
  : option EdgeType :=
  if JS.truthy (hasSynergy b1 b2) then Some synergy
  else if String.eqb (category b1) (category b2) then Some industry
  else None.

Definition connectionOf (b1 b2 : Business) (type : EdgeType) : Connection :=
  mkConnection (business_id b1 ++ "-" ++ business_id b2)%string
               [business_id b1; business_id b2]
               (getCellCenter (gridPosition b1))
               (getCellCenter (gridPosition b2))
               type.

(** The body of the inner loop.  Both indices are below [occupied.length],
    so the two reads are defined. *)
Definition connectPair {strings : JS.StringMethods}
  (occupied : list Business) (i j : nat)
  (connections : list Connection) : list Connection :=
  match nth_error occupied i, nth_error occupied j with
  | Some b1, Some b2 =>
      match connectionType b1 b2 with
      | Some type => connections ++ [connectionOf b1 b2 type]
      | None => connections
      end
  | _, _ => connections
  end.

Definition networkingConnections {strings : JS.StringMethods}
  (businesses : list Business) (mapMode : MapMode)
  : list Connection :=
  match mapMode with
  | networking =>
      let occupied := filter isOccupied businesses in
      JS.for_range 0 (List.length occupied) (fun i connections =>
        JS.for_range (i + 1) (List.length occupied) (fun j connections =>
          connectPair occupied i j connections) connections) []
  | _ => []
  end.

(** [nearby.reduce((acc, b) => acc + (b.activeVisitors || 0), 0)]. *)
Definition sumVisitors (nearby : list Business) : Q :=
  fold_left (fun acc b => acc + JS.or_zero (activeVisitors b)) nearby 0.

Definition nearColumn (c : nat) (b : Business) : bool :=
  isOccupied b && (Qeq_bool (px (gridPosition b)) (JS.num c)
                   || Qeq_bool (px (gridPosition b)) (JS.num c + 1)).

Definition nearRow (r : nat) (b : Business) : bool :=
  isOccupied b && (Qeq_bool (py (gridPosition b)) (JS.num r)
                   || Qeq_bool (py (gridPosition b)) (JS.num r + 1)).

Definition verticalSegment (businesses : list Business) (c : nat) : Segment :=
  let x := PADDING + (JS.num c - 1) * (CELL_SIZE + GAP) + CELL_SIZE + GAP / 2 in
  let nearby := filter (nearColumn c) businesses in
  let visitors := sumVisitors nearby in
  mkSegment ("v-" ++ JS.nat_to_string c)%string
            x PADDING x (CONTAINER_SIZE - PADDING) visitors vertical.

Definition horizontalSegment (businesses : list Business) (r : nat) : Segment :=
  let y := PADDING + (JS.num r - 1) * (CELL_SIZE + GAP) + CELL_SIZE + GAP / 2 in
  let nearby := filter (nearRow r) businesses in
  let visitors := sumVisitors nearby in
  mkSegment ("h-" ++ JS.nat_to_string r)%string
            PADDING y (CONTAINER_SIZE - PADDING) y visitors horizontal.

Definition trafficSegments (businesses : list Business) (mapMode : MapMode)
  : list Segment :=
  match mapMode with
  | traffic =>
      let segments :=
        JS.for_range 1 GRID_COLS
          (fun c segments => segments ++ [verticalSegment businesses c]) [] in
      JS.for_range 1 GRID_COLS
        (fun r segments => segments ++ [horizontalSegment businesses r]) segments
  | _ => []
  end.

(** ** The filtered list *)

(** The predicate of the text filter, [q] being the lower-cased query. *)
Definition matchesQuery {strings : JS.StringMethods} (q : string)
  (b : Business) : bool :=
  JS.includes (JS.toLowerCase (name b)) q
  || match description b with
     | Some d => JS.truthy_string d && JS.includes (JS.toLowerCase d) q
     | None => false
     end
  || JS.includes (JS.toLowerCase (category b)) q.

Definition processedBusinesses {strings : JS.StringMethods}
  (businesses : list Business)
  (aiFilteredIds : option (list string)) (searchQuery : string) : list Business :=
  let result := businesses in
  match aiFilteredIds with
  | Some filteredIds =>
      filter (fun b => JS.array_includes filteredIds (business_id b)) result
  | None =>
      if JS.truthy_string (JS.trim searchQuery)
      then let q := JS.toLowerCase searchQuery in filter (matchesQuery q) result
      else result
  end.

(** ** Camera transitions: the updaters passed to [setViewState] *)

(** The updater of [updateNavigation(dx, dy)]. *)
Definition navigate (mapMode : MapMode) (interactionMode : InteractionMode)
  (dx dy : Q) (prev : ViewState) : ViewState :=
  match mapMode, interactionMode with
  | globe, _ =>
      mkView (zoom prev) (rotateX prev - dy * 0.5) (rotateZ prev + dx * 0.5)
             (panX prev) (panY prev)
  | _, rotate =>
      mkView (zoom prev) (Qmax 0 (Qmin 85 (rotateX prev - dy * 0.3)))
             (rotateZ prev + dx * 0.3) (panX prev) (panY prev)
  | _, pan =>
      mkView (zoom prev) (rotateX prev) (rotateZ prev)
             (panX prev + dx) (panY prev + dy)
  end.

(** The updater shared by the wheel and the pinch:
    [zoom: Math.max(0.4, Math.min(2.5, prev.zoom + delta * zoomSpeed))]. *)
Definition zoomBy (delta zoomSpeed : Q) (prev : ViewState) : ViewState :=
  mkView (Qmax 0.4 (Qmin 2.5 (zoom prev + delta * zoomSpeed)))
         (rotateX prev) (rotateZ prev) (panX prev) (panY prev).

(** The updaters of the [+] and [-] buttons.  The sum is exact here; a
    double rounds it to nearest, which keeps the order of two sums but not
    the value of [(z + 0.1) - 0.1]. *)
Definition zoomIn (p : ViewState) : ViewState :=
  mkView (Qmin 2.5 (zoom p + 0.1)) (rotateX p) (rotateZ p) (panX p) (panY p).

Definition zoomOut (p : ViewState) : ViewState :=
  mkView (Qmax 0.4 (zoom p - 0.1)) (rotateX p) (rotateZ p) (panX p) (panY p).

(** Level of detail. *)
Inductive Lod : Type := low | medium | high.

Definition Qlt_bool (a b : Q) : bool := negb (Qle_bool b a).

Definition currentLod (viewState : ViewState) (mapMode : MapMode) : Lod :=
  if Qlt_bool (zoom viewState) 0.65 || MapMode_eqb mapMode globe then low
  else if Qlt_bool 1.25 (zoom viewState) then high
  else medium.

(** ** The active-highlight query *)

Record NetworkStatus : Type := mkStatus {
  isRelated : bool;
  related_type : option EdgeType
}.

(** [hoveredId || selectedBusinessId]: the first of the two that is neither
    null nor the empty string. *)
Definition activeIdOf (hoveredId selectedBusinessId : option string)
  : option string :=
  match hoveredId with
  | Some h => if JS.truthy_string h then Some h else selectedBusinessId
  | None => selectedBusinessId
  end.

(** The predicate of [networkingConnections.find]:
    [c.participants.includes(id) && c.participants.includes(activeId)]. *)
Definition linkedBy (id activeId : string) (c : Connection) : bool :=
  JS.array_includes (participants c) id
  && JS.array_includes (participants c) activeId.

Definition getNetworkStatus (mapMode : MapMode) (connections : list Connection)
  (hoveredId selectedBusinessId : option string) (id : string) : NetworkStatus :=
  match mapMode with
  | networking =>
      match activeIdOf hoveredId selectedBusinessId with
      | None => mkStatus true None
      | Some activeId =>
          if JS.truthy_string activeId then
            if String.eqb id activeId then mkStatus true None
            else
              match find (linkedBy id activeId) connections with
              | Some conn => mkStatus true (Some (conn_type conn))
              | None => mkStatus false None
              end
          else mkStatus true None
      end
  | _ => mkStatus false None
  end.

(** ** Scene composition: one tile per filtered business *)

(** [Math.acos(-1 + (2 * index) / total)].  With [total = 0] the quotient
    is [0/0] or an infinity and the result is NaN, which is [None]. *)
Definition spherePhi (index total : nat) : option R :=
  match total with
  | O => None
  | S _ => Some (acos (-1 + (2 * INR index) / INR total))%R
  end.

(** [Math.sqrt(total * Math.PI) * phi]. *)
Definition sphereTheta (index total : nat) : option R :=
  match spherePhi index total with
  | Some phi => Some (sqrt (INR total * PI) * phi)%R
  | None => None
  end.

Inductive TileStyle : Type :=
| GlobeStyle (theta phi : option R) (translateZ : Q)
             (marginLeft marginTop width height : Q)
| GridStyle (width height left top : Q).

Record Tile : Type := mkTile {
  tile_key : string;
  tile_style : TileStyle
}.

(** The callback of [processedBusinesses.map((business, index) => ...)]. *)
Definition renderTile (mapMode : MapMode) (processed : list Business)
  (business : Business) (index : nat) : Tile :=
  let style :=
    match mapMode with
    | globe =>
        let total := List.length processed in
        let phi := spherePhi index total in
        let theta := sphereTheta index total in
        GlobeStyle theta phi GLOBE_RADIUS
                   (- CELL_SIZE / 2) (- CELL_SIZE / 2) CELL_SIZE CELL_SIZE
    | _ =>
        let colIndex := px (gridPosition business) - 1 in
        let rowIndex := py (gridPosition business) - 1 in
        let xPos := PADDING + (colIndex * CELL_SIZE) + (colIndex * GAP) in
        let yPos := PADDING + (rowIndex * CELL_SIZE) + (rowIndex * GAP) in
        GridStyle CELL_SIZE CELL_SIZE xPos yPos
    end in
  mkTile (business_id business) style.

Definition renderTiles (mapMode : MapMode) (processed : list Business) : list Tile :=
  JS.map_indexed (renderTile mapMode processed) processed.

(** ** Component state *)

Record State : Type := mkState {
  hoveredId : option string;
  selectedBusinessId : option string;
  isSidebarOpen : bool;
  mapMode : MapMode;
  searchQuery : string;
  isSearchingAI : bool;
  aiFilteredIds : option (list string);
  showInsights : bool;
  insightsContent : string;
  isAnalyzing : bool;
  interactionMode : InteractionMode;
  viewState : ViewState;
  isDragging : bool;
  lastMousePos : option Point;
  lastTouchPos : option Point;
  lastTouchDist : option Q
}.

Definition initialState : State :=
  mkState None None false standard ""%string false None false ""%string false
          pan (mkView 0.8 55 45 0 0) false None None None.

Definition setHoveredId v (s : State) : State :=
  mkState v (selectedBusinessId s) (isSidebarOpen s) (mapMode s) (searchQuery s)
    (isSearchingAI s) (aiFilteredIds s) (showInsights s) (insightsContent s)
    (isAnalyzing s) (interactionMode s) (viewState s) (isDragging s)
    (lastMousePos s) (lastTouchPos s) (lastTouchDist s).

Definition setSelectedBusinessId v (s : State) : State :=
  mkState (hoveredId s) v (isSidebarOpen s) (mapMode s) (searchQuery s)
    (isSearchingAI s) (aiFilteredIds s) (showInsights s) (insightsContent s)
    (isAnalyzing s) (interactionMode s) (viewState s) (isDragging s)
    (lastMousePos s) (lastTouchPos s) (lastTouchDist s).

Definition setIsSidebarOpen v (s : State) : State :=
  mkState (hoveredId s) (selectedBusinessId s) v (mapMode s) (searchQuery s)
    (isSearchingAI s) (aiFilteredIds s) (showInsights s) (insightsContent s)
    (isAnalyzing s) (interactionMode s) (viewState s) (isDragging s)
    (lastMousePos s) (lastTouchPos s) (lastTouchDist s).

Definition setMapMode v (s : State) : State :=
  mkState (hoveredId s) (selectedBusinessId s) (isSidebarOpen s) v (searchQuery s)
    (isSearchingAI s) (aiFilteredIds s) (showInsights s) (insightsContent s)
    (isAnalyzing s) (interactionMode s) (viewState s) (isDragging s)
    (lastMousePos s) (lastTouchPos s) (lastTouchDist s).

Definition setSearchQuery v (s : State) : State :=
  mkState (hoveredId s) (selectedBusinessId s) (isSidebarOpen s) (mapMode s) v
    (isSearchingAI s) (aiFilteredIds s) (showInsights s) (insightsContent s)
    (isAnalyzing s) (interactionMode s) (viewState s) (isDragging s)
    (lastMousePos s) (lastTouchPos s) (lastTouchDist s).

Definition setIsSearchingAI v (s : State) : State :=
  mkState (hoveredId s) (selectedBusinessId s) (isSidebarOpen s) (mapMode s)
    (searchQuery s) v (aiFilteredIds s) (showInsights s) (insightsContent s)
    (isAnalyzing s) (interactionMode s) (viewState s) (isDragging s)
    (lastMousePos s) (lastTouchPos s) (lastTouchDist s).

Definition setAiFilteredIds v (s : State) : State :=
  mkState (hoveredId s) (selectedBusinessId s) (isSidebarOpen s) (mapMode s)
    (searchQuery s) (isSearchingAI s) v (showInsights s) (insightsContent s)
    (isAnalyzing s) (interactionMode s) (viewState s) (isDragging s)
    (lastMousePos s) (lastTouchPos s) (lastTouchDist s).

Definition setShowInsights v (s : State) : State :=
  mkState (hoveredId s) (selectedBusinessId s) (isSidebarOpen s) (mapMode s)
    (searchQuery s) (isSearchingAI s) (aiFilteredIds s) v (insightsContent s)
    (isAnalyzing s) (interactionMode s) (viewState s) (isDragging s)
    (lastMousePos s) (lastTouchPos s) (lastTouchDist s).

Definition setInsightsContent v (s : State) : State :=
  mkState (hoveredId s) (selectedBusinessId s) (isSidebarOpen s) (mapMode s)
    (searchQuery s) (isSearchingAI s) (aiFilteredIds s) (showInsights s) v
    (isAnalyzing s) (interactionMode s) (viewState s) (isDragging s)
    (lastMousePos s) (lastTouchPos s) (lastTouchDist s).

Definition setIsAnalyzing v (s : State) : State :=
  mkState (hoveredId s) (selectedBusinessId s) (isSidebarOpen s) (mapMode s)
    (searchQuery s) (isSearchingAI s) (aiFilteredIds s) (showInsights s)
    (insightsContent s) v (interactionMode s) (viewState s) (isDragging s)
    (lastMousePos s) (lastTouchPos s) (lastTouchDist s).

Definition setInteractionMode v (s : State) : State :=
  mkState (hoveredId s) (selectedBusinessId s) (isSidebarOpen s) (mapMode s)
    (searchQuery s) (isSearchingAI s) (aiFilteredIds s) (showInsights s)
    (insightsContent s) (isAnalyzing s) v (viewState s) (isDragging s)
    (lastMousePos s) (lastTouchPos s) (lastTouchDist s).

Definition setViewState v (s : State) : State :=
  mkState (hoveredId s) (selectedBusinessId s) (isSidebarOpen s) (mapMode s)
    (searchQuery s) (isSearchingAI s) (aiFilteredIds s) (showInsights s)
    (insightsContent s) (isAnalyzing s) (interactionMode s) v (isDragging s)
    (lastMousePos s) (lastTouchPos s) (lastTouchDist s).

Definition setIsDragging v (s : State) : State :=
  mkState (hoveredId s) (selectedBusinessId s) (isSidebarOpen s) (mapMode s)
    (searchQuery s) (isSearchingAI s) (aiFilteredIds s) (showInsights s)
    (insightsContent s) (isAnalyzing s) (interactionMode s) (viewState s) v
    (lastMousePos s) (lastTouchPos s) (lastTouchDist s).

Definition setLastMousePos v (s : State) : State :=
  mkState (hoveredId s) (selectedBusinessId s) (isSidebarOpen s) (mapMode s)
    (searchQuery s) (isSearchingAI s) (aiFilteredIds s) (showInsights s)
    (insightsContent s) (isAnalyzing s) (interactionMode s) (viewState s)
    (isDragging s) v (lastTouchPos s) (lastTouchDist s).

Definition setLastTouchPos v (s : State) : State :=
  mkState (hoveredId s) (selectedBusinessId s) (isSidebarOpen s) (mapMode s)
    (searchQuery s) (isSearchingAI s) (aiFilteredIds s) (showInsights s)
    (insightsContent s) (isAnalyzing s) (interactionMode s) (viewState s)
    (isDragging s) (lastMousePos s) v (lastTouchDist s).

Definition setLastTouchDist v (s : State) : State :=
  mkState (hoveredId s) (selectedBusinessId s) (isSidebarOpen s) (mapMode s)
    (searchQuery s) (isSearchingAI s) (aiFilteredIds s) (showInsights s)
    (insightsContent s) (isAnalyzing s) (interactionMode s) (viewState s)
    (isDragging s) (lastMousePos s) (lastTouchPos s) v.

(** ** Handlers *)

(** The body of [useEffect(..., [mapMode])]. *)
Definition mapModeEffect (s : State) : State :=
  match mapMode s with
  | globe => setInteractionMode rotate (setViewState (mkView 0.9 0 0 0 0) s)
  | _ => setInteractionMode pan (setViewState (mkView 0.8 55 45 0 0) s)
  end.

(** A mode button: [setMapMode(mode)], after which the effect runs if
    [mapMode] has changed. *)
Definition clickMapMode (mode : MapMode) (s : State) : State :=
  if MapMode_eqb mode (mapMode s) then s else mapModeEffect (setMapMode mode s).

(** [handleAISearch] up to the [await]; [None] is the early return. *)
Definition handleAISearch_start {strings : JS.StringMethods} (s : State)
  : option State :=
  if JS.truthy_string (JS.trim (searchQuery s))
  then Some (setIsSearchingAI true s)
  else None.

(** [handleAISearch] from the [await] on: [try], [catch], [finally]. *)
Definition handleAISearch_settle (settled : Settled AISearchResponse) (s : State)
  : State :=
  let s' :=
    match settled with
    | Fulfilled result => setAiFilteredIds (Some (ids result)) s
    | Rejected => s
    end in
  setIsSearchingAI false s'.

(** [handleAISearch] run without interleaved events. *)
Definition handleAISearch {strings : JS.StringMethods}
  (settled : Settled AISearchResponse) (s : State) : State :=
  match handleAISearch_start s with
  | Some s' => handleAISearch_settle settled s'
  | None => s
  end.

Definition handleAnalyzeTrends_start (s : State) : State :=
  setShowInsights true (setIsAnalyzing true s).

Definition handleAnalyzeTrends_settle (settled : Settled string) (s : State) : State :=
  let s' :=
    match settled with
    | Fulfilled result => setInsightsContent result s
    | Rejected => setInsightsContent "Failed to generate insights."%string s
    end in
  setIsAnalyzing false s'.

Definition updateNavigation (dx dy : Q) (s : State) : State :=
  setViewState (navigate (mapMode s) (interactionMode s) dx dy (viewState s)) s.

(** [onControl]: the event target is inside a button, an input or a
    select. *)
Definition handleMouseDown (onControl : bool) (clientX clientY : Q) (s : State)
  : State :=
  if onControl then s
  else setLastMousePos (Some (mkPoint clientX clientY)) (setIsDragging true s).

Definition handleMouseMove (clientX clientY : Q) (s : State) : State :=
  match isDragging s, lastMousePos s with
  | true, Some last =>
      let dx := clientX - px last in
      let dy := clientY - py last in
      setLastMousePos (Some (mkPoint clientX clientY)) (updateNavigation dx dy s)
  | _, _ => s
  end.

Definition handleMouseUp (s : State) : State := setIsDragging false s.

Definition handleWheel (deltaY : Q) (s : State) : State :=
  let zoomSpeed := 0.0015 in
  let delta := - deltaY in
  setViewState (zoomBy delta zoomSpeed (viewState s)) s.

Section Component.

(** The string methods of the host. *)
Context {strings : JS.StringMethods}.

(** [Math.hypot] of the host, on two numbers. *)
Variable hypot : Q -> Q -> Q.

(** [touches] is the list of [(clientX, clientY)] of [e.touches]. *)
Definition handleTouchStart (onControl : bool) (touches : list Point) (s : State)
  : State :=
  if onControl then s
  else
    let s := setIsDragging true s in
    match touches with
    | [t0] => setLastTouchDist None (setLastTouchPos (Some t0) s)
    | [t0; t1] =>
        let dist := hypot (px t0 - px t1) (py t0 - py t1) in
        setLastTouchDist (Some dist) s
    | _ => s
    end.

Definition handleTouchMove (touches : list Point) (s : State) : State :=
  if negb (isDragging s) then s
  else
    match touches with
    | [t0] =>
        match lastTouchPos s with
        | Some last =>
            let dx := px t0 - px last in
            let dy := py t0 - py last in
            setLastTouchPos (Some t0) (updateNavigation dx dy s)
        | None => s
        end
    | [t0; t1] =>
        match lastTouchDist s with
        | Some lastDist =>
            if JS.truthy_number (Some lastDist) then
              let dist := hypot (px t0 - px t1) (py t0 - py t1) in
              let delta := dist - lastDist in
              let zoomSpeed := 0.005 in
              setLastTouchDist (Some dist)
                (setViewState (zoomBy delta zoomSpeed (viewState s)) s)
            else s
        | None => s
        end
    | _ => s
    end.

Definition handleTouchEnd (s : State) : State :=
  setLastTouchDist None (setLastTouchPos None (setIsDragging false s)).

(** ** The component as a transition system *)

Variable JSON_parse : string -> ParseOutcome.
Variable businesses : list Business.
Variable language : string.

Inductive Event : Type :=
| ChangeSearchQuery (value : string)
| ClickAISearch
| AISearchSettles (reply : GenerateContent)
| ClickAnalyzeTrends
| AnalyzeTrendsSettles (settled : Settled string)
| ClickMapMode (mode : MapMode)
| ClickToggleInteraction
| ClickZoomIn
| ClickZoomOut
| MouseDown (onControl : bool) (clientX clientY : Q)
| MouseMove (clientX clientY : Q)
| MouseUp
| MouseLeave
| Wheel (deltaY : Q)
| TouchStart (onControl : bool) (touches : list Point)
| TouchMove (touches : list Point)
| TouchEnd
| SelectTile (b : Business)
| HoverTile (id : option string)
| CloseSidebar
| CloseInsights.

(** One event handled.  The two asynchronous handlers are split at their
    [await], so other events may fall between request and reply. *)
Definition step (s : State) (e : Event) : State :=
  match e with
  | ChangeSearchQuery value => setSearchQuery value s
  | ClickAISearch =>
      match handleAISearch_start s with Some s' => s' | None => s end
  | AISearchSettles reply =>
      handleAISearch_settle
        (searchBusinessesWithAI JSON_parse (searchQuery s) businesses language reply) s
  | ClickAnalyzeTrends => handleAnalyzeTrends_start s
  | AnalyzeTrendsSettles settled => handleAnalyzeTrends_settle settled s
  | ClickMapMode mode => clickMapMode mode s
  | ClickToggleInteraction =>
      match mapMode s with
      | globe => s                      (* the button is not rendered *)
      | _ =>
          setInteractionMode
            (match interactionMode s with pan => rotate | rotate => pan end) s
      end
  | ClickZoomIn => setViewState (zoomIn (viewState s)) s
  | ClickZoomOut => setViewState (zoomOut (viewState s)) s
  | MouseDown onControl clientX clientY => handleMouseDown onControl clientX clientY s
  | MouseMove clientX clientY => handleMouseMove clientX clientY s
  | MouseUp => handleMouseUp s
  | MouseLeave => handleMouseUp s
  | Wheel deltaY => handleWheel deltaY s
  | TouchStart onControl touches => handleTouchStart onControl touches s
  | TouchMove touches => handleTouchMove touches s
  | TouchEnd => handleTouchEnd s
  | SelectTile b => setIsSidebarOpen true (setSelectedBusinessId (Some (business_id b)) s)
  | HoverTile id => setHoveredId id s
  | CloseSidebar => setIsSidebarOpen false s
  | CloseInsights => setShowInsights false s
  end.

Definition run (s : State) (events : list Event) : State :=
  fold_left step events s.

(** What the map renders in state [s]. *)
Definition displayed (s : State) : list Business :=
  processedBusinesses businesses (aiFilteredIds s) (searchQuery s).

Definition scene (s : State) : list Tile :=
  renderTiles (mapMode s) (displayed s).

End Component.

(** [selectedBusiness]:
    [businesses.find(b => b.id === selectedBusinessId) || null]. *)
Definition selectedBusiness (businesses : list Business)
  (selectedBusinessId : option string) : option Business :=
  match selectedBusinessId with
  | Some id => find (fun b => String.eqb (business_id b) id) businesses
  | None => None
  end.

(** ** [BuildingBlock]: what one tile shows *)

(** The values below are computed in the body of the component, at every
    render.  The facade styles (wall colour, gradient, roof) are computed
    inside a [useMemo] and kept between renders; they are not embedded. *)

Definition Lod_eqb (a b : Lod) : bool :=
  match a, b with
  | low, low | medium, medium | high, high => true
  | _, _ => false
  end.

Definition baseDepth : Q := 40.

Definition hoverLift (isHovered : bool) (lod : Lod) : Q :=
  if isHovered then (if Lod_eqb lod low then 0 else 30) else 0.

Definition heatmapIntensity (mapMode : MapMode) (business : Business) : Q :=
  if MapMode_eqb mapMode heatmap && isOccupied business
  then let visitors := JS.or_zero (activeVisitors business) in
       Qmin (visitors / 50) 1
  else 0.

Definition heatmapHue (heatmapIntensity : Q) : Q :=
  Qmax 0 (240 - (heatmapIntensity * 240)).

Definition heatmapSat (heatmapIntensity : Q) : Q := 60 + (heatmapIntensity * 30).

Definition heatmapLight (heatmapIntensity : Q) : Q := 65 - (heatmapIntensity * 10).

(** [isNetworkRelated] is an optional prop: [None] is undefined. *)
Definition showPulse (lod : Lod) (mapMode : MapMode) (business : Business)
  (isNetworkRelated : option bool) : bool :=
  negb (Lod_eqb lod low)
  && ((MapMode_eqb mapMode heatmap
       && Qlt_bool 0.7 (heatmapIntensity mapMode business))
      || (MapMode_eqb mapMode traffic
          && Qlt_bool 40 (JS.or_zero (activeVisitors business)))
      || (MapMode_eqb mapMode networking && JS.truthy isNetworkRelated)).

(** The class strings [statusColor] and [dotColor] after the [if]s. *)
Definition statusColor (mapMode : MapMode) (business : Business)
  (networkType : option EdgeType) : string :=
  if isOccupied business then
    match mapMode with
    | heatmap => "shadow-glow text-white"
    | traffic =>
        let visitors := JS.or_zero (activeVisitors business) in
        if Qlt_bool 40 visitors then "bg-rose-600 shadow-glow"
        else if Qlt_bool 20 visitors then "bg-amber-500"
        else "bg-emerald-500"
    | networking =>
        match networkType with
        | Some synergy => "bg-brand-accent shadow-[0_0_15px_#F7C600]"
        | Some industry => "bg-blue-500 shadow-[0_0_15px_#3b82f6]"
        | None => "bg-slate-700 opacity-40"
        end
    | _ => "bg-brand-primary"
    end
  else "bg-slate-100".

Definition dotColor (mapMode : MapMode) (business : Business)
  (networkType : option EdgeType) (isFeatured : bool) : string :=
  if isOccupied business then
    match mapMode with
    | heatmap => "bg-white"
    | traffic =>
        let visitors := JS.or_zero (activeVisitors business) in
        if Qlt_bool 40 visitors then "bg-rose-200"
        else if Qlt_bool 20 visitors then "bg-amber-200"
        else "bg-emerald-200"
    | networking =>
        match networkType with
        | Some _ => "bg-white"
        | None => "bg-slate-500"
        end
    | _ => if isFeatured then "bg-brand-gold" else "bg-emerald-400"
    end
  else "bg-slate-400".

Definition showContent (lod : Lod) (isHovered : bool) (mapMode : MapMode)
  (isNetworkRelated : option bool) : bool :=
  Lod_eqb lod high || isHovered
  || (MapMode_eqb mapMode networking && JS.truthy isNetworkRelated).

Definition showBanner (lod : Lod) (isHovered isSelected : bool)
  (mapMode : MapMode) (business : Business) (isNetworkRelated : option bool)
  : bool :=
  (showContent lod isHovered mapMode isNetworkRelated || isSelected)
  && isOccupied business && negb (MapMode_eqb mapMode globe).

(** ** [NetworkingLayer]: how one connection is drawn *)

(** [!activeId || conn.participants.includes(activeId)]. *)
Definition isRelevant (activeId : option string) (conn : Connection) : bool :=
  match activeId with
  | Some a =>
      if JS.truthy_string a then JS.array_includes (participants conn) a
      else true
  | None => true
  end.

Definition lineOpacity (activeId : option string) (conn : Connection) : Q :=
  if isRelevant activeId conn then 0.9 else 0.1.

Definition strokeWidth (conn : Connection) : Q :=
  match conn_type conn with synergy => 3 | industry => 1.5 end.

(** ** The traffic overlay: the colour of one segment *)

Definition segmentColor (seg : Segment) : string :=
  let intensity := Qmin (visitors seg / 50) 1 in
  if Qlt_bool 0.6 intensity then "#ef4444"
  else if Qlt_bool 0.3 intensity then "#f59e0b"
  else "#10b981".

(** [width] and [height] of the segment's box. *)
Definition segmentWidth (seg : Segment) : Q :=
  match orientation seg with vertical => 40 | horizontal => x2 seg - x1 seg end.

Definition segmentHeight (seg : Segment) : Q :=
  match orientation seg with horizontal => 40 | vertical => y2 seg - y1 seg end.

(** [marginLeft] and [marginTop] of the segment's box, which is placed at
    [left: seg.x1, top: seg.y1]. *)
Definition segmentMarginLeft (seg : Segment) : Q :=
  match orientation seg with vertical => -20 | horizontal => 0 end.

Definition segmentMarginTop (seg : Segment) : Q :=
  match orientation seg with horizontal => -20 | vertical => 0 end.

End OfficeMap.

(* ================================================================== *)
(** * [NetworkIntelligence]: the order of the match list *)
(* ================================================================== *)

Module NetworkIntelligence.

(** Modelled from the spec: the type [MatchResult] is declared in
    [../types], which is not among the sources.  The fields are those the
    response schema of [generateBusinessMatches] lists as required, and
    [sharedInterests], which the component reads. *)
Record MatchResult : Type := mkMatch {
  companyId : string;
  score : Q;
  matchReason : string;
  sharedInterests : list string;
  collaborationOpportunity : string
}.

(** The sort orders ['default'] and ['score']. *)
Inductive SortOrder : Type := order_default | order_score.

(** [Array.prototype.sort(compare)] is stable; on a comparator that orders
    the elements consistently its result is the stable arrangement, which
    insertion from the right computes: [x] passes every [y] with
    [compare(x, y) > 0]. *)
Section Sort.

Variable A : Type.
Variable compare : A -> A -> Q.

Fixpoint insert (x : A) (sorted : list A) : list A :=
  match sorted with
  | [] => [x]
  | y :: rest =>
      if Qle_bool (compare x y) 0 then x :: sorted else y :: insert x rest
  end.

Definition sort (l : list A) : list A := fold_right insert [] l.

End Sort.

(** [sortedMatches]: a copy of [matches], sorted by
    [(a, b) => b.score - a.score] when the sort order is [score]. *)
Definition sortedMatches (matches : list MatchResult) (sortOrder : SortOrder)
  : list MatchResult :=
  let result := matches in
  match sortOrder with
  | order_score => sort (fun a b => (score b - score a)%Q) result
  | order_default => result
  end.

End NetworkIntelligence.

(* ================================================================== *)
(** * Vocabulary of the properties *)
(* ================================================================== *)

Import Types GeminiService OfficeMap.
Open Scope list_scope.
Open Scope Q_scope.

(** ** Camera and grid *)

(** The drags of a gesture, applied in order. *)
Definition drag (s : State) (deltas : list (Q * Q)) : State :=
  fold_left (fun s d => updateNavigation (fst d) (snd d) s) deltas s.

(** The centre coordinate of the cell with 1-based index [k] on one axis. *)
Definition centreOnAxis (k : Q) : Q :=
  PADDING + (k - 1) * (CELL_SIZE + GAP) + CELL_SIZE / 2.

(** ** Globe *)

(** The argument of [Math.acos] for index [i] of [n]. *)
Definition heightAt (i n : nat) : R := (-1 + (2 * INR i) / INR n)%R.

(** ** Traffic *)

(** The aggregate of a corridor in the words of the specification: the sum
    of [activeVisitors] over the occupied businesses that lie beside it. *)
Fixpoint corridorTotal (beside : Business -> bool) (businesses : list Business) : Q :=
  match businesses with
  | [] => 0
  | b :: rest =>
      if isOccupied b && beside b
      then JS.or_zero (activeVisitors b) + corridorTotal beside rest
      else corridorTotal beside rest
  end.

(** Beside the vertical corridor [c]: in column [c] or [c + 1]. *)
Definition besideColumn (c : nat) (b : Business) : bool :=
  Qeq_bool (px (gridPosition b)) (JS.num c)
  || Qeq_bool (px (gridPosition b)) (JS.num c + 1).

(** Beside the horizontal corridor [r]: in row [r] or [r + 1]. *)
Definition besideRow (r : nat) (b : Business) : bool :=
  Qeq_bool (py (gridPosition b)) (JS.num r)
  || Qeq_bool (py (gridPosition b)) (JS.num r + 1).

(** ** Networking *)

(** What the pair [(i, j)] pushes. *)
Definition edgeAt {strings : JS.StringMethods} (occupied : list Business)
  (i j : nat) : list Connection :=
  connectPair occupied i j [].

(** What the inner loop pushes for one [i]. *)
Definition rowEdges {strings : JS.StringMethods} (occupied : list Business)
  (i : nat) : list Connection :=
  flat_map (edgeAt occupied i)
           (seq (i + 1) (List.length occupied - (i + 1))).

(** A possibly undefined array, read as a list. *)
Definition listOf {A : Type} (l : option (list A)) : list A :=
  match l with Some xs => xs | None => [] end.

(** [sub] is a substring of [s]: [s] is [sub] with some text before it and
    some text after it. *)
Definition contains (s sub : string) : Prop :=
  exists before after : string, s = (before ++ sub ++ after)%string.

(** One string contains the other, ignoring case: after lower-casing, one
    is a substring of the other. *)
Definition overlaps {strings : JS.StringMethods} (need offer : string) : Prop :=
  contains (JS.toLowerCase offer) (JS.toLowerCase need) \/
  contains (JS.toLowerCase need) (JS.toLowerCase offer).

(** Some service [needer] needs overlaps some service [offerer] offers. *)
Definition needMetBy {strings : JS.StringMethods} (needer offerer : Business)
  : Prop :=
  exists need offer : string,
    In need (listOf (needsOf needer)) /\
    In offer (listOf (offersOf offerer)) /\
    overlaps need offer.

(** Synergy: a need of one is met by the other, in either role
    assignment. *)
Definition synergyBetween {strings : JS.StringMethods} (a b : Business)
  : Prop :=
  needMetBy a b \/ needMetBy b a.

(* ================================================================== *)
(** * Sample data *)
(* ================================================================== *)

(** The host's string methods on ASCII text: every string of the examples
    is ASCII. *)
#[global] Instance asciiStrings : JS.StringMethods := {|
  JS.toLowerCase := JS.Ascii.toLowerCase;
  JS.trim := JS.Ascii.trim
|}.

(** A camera state in the middle of a session, used to run the handlers. *)
Definition sampleView : ViewState := mkView 1.7 30 (-200) 15 (-40).

(** The component in standard mode, rotating, with that camera. *)
Definition sampleState : State :=
  setInteractionMode rotate (setViewState sampleView initialState).

(** The Euclidean norm with an integer square root in the numerator: it is
    [Math.hypot] wherever that is rational, as on Pythagorean triples. *)
Definition hypot_floor (a b : Q) : Q :=
  Z.sqrt ((Qnum a * QDen b) ^ 2 + (Qnum b * QDen a) ^ 2) # (Qden a * Qden b).

(** A pinch in progress: two fingers that were 5 apart. *)
Definition pinchingState : State :=
  handleTouchStart hypot_floor false [mkPoint 0 0; mkPoint 3 4] sampleState.

(** A small district: four occupied units and a vacant one. *)
Definition cafe : Business :=
  mkBusiness "b1" "Cafe Nour" (Some "Coffee and pastries") "FOOD" true
    (Some 30) (mkPoint 1 1)
    (Some (mkGenome (Some ["Catering"]) (Some ["Marketing"]))).

Definition agency : Business :=
  mkBusiness "b2" "Bright Agency" None "FOOD" true
    (Some 25) (mkPoint 2 1)
    (Some (mkGenome (Some ["marketing services"]) None)).

Definition bakery : Business :=
  mkBusiness "b3" "Oven and Co" (Some "") "FOOD" true
    None (mkPoint 3 2) None.

Definition vacant : Business :=
  mkBusiness "b4" "Unit 4" None "AVAILABLE" false
    (Some 12) (mkPoint 2 2) None.

Definition lawyers : Business :=
  mkBusiness "b5" "Adl Legal" (Some "Contracts") "LEGAL" true
    (Some 8) (mkPoint 3 3)
    (Some (mkGenome (Some ["Contracts"]) (Some ["Accounting"]))).

Definition district : list Business := [cafe; agency; bakery; vacant; lawyers].

(** [JSON.parse] on the two replies the examples use. *)
Definition parse_sample (text : string) : ParseOutcome :=
  if String.eqb text "null" then ParsedNull
  else if String.eqb text "{}" then ParsedValue (mkParsed None None)
  else SyntaxError.

(** Two occupied units with 30 and 25 visitors in columns 1 and 2 of
    row 1. *)
Definition busyPair : list Business :=
  [ mkBusiness "a" "A" None "FOOD" true (Some 30) (mkPoint 1 1) None;
    mkBusiness "b" "B" None "TECH" true (Some 25) (mkPoint 2 1) None ].

(* ================================================================== *)
(** * Properties *)
(* ================================================================== *)

(** ** Clamping with [Math.min] and [Math.max] *)

Section Clamp.

Lemma Qmin_left (a b : Q) : a <= b -> Qmin a b = a.
Proof.
  intros H. unfold Qmin, GenericMinMax.gmin.
  destruct (Qcompare_spec a b) as [_|_|Hgt]; try reflexivity.
  exfalso. apply (Qlt_not_le _ _ Hgt H).
Qed.

Lemma Qmin_right (a b : Q) : b < a -> Qmin a b = b.
Proof.
  intros H. unfold Qmin, GenericMinMax.gmin.
  destruct (Qcompare_spec a b) as [He|Hlt|_]; try reflexivity; exfalso.
  - rewrite He in H. apply (Qlt_irrefl _ H).
  - apply (Qlt_irrefl a). apply Qlt_trans with b; assumption.
Qed.

Lemma Qmax_left (a b : Q) : b <= a -> Qmax a b = a.
Proof.
  intros H. unfold Qmax, GenericMinMax.gmax.
  destruct (Qcompare_spec a b) as [_|Hlt|_]; try reflexivity.
  exfalso. apply (Qlt_not_le _ _ Hlt H).
Qed.

Lemma Qmax_right (a b : Q) : a < b -> Qmax a b = b.
Proof.
  intros H. unfold Qmax, GenericMinMax.gmax.
  destruct (Qcompare_spec a b) as [He|_|Hgt]; try reflexivity; exfalso.
  - rewrite He in H. apply (Qlt_irrefl _ H).
  - apply (Qlt_irrefl a). apply Qlt_trans with b; assumption.
Qed.

(** [Math.max(lo, Math.min(hi, v))] lies between the bounds. *)
Lemma clamp_between (lo hi v : Q) :
  lo <= hi -> lo <= Qmax lo (Qmin hi v) <= hi.
Proof.
  intros Hb. split.
  - apply Q.le_max_l.
  - apply Q.max_lub; [assumption | apply Q.le_min_l].
Qed.

Lemma clamp_above (lo hi v : Q) :
  lo < hi -> hi < v -> Qmax lo (Qmin hi v) = hi.
Proof.
  intros Hb Hv. rewrite Qmin_left by (apply Qlt_le_weak; assumption).
  apply Qmax_right; assumption.
Qed.

Lemma clamp_below (lo hi v : Q) :
  lo < hi -> v < lo -> Qmax lo (Qmin hi v) = lo.
Proof.
  intros Hb Hv. rewrite Qmin_right by (apply Qlt_trans with lo; assumption).
  apply Qmax_left. apply Qlt_le_weak; assumption.
Qed.

Lemma clamp_at_top (lo hi v : Q) :
  lo < hi -> hi <= v -> Qmax lo (Qmin hi v) = hi.
Proof.
  intros Hb Hv. rewrite Qmin_left by assumption.
  apply Qmax_right; assumption.
Qed.

Lemma clamp_at_bottom (lo hi v : Q) :
  lo < hi -> v <= lo -> Qmax lo (Qmin hi v) == lo.
Proof.
  intros Hb Hv. apply Qle_antisym.
  - apply Q.max_lub; [apply Qle_refl|].
    apply Qle_trans with v; [apply Q.le_min_r | assumption].
  - apply Q.le_max_l.
Qed.

End Clamp.

(** ** The camera *)

Section CameraProperties.

(** C4.  Whatever the camera and the interaction mode were, the mode effect
    leaves the camera at [zoom 0.9, rotateX 0, rotateZ 0, pan 0,0] with
    interaction mode [rotate] when the new mode is [globe], and at
    [zoom 0.8, rotateX 55, rotateZ 45, pan 0,0] with interaction mode [pan]
    when it is any other mode; a click on a mode button that changes the mode
    runs exactly that effect. *)
Theorem mode_switch_resets_camera :
  forall (s : State) (mode : MapMode),
    (mode = globe ->
       viewState (mapModeEffect (setMapMode mode s)) = mkView 0.9 0 0 0 0 /\
       interactionMode (mapModeEffect (setMapMode mode s)) = rotate) /\
    (mode <> globe ->
       viewState (mapModeEffect (setMapMode mode s)) = mkView 0.8 55 45 0 0 /\
       interactionMode (mapModeEffect (setMapMode mode s)) = pan) /\
    (mapMode s <> mode ->
       clickMapMode mode s = mapModeEffect (setMapMode mode s) /\
       mapMode (clickMapMode mode s) = mode).
Proof.
  intros s mode. repeat split.
  - subst mode. reflexivity.
  - subst mode. reflexivity.
  - destruct mode; try reflexivity. contradiction.
  - destruct mode; try reflexivity. contradiction.
  - unfold clickMapMode.
    destruct mode, (mapMode s); simpl; try reflexivity; contradiction.
  - unfold clickMapMode.
    destruct mode, (mapMode s) eqn:E; simpl; try reflexivity; contradiction.
Qed.

Lemma mode_switch_resets_camera_witness :
  viewState (clickMapMode globe sampleState) = mkView 0.9 0 0 0 0 /\
  interactionMode (clickMapMode globe sampleState) = rotate /\
  viewState (clickMapMode heatmap sampleState) = mkView 0.8 55 45 0 0 /\
  interactionMode (clickMapMode heatmap sampleState) = pan.
Proof.
  destruct (mode_switch_resets_camera sampleState globe) as (Hg & _ & Hcg).
  destruct (mode_switch_resets_camera sampleState heatmap) as (_ & Hh & Hch).
  destruct Hcg as [Eg _]; [discriminate|].
  destruct Hch as [Eh _]; [discriminate|].
  rewrite Eg, Eh.
  destruct (Hg eq_refl) as [Hg1 Hg2].
  destruct Hh as [Hh1 Hh2]; [discriminate|].
  exact (conj Hg1 (conj Hg2 (conj Hh1 Hh2))).
Defined.

(** One rotate-mode drag outside the globe. *)
Lemma navigate_rotate (mode : MapMode) (dx dy : Q) (v : ViewState) :
  mode <> globe ->
  navigate mode rotate dx dy v =
  mkView (zoom v) (Qmax 0 (Qmin 85 (rotateX v - dy * 0.3)))
         (rotateZ v + dx * 0.3) (panX v) (panY v).
Proof. destruct mode; intros H; try reflexivity. contradiction. Qed.

Lemma updateNavigation_keeps_modes (dx dy : Q) (s : State) :
  mapMode (updateNavigation dx dy s) = mapMode s /\
  interactionMode (updateNavigation dx dy s) = interactionMode s.
Proof. split; reflexivity. Qed.

Lemma drag_keeps_modes (deltas : list (Q * Q)) :
  forall s, mapMode (drag s deltas) = mapMode s /\
            interactionMode (drag s deltas) = interactionMode s.
Proof.
  induction deltas as [|d ds IH]; intros s; simpl.
  - split; reflexivity.
  - destruct (IH (updateNavigation (fst d) (snd d) s)) as [H1 H2].
    unfold drag in *. rewrite H1, H2. apply updateNavigation_keeps_modes.
Qed.

(** C5.  Outside globe mode and with interaction mode [rotate], one drag
    sets [rotateZ] to [rotateZ + dx*0.3] and [rotateX] to
    [max(0, min(85, rotateX - dy*0.3))], and after any sequence of drags
    from a camera whose [rotateX] is in [[0, 85]], [rotateX] is in
    [[0, 85]]. *)
Theorem rotateX_stays_in_range :
  forall (s : State) (deltas : list (Q * Q)),
    mapMode s <> globe ->
    interactionMode s = rotate ->
    0 <= rotateX (viewState s) <= 85 ->
    0 <= rotateX (viewState (drag s deltas)) <= 85 /\
    (forall dx dy : Q,
        rotateZ (viewState (updateNavigation dx dy s))
          = rotateZ (viewState s) + dx * 0.3 /\
        rotateX (viewState (updateNavigation dx dy s))
          = Qmax 0 (Qmin 85 (rotateX (viewState s) - dy * 0.3))).
Proof.
  intros s deltas Hmode Hrot Hin. split.
  - revert s Hmode Hrot Hin.
    induction deltas as [|d ds IH]; intros s Hmode Hrot Hin; simpl.
    + exact Hin.
    + apply IH.
      * exact Hmode.
      * exact Hrot.
      * unfold updateNavigation. cbn [viewState setViewState].
        rewrite Hrot, navigate_rotate by exact Hmode.
        cbn [rotateX]. apply clamp_between. discriminate.
  - intros dx dy. unfold updateNavigation. cbn [viewState setViewState].
    rewrite Hrot, navigate_rotate by exact Hmode. split; reflexivity.
Qed.

Lemma rotateX_stays_in_range_witness :
  0 <= rotateX (viewState (drag sampleState [(10, 500); (-3, -9000); (7, 12)])) <= 85 /\
  rotateX (viewState (updateNavigation 10 500 sampleState))
    = Qmax 0 (Qmin 85 (30 - 500 * 0.3)).
Proof.
  assert (Hmode : mapMode sampleState <> globe) by discriminate.
  assert (Hrot : interactionMode sampleState = rotate) by reflexivity.
  assert (Hin : 0 <= rotateX (viewState sampleState) <= 85)
    by (split; discriminate).
  destruct (rotateX_stays_in_range sampleState
              [(10, 500); (-3, -9000); (7, 12)] Hmode Hrot Hin) as [H1 H2].
  split; [exact H1 | exact (proj2 (H2 10 500))].
Defined.

End CameraProperties.

(** ** Zoom *)

Section ZoomProperties.

Variable hypot : Q -> Q -> Q.

(** What one application of the zoom updater does at and beyond the
    bounds. *)
Lemma zoomBy_saturates (delta zoomSpeed : Q) (v : ViewState) :
  (2.5 < zoom v + delta * zoomSpeed -> zoom (zoomBy delta zoomSpeed v) = 2.5) /\
  (zoom v + delta * zoomSpeed < 0.4 -> zoom (zoomBy delta zoomSpeed v) = 0.4) /\
  (zoom v == 2.5 -> 0 <= delta * zoomSpeed ->
     zoom (zoomBy delta zoomSpeed v) == zoom v) /\
  (zoom v == 0.4 -> delta * zoomSpeed <= 0 ->
     zoom (zoomBy delta zoomSpeed v) == zoom v).
Proof.
  cbn [zoom zoomBy]. generalize (delta * zoomSpeed). intros d. repeat split.
  - intros H. apply clamp_above; [reflexivity | exact H].
  - intros H. apply clamp_below; [reflexivity | exact H].
  - intros Hz Hd. rewrite clamp_at_top; [symmetry; exact Hz | reflexivity | Lqa.lra].
  - intros Hz Hd. rewrite clamp_at_bottom; [symmetry; exact Hz | reflexivity | Lqa.lra].
Qed.

(** The pinch branch of [handleTouchMove], when it is taken. *)
Lemma handleTouchMove_pinch (t0 t1 : Point) (lastDist : Q) (s : State) :
  isDragging s = true ->
  lastTouchDist s = Some lastDist ->
  ~ lastDist == 0 ->
  viewState (handleTouchMove hypot [t0; t1] s) =
  zoomBy (hypot (px t0 - px t1) (py t0 - py t1) - lastDist) 0.005 (viewState s).
Proof.
  intros Hd Hl Hnz. unfold handleTouchMove. rewrite Hd, Hl. cbn [negb].
  unfold JS.truthy_number.
  destruct (Qeq_bool lastDist 0) eqn:E.
  - exfalso. apply Hnz. apply Qeq_bool_eq. exact E.
  - reflexivity.
Qed.

(** C6.  The wheel and the pinch saturate [zoom] at [0.4] and [2.5]: a delta
    that would take [zoom] above [2.5] (below [0.4]) leaves it at exactly
    [2.5] ([0.4]), and on a camera already at a bound a further delta in the
    same direction leaves [zoom] as it was. *)
Theorem zoom_saturates_at_bounds :
  forall (s : State),
    (forall deltaY : Q,
        (2.5 < zoom (viewState s) + (- deltaY) * 0.0015 ->
           zoom (viewState (handleWheel deltaY s)) = 2.5) /\
        (zoom (viewState s) + (- deltaY) * 0.0015 < 0.4 ->
           zoom (viewState (handleWheel deltaY s)) = 0.4) /\
        (zoom (viewState s) == 2.5 -> deltaY <= 0 ->
           zoom (viewState (handleWheel deltaY s)) == zoom (viewState s)) /\
        (zoom (viewState s) == 0.4 -> 0 <= deltaY ->
           zoom (viewState (handleWheel deltaY s)) == zoom (viewState s))) /\
    (forall (t0 t1 : Point) (lastDist : Q),
        isDragging s = true ->
        lastTouchDist s = Some lastDist ->
        ~ lastDist == 0 ->
        (2.5 < zoom (viewState s)
               + (hypot (px t0 - px t1) (py t0 - py t1) - lastDist) * 0.005 ->
           zoom (viewState (handleTouchMove hypot [t0; t1] s)) = 2.5) /\
        (zoom (viewState s)
           + (hypot (px t0 - px t1) (py t0 - py t1) - lastDist) * 0.005 < 0.4 ->
           zoom (viewState (handleTouchMove hypot [t0; t1] s)) = 0.4) /\
        (zoom (viewState s) == 2.5 ->
         lastDist <= hypot (px t0 - px t1) (py t0 - py t1) ->
           zoom (viewState (handleTouchMove hypot [t0; t1] s))
             == zoom (viewState s)) /\
        (zoom (viewState s) == 0.4 ->
         hypot (px t0 - px t1) (py t0 - py t1) <= lastDist ->
           zoom (viewState (handleTouchMove hypot [t0; t1] s))
             == zoom (viewState s))).
Proof.
  intros s. split.
  - intros deltaY. unfold handleWheel. cbn [viewState setViewState].
    destruct (zoomBy_saturates (- deltaY) 0.0015 (viewState s))
      as (Hup & Hdown & Htop & Hbottom).
    repeat split.
    + exact Hup.
    + exact Hdown.
    + intros Hz Hd. apply Htop; [exact Hz | Lqa.lra].
    + intros Hz Hd. apply Hbottom; [exact Hz | Lqa.lra].
  - intros t0 t1 lastDist Hd Hl Hnz.
    rewrite (handleTouchMove_pinch t0 t1 s Hd Hl Hnz).
    destruct (zoomBy_saturates
                (hypot (px t0 - px t1) (py t0 - py t1) - lastDist) 0.005
                (viewState s)) as (Hup & Hdown & Htop & Hbottom).
    repeat split.
    + exact Hup.
    + exact Hdown.
    + intros Hz Hle. apply Htop; [exact Hz | Lqa.lra].
    + intros Hz Hle. apply Hbottom; [exact Hz | Lqa.lra].
Qed.

End ZoomProperties.

Lemma zoom_saturates_at_bounds_witness :
  zoom (viewState (handleWheel (-1000) sampleState)) = 2.5 /\
  zoom (viewState (handleWheel 1000 sampleState)) = 0.4 /\
  zoom (viewState (handleWheel (-7) (handleWheel (-1000) sampleState)))
    == zoom (viewState (handleWheel (-1000) sampleState)) /\
  zoom (viewState (handleWheel 7 (handleWheel 1000 sampleState)))
    == zoom (viewState (handleWheel 1000 sampleState)) /\
  zoom (viewState (handleTouchMove hypot_floor [mkPoint 0 0; mkPoint 300 400]
                     pinchingState)) = 2.5 /\
  zoom (viewState (handleTouchMove hypot_floor [mkPoint 0 0; mkPoint 600 800]
                     (handleTouchMove hypot_floor [mkPoint 0 0; mkPoint 300 400]
                        pinchingState)))
    == zoom (viewState (handleTouchMove hypot_floor [mkPoint 0 0; mkPoint 300 400]
                          pinchingState)).
Proof.
  pose (up := handleWheel (-1000) sampleState).
  pose (down := handleWheel 1000 sampleState).
  pose (wide := handleTouchMove hypot_floor [mkPoint 0 0; mkPoint 300 400]
                  pinchingState).
  destruct (zoom_saturates_at_bounds hypot_floor sampleState) as [Hw _].
  destruct (zoom_saturates_at_bounds hypot_floor up) as [Hwu _].
  destruct (zoom_saturates_at_bounds hypot_floor down) as [Hwd _].
  destruct (zoom_saturates_at_bounds hypot_floor pinchingState) as [_ Hp].
  destruct (zoom_saturates_at_bounds hypot_floor wide) as [_ Hpw].
  assert (Hnz5 : ~ 5 # 1 == 0) by discriminate.
  assert (Hnz500 : ~ 500 # 1 == 0) by discriminate.
  refine (conj _ (conj _ (conj _ (conj _ (conj _ _))))).
  - apply (proj1 (Hw (-1000))). reflexivity.
  - apply (proj1 (proj2 (Hw 1000))). reflexivity.
  - apply (proj1 (proj2 (proj2 (Hwu (-7))))); [reflexivity | discriminate].
  - apply (proj2 (proj2 (proj2 (Hwd 7)))); [reflexivity | discriminate].
  - apply (proj1 (Hp (mkPoint 0 0) (mkPoint 300 400) (5 # 1)
                     eq_refl eq_refl Hnz5)).
    reflexivity.
  - apply (proj1 (proj2 (proj2 (Hpw (mkPoint 0 0) (mkPoint 600 800) (500 # 1)
                                    eq_refl eq_refl Hnz500))));
      [reflexivity | discriminate].
Defined.

(** ** Grid geometry *)

Section GridProperties.

Lemma CELL_SIZE_value : CELL_SIZE == 240.
Proof. reflexivity. Qed.

Lemma getCellCenter_axes (c r : Q) :
  px (getCellCenter (mkPoint c r)) == centreOnAxis c /\
  py (getCellCenter (mkPoint c r)) == centreOnAxis r.
Proof.
  unfold getCellCenter, centreOnAxis. cbn [px py]. split; ring.
Qed.

(** C8.  The centre of the cell in 1-based column [c] and row [r] is
    [padding + (c-1)*(cellSize+gap) + cellSize/2] on the x axis and the same
    in [r] on the y axis, with
    [cellSize = (containerSize - 2*padding - (cols-1)*gap) / cols]; the
    centre of cell (1,1) is [padding + cellSize/2] on both axes; and the
    result depends on the input only: equal coordinates give equal centres. *)
Theorem getCellCenter_formula :
  forall c r : Q,
    px (getCellCenter (mkPoint c r))
      == PADDING + (c - 1) * (CELL_SIZE + GAP) + CELL_SIZE / 2 /\
    py (getCellCenter (mkPoint c r))
      == PADDING + (r - 1) * (CELL_SIZE + GAP) + CELL_SIZE / 2 /\
    CELL_SIZE
      == (CONTAINER_SIZE - 2 * PADDING - (JS.num GRID_COLS - 1) * GAP)
         / JS.num GRID_COLS /\
    px (getCellCenter (mkPoint 1 1)) == PADDING + CELL_SIZE / 2 /\
    py (getCellCenter (mkPoint 1 1)) == PADDING + CELL_SIZE / 2 /\
    (forall p q : Point,
        px p == px q -> py p == py q ->
        px (getCellCenter p) == px (getCellCenter q) /\
        py (getCellCenter p) == py (getCellCenter q)).
Proof.
  intros c r.
  destruct (getCellCenter_axes c r) as [Hx Hy].
  refine (conj Hx (conj Hy (conj _ (conj _ (conj _ _))))).
  - reflexivity.
  - reflexivity.
  - reflexivity.
  - intros [a b] [a' b']. cbn [px py]. intros Ha Hb.
    destruct (getCellCenter_axes a b) as [H1 H2].
    destruct (getCellCenter_axes a' b') as [H1' H2'].
    rewrite H1, H2, H1', H2'. unfold centreOnAxis.
    rewrite Ha, Hb. split; reflexivity.
Qed.

Lemma getCellCenter_formula_witness :
  px (getCellCenter (mkPoint 2 3)) == 600 /\
  py (getCellCenter (mkPoint 2 3)) == 960 /\
  px (getCellCenter (mkPoint (4 # 2) 3)) == px (getCellCenter (mkPoint 2 (6 # 2))).
Proof.
  destruct (getCellCenter_formula 2 3) as (Hx & Hy & _ & _ & _ & Hpure).
  refine (conj _ (conj _ _)).
  - rewrite Hx. reflexivity.
  - rewrite Hy. reflexivity.
  - apply (Hpure (mkPoint (4 # 2) 3) (mkPoint 2 (6 # 2))); reflexivity.
Defined.

End GridProperties.

(** ** The AI filter *)

Section FilterProperties.

Context {strings : JS.StringMethods}.

Variable hypot : Q -> Q -> Q.
Variable JSON_parse : string -> ParseOutcome.
Variable businesses : list Business.
Variable language : string.

Local Abbreviation step := (step hypot JSON_parse businesses language).
Local Abbreviation run := (run hypot JSON_parse businesses language).

(** The service resolves whatever happens to the request. *)
Lemma searchBusinessesWithAI_resolves (query : string) (reply : GenerateContent) :
  exists response,
    searchBusinessesWithAI JSON_parse query businesses language reply
    = Fulfilled response.
Proof.
  unfold searchBusinessesWithAI.
  destruct (tryBody JSON_parse reply); eexists; reflexivity.
Qed.

(** When the [try] block throws, the service resolves with no ids. *)
Lemma searchBusinessesWithAI_on_failure (query : string) (reply : GenerateContent) :
  tryBody JSON_parse reply = None ->
  searchBusinessesWithAI JSON_parse query businesses language reply
  = Fulfilled fallbackResponse.
Proof. intros H. unfold searchBusinessesWithAI. rewrite H. reflexivity. Qed.

(** The [catch] of [handleAISearch]: a rejected promise leaves the filter
    as it was. *)
Lemma handleAISearch_settle_rejected (s : State) :
  aiFilteredIds (handleAISearch_settle Rejected s) = aiFilteredIds s /\
  isSearchingAI (handleAISearch_settle Rejected s) = false.
Proof. split; reflexivity. Qed.

Lemma handleAISearch_settle_fulfilled (result : AISearchResponse) (s : State) :
  aiFilteredIds (handleAISearch_settle (Fulfilled result) s) = Some (ids result) /\
  isSearchingAI (handleAISearch_settle (Fulfilled result) s) = false.
Proof. split; reflexivity. Qed.

(** An event either leaves the filter alone or installs a list of ids. *)
Lemma step_aiFilteredIds (s : State) (e : Event) :
  aiFilteredIds (step s e) = aiFilteredIds s \/
  exists filteredIds, aiFilteredIds (step s e) = Some filteredIds.
Proof.
  destruct e; cbn [OfficeMap.step]; try (left; reflexivity).
  - left. unfold handleAISearch_start.
    destruct (JS.truthy_string (JS.trim (searchQuery s))); reflexivity.
  - right.
    destruct (searchBusinessesWithAI_resolves (searchQuery s) reply) as [r Hr].
    rewrite Hr. exists (ids r). reflexivity.
  - left. destruct settled; reflexivity.
  - left. unfold clickMapMode.
    destruct (MapMode_eqb mode (mapMode s)); [reflexivity|].
    unfold mapModeEffect. destruct mode; reflexivity.
  - left. destruct (mapMode s); reflexivity.
  - left. unfold handleMouseDown. destruct onControl; reflexivity.
  - left. unfold handleMouseMove.
    destruct (isDragging s), (lastMousePos s); reflexivity.
  - left. unfold handleTouchStart. destruct onControl; [reflexivity|].
    destruct touches as [|t0 [|t1 [|t2 ts]]]; reflexivity.
  - left. unfold handleTouchMove.
    destruct (isDragging s); [|reflexivity]. cbn [negb].
    destruct touches as [|t0 [|t1 [|t2 ts]]]; try reflexivity.
    + destruct (lastTouchPos s); reflexivity.
    + destruct (lastTouchDist s) as [d|]; [|reflexivity].
      destruct (JS.truthy_number (Some d)); reflexivity.
Qed.

Lemma step_keeps_filter_set (s : State) (e : Event) :
  aiFilteredIds s <> None -> aiFilteredIds (step s e) <> None.
Proof.
  intros H. destruct (step_aiFilteredIds s e) as [E|[l E]]; rewrite E.
  - exact H.
  - discriminate.
Qed.

Lemma run_keeps_filter_set (events : list Event) :
  forall s, aiFilteredIds s <> None -> aiFilteredIds (run s events) <> None.
Proof.
  induction events as [|e es IH]; intros s H; simpl.
  - exact H.
  - apply IH. apply step_keeps_filter_set. exact H.
Qed.

(** C10.  With an AI filter in place (the empty list included) the displayed
    list is determined by the business list and the id list: it is the same
    for any two text queries; and no event of the component takes a filter
    that is set back to null, neither in one step nor over a run. *)
Theorem ai_filter_decides_displayed_list :
  (forall (filteredIds : list string) (query1 query2 : string),
      processedBusinesses businesses (Some filteredIds) query1
      = processedBusinesses businesses (Some filteredIds) query2) /\
  (forall (s : State) (query1 query2 : string),
      aiFilteredIds s <> None ->
      displayed businesses (setSearchQuery query1 s)
      = displayed businesses (setSearchQuery query2 s)) /\
  (forall (s : State) (e : Event),
      aiFilteredIds s <> None -> aiFilteredIds (step s e) <> None) /\
  (forall (s : State) (events : list Event),
      aiFilteredIds s <> None -> aiFilteredIds (run s events) <> None).
Proof.
  refine (conj _ (conj _ (conj step_keeps_filter_set _))).
  - intros filteredIds query1 query2. reflexivity.
  - intros s query1 query2 H. unfold displayed.
    cbn [aiFilteredIds searchQuery setSearchQuery].
    destruct (aiFilteredIds s); [reflexivity | contradiction].
  - intros s events. apply run_keeps_filter_set.
Qed.

End FilterProperties.

Lemma ai_filter_decides_displayed_list_witness :
  displayed district
    (setSearchQuery "cafe" (setAiFilteredIds (Some ["b2"%string]) sampleState))
  = displayed district
      (setSearchQuery "legal" (setAiFilteredIds (Some ["b2"%string]) sampleState)) /\
  aiFilteredIds
    (run hypot_floor parse_sample district "en"
         (setAiFilteredIds (Some ["b2"%string]) sampleState)
         [ChangeSearchQuery ""; ClickMapMode globe; ClickAISearch;
          AISearchSettles RequestFails; TouchEnd; ChangeSearchQuery "legal";
          ClickAISearch; AISearchSettles (Responds (Some "null"%string))])
  <> None.
Proof.
  destruct (ai_filter_decides_displayed_list hypot_floor parse_sample district "en")
    as (_ & Hq & _ & Hrun).
  split.
  - apply Hq. discriminate.
  - apply Hrun. discriminate.
Defined.

(** ** The failed search *)

Section FailedSearch.

Context {strings : JS.StringMethods}.

Variable hypot : Q -> Q -> Q.
Variable JSON_parse : string -> ParseOutcome.
Variable businesses : list Business.
Variable language : string.

(** Whenever the [try] block of the service throws, the reply that reaches
    the map installs the empty id list, and the map shows nothing. *)
Lemma failed_search_installs_empty_filter (s : State) (reply : GenerateContent) :
  tryBody JSON_parse reply = None ->
  aiFilteredIds (step hypot JSON_parse businesses language s (AISearchSettles reply))
  = Some [] /\
  displayed businesses
    (step hypot JSON_parse businesses language s (AISearchSettles reply)) = [].
Proof.
  intros H. cbn [step]. rewrite (searchBusinessesWithAI_on_failure _ _ _ _ _ H).
  split; [reflexivity|].
  unfold displayed, handleAISearch_settle.
  cbn [aiFilteredIds setAiFilteredIds setIsSearchingAI searchQuery
       fallbackResponse ids processedBusinesses].
  induction businesses as [|b bs IH]; [reflexivity | exact IH].
Qed.

End FailedSearch.

Section FailedSearchRun.

Variable hypot : Q -> Q -> Q.
Variable JSON_parse : string -> ParseOutcome.
Variable language : string.

(** C1, evaluated on the code.  The query "cafe" is typed, no AI filter is
    set and the map shows the cafe.  The search is started and the request
    to the model fails: the service resolves with no ids, the handler
    installs them, and the map shows no business at all, where the text
    filter alone shows the cafe.  (The names of [district] and the query
    are ASCII; the run is on [asciiStrings].) *)
Theorem failed_ai_search_empties_the_map :
  aiFilteredIds (setSearchQuery "cafe" initialState) = None /\
  displayed district (setSearchQuery "cafe" initialState) = [cafe] /\
  aiFilteredIds
    (run hypot JSON_parse district language (setSearchQuery "cafe" initialState)
         [ClickAISearch; AISearchSettles RequestFails]) = Some [] /\
  displayed district
    (run hypot JSON_parse district language (setSearchQuery "cafe" initialState)
         [ClickAISearch; AISearchSettles RequestFails]) = [] /\
  isSearchingAI
    (run hypot JSON_parse district language (setSearchQuery "cafe" initialState)
         [ClickAISearch; AISearchSettles RequestFails]) = false.
Proof. repeat split. Qed.

End FailedSearchRun.

(** ** Globe placement *)

Section GlobeProperties.

Local Open Scope R_scope.

(** [Math.acos] is strictly decreasing on [[-1, 1]]. *)
Lemma acos_strictly_decreasing (u v : R) :
  -1 <= u -> u < v -> v <= 1 -> acos v < acos u.
Proof.
  intros Hu Huv Hv.
  apply Rnot_le_lt. intros Hle.
  destruct (acos_bound u) as [Hu0 Hu1].
  destruct (acos_bound v) as [Hv0 Hv1].
  pose proof (cos_decr_1 (acos u) (acos v) Hu0 Hu1 Hv0 Hv1 Hle) as Hcos.
  rewrite !cos_acos in Hcos by Lra.lra.
  Lra.lra.
Qed.

Lemma heightAt_increasing (n i j : nat) :
  (i < j)%nat -> (j < n)%nat ->
  -1 <= heightAt i n /\ heightAt i n < heightAt j n /\ heightAt j n < 1.
Proof.
  intros Hij Hjn. unfold heightAt.
  assert (Hn : 0 < INR n) by (apply lt_0_INR; lia).
  assert (Hi : 0 <= INR i) by apply pos_INR.
  assert (Hij' : INR i < INR j) by (apply lt_INR; exact Hij).
  assert (Hjn' : INR j < INR n) by (apply lt_INR; exact Hjn).
  assert (Hinv : 0 < / INR n) by (apply Rinv_0_lt_compat; exact Hn).
  unfold Rdiv. repeat split.
  - assert (0 <= 2 * INR i * / INR n); [|Lra.lra].
    apply Rmult_le_pos; [Lra.lra | Lra.lra].
  - assert (2 * INR i * / INR n < 2 * INR j * / INR n); [|Lra.lra].
    apply Rmult_lt_compat_r; [exact Hinv | Lra.lra].
  - assert (H : INR j * / INR n < 1).
    { apply (Rmult_lt_reg_r (INR n)); [exact Hn|].
      rewrite Rmult_assoc, Rinv_l by Lra.lra. Lra.lra. }
    Lra.lra.
Qed.

Lemma spherePhi_value (i n : nat) :
  (1 <= n)%nat -> spherePhi i n = Some (acos (heightAt i n)).
Proof. intros H. destruct n; [lia | reflexivity]. Qed.

Lemma sphereTheta_value (i n : nat) :
  (1 <= n)%nat ->
  sphereTheta i n = Some (sqrt (INR n * PI) * acos (heightAt i n)).
Proof.
  intros H. unfold sphereTheta. rewrite spherePhi_value by exact H. reflexivity.
Qed.

Lemma spherePhi_decreasing (n i j : nat) :
  (i < j)%nat -> (j < n)%nat ->
  0 < acos (heightAt j n) /\
  acos (heightAt j n) < acos (heightAt i n) /\
  acos (heightAt i n) <= PI.
Proof.
  intros Hij Hjn.
  destruct (heightAt_increasing Hij Hjn) as (H1 & H2 & H3).
  repeat split.
  - apply acos_bound_lt. Lra.lra.
  - apply acos_strictly_decreasing; Lra.lra.
  - apply acos_bound.
Qed.

Lemma map_indexed_from_nth (A B : Type) (f : A -> nat -> B) (xs : list A) :
  forall (k i : nat) (a : A),
    nth_error xs i = Some a ->
    nth_error (JS.map_indexed_from k f xs) i = Some (f a (k + i)%nat).
Proof.
  induction xs as [|x xs IH]; intros k i a H.
  - destruct i; discriminate.
  - destruct i as [|i]; simpl in *.
    + injection H as ->. rewrite Nat.add_0_r. reflexivity.
    + rewrite (IH (S k) i a H). f_equal. f_equal. lia.
Qed.

(** The tile of the business at index [i]. *)
Lemma renderTiles_nth (mode : MapMode) (processed : list Business) (i : nat)
  (b : Business) :
  nth_error processed i = Some b ->
  nth_error (renderTiles mode processed) i = Some (renderTile mode processed b i).
Proof.
  intros H. unfold renderTiles, JS.map_indexed.
  rewrite (map_indexed_from_nth _ _ 0 _ H). reflexivity.
Qed.

(** C2.  In globe mode the tile of the business at index [i] of the [n]
    filtered businesses is placed with [phi = acos(-1 + 2i/n)] and
    [theta = sqrt(n*pi) * phi] at the fixed radius [GLOBE_RADIUS]; for
    [n >= 1] the pairs [(phi, theta)] of two distinct indices below [n]
    differ; and [phi] is monotone in the index: it starts at [pi] for index
    0, decreases strictly as the index grows, and stays inside [[0, pi]]. *)
Theorem globe_placement_distinct_and_monotone :
  forall (processed : list Business) (i : nat) (bi : Business),
    nth_error processed i = Some bi ->
    let n := List.length processed in
    let phi := fun k : nat => acos (-1 + (2 * INR k) / INR n) in
    let theta := fun k : nat => sqrt (INR n * PI) * phi k in
    (1 <= n)%nat /\
    nth_error (renderTiles globe processed) i
      = Some (mkTile (business_id bi)
                (GlobeStyle (Some (theta i)) (Some (phi i)) GLOBE_RADIUS
                   (- CELL_SIZE / 2)%Q (- CELL_SIZE / 2)%Q CELL_SIZE CELL_SIZE)) /\
    (0 <= phi i <= PI) /\
    phi 0%nat = PI /\
    (forall j : nat,
        (j < n)%nat -> i <> j ->
        (phi i, theta i) <> (phi j, theta j) /\
        ((i < j)%nat -> phi j < phi i) /\
        ((j < i)%nat -> phi i < phi j)).
Proof.
  intros processed i bi Hi n phi theta.
  assert (Hin : (i < n)%nat) by (apply nth_error_Some; rewrite Hi; discriminate).
  assert (Hn : (1 <= n)%nat) by lia.
  assert (Hmono : forall a b, (a < b)%nat -> (b < n)%nat -> phi b < phi a).
  { intros a b Hab Hbn. apply (spherePhi_decreasing Hab Hbn). }
  refine (conj Hn (conj _ (conj _ (conj _ _)))).
  - rewrite (renderTiles_nth globe processed i Hi). unfold renderTile.
    fold n. rewrite sphereTheta_value, spherePhi_value by exact Hn. reflexivity.
  - apply acos_bound.
  - unfold phi. simpl INR. unfold Rdiv. rewrite Rmult_0_r, Rmult_0_l, Rplus_0_r.
    replace (-1) with (- (1)) by Lra.lra. rewrite acos_opp, acos_1. Lra.lra.
  - intros j Hjn Hne. refine (conj _ (conj _ _)).
    + intros Heq. injection Heq as Hphi _.
      destruct (Nat.lt_total i j) as [Hlt|[Heq'|Hgt]].
      * pose proof (Hmono i j Hlt Hjn). Lra.lra.
      * contradiction.
      * pose proof (Hmono j i Hgt Hin). Lra.lra.
    + intros Hlt. apply Hmono; assumption.
    + intros Hgt. apply Hmono; assumption.
Qed.

Lemma globe_placement_distinct_and_monotone_witness :
  nth_error (renderTiles globe district) 1
    = Some (mkTile "b2"
              (GlobeStyle
                 (Some (sqrt (INR 5 * PI) * acos (-1 + (2 * INR 1) / INR 5)))
                 (Some (acos (-1 + (2 * INR 1) / INR 5)))
                 GLOBE_RADIUS
                 (- CELL_SIZE / 2)%Q (- CELL_SIZE / 2)%Q CELL_SIZE CELL_SIZE)) /\
  acos (-1 + (2 * INR 4) / INR 5) < acos (-1 + (2 * INR 1) / INR 5).
Proof.
  destruct (@globe_placement_distinct_and_monotone district 1 agency eq_refl)
    as (_ & Hi & _ & _ & Hj).
  split.
  - exact Hi.
  - assert (H4 : (4 < List.length district)%nat) by repeat constructor.
    assert (Hne : 1%nat <> 4%nat) by discriminate.
    apply (proj1 (proj2 (Hj 4%nat H4 Hne))). repeat constructor.
Defined.

End GlobeProperties.

(** ** The empty list *)

Section EmptyListProperties.

Context {strings : JS.StringMethods}.

Lemma map_indexed_from_length (A B : Type) (f : A -> nat -> B) (xs : list A) :
  forall k, List.length (JS.map_indexed_from k f xs) = List.length xs.
Proof.
  induction xs as [|x xs IH]; intros k; simpl; [reflexivity|].
  rewrite IH. reflexivity.
Qed.

(** Every element of the result comes from one call of the callback. *)
Lemma map_indexed_from_In (A B : Type) (f : A -> nat -> B) (xs : list A) :
  forall (k : nat) (y : B),
    In y (JS.map_indexed_from k f xs) ->
    exists (x : A) (i : nat), In x xs /\ y = f x i.
Proof.
  induction xs as [|x xs IH]; intros k y H; simpl in H.
  - contradiction.
  - destruct H as [H|H].
    + exists x, k. split; [left; reflexivity | symmetry; exact H].
    + destruct (IH (S k) y H) as (x' & i & Hin & Hy).
      exists x', i. split; [right; exact Hin | exact Hy].
Qed.

(** C9.  With an empty business list the filtered list is empty whatever
    the filter and the query, the scene in globe mode has no tile, so the
    placement callback is never run; and for any list, each tile that globe
    mode renders comes from a placement whose divisor [total] is not zero:
    its [phi] and [theta] are numbers, never the NaN of a division by
    zero.  The composition is a total function: nothing throws. *)
Theorem empty_list_renders_no_tile :
  (forall (filteredIds : option (list string)) (query : string),
      processedBusinesses [] filteredIds query = []) /\
  renderTiles globe [] = [] /\
  (forall s : State, scene [] (setMapMode globe s) = []) /\
  (forall processed : list Business,
      List.length (renderTiles globe processed) = List.length processed) /\
  (forall (processed : list Business) (t : Tile),
      In t (renderTiles globe processed) ->
      List.length processed <> 0%nat /\
      exists theta phi : R,
        tile_style t = GlobeStyle (Some theta) (Some phi) GLOBE_RADIUS
                         (- CELL_SIZE / 2) (- CELL_SIZE / 2) CELL_SIZE CELL_SIZE).
Proof.
  refine (conj _ (conj _ (conj _ (conj _ _)))).
  - intros [ids|] query; simpl; [reflexivity|].
    destruct (JS.truthy_string (JS.trim query)); reflexivity.
  - reflexivity.
  - intros s. unfold scene, displayed. cbn [mapMode setMapMode].
    destruct (aiFilteredIds (setMapMode globe s)); simpl; [reflexivity|].
    destruct (JS.truthy_string (JS.trim (searchQuery s))); reflexivity.
  - intros processed. apply map_indexed_from_length.
  - intros processed t Hin.
    destruct (map_indexed_from_In _ _ _ _ Hin) as (b & i & Hb & ->).
    assert (Hlen : List.length processed <> 0%nat)
      by (destruct processed; [contradiction | discriminate]).
    split; [exact Hlen|].
    unfold renderTile. cbn [tile_style].
    unfold sphereTheta, spherePhi.
    destruct (List.length processed) as [|n]; [contradiction|].
    eexists. eexists. reflexivity.
Qed.

End EmptyListProperties.

Lemma empty_list_renders_no_tile_witness :
  List.length district <> 0%nat /\
  exists theta phi : R,
    tile_style (renderTile globe district bakery 2)
    = GlobeStyle (Some theta) (Some phi) GLOBE_RADIUS
        (- CELL_SIZE / 2) (- CELL_SIZE / 2) CELL_SIZE CELL_SIZE.
Proof.
  destruct empty_list_renders_no_tile as (_ & _ & _ & _ & H).
  apply (H district (renderTile globe district bakery 2)).
  right. right. left. reflexivity.
Defined.

(** ** Traffic segments *)

Section TrafficProperties.

(** A loop that pushes one element per iteration. *)
Lemma for_range_push (A : Type) (f : nat -> A) (lo hi : nat) (acc : list A) :
  JS.for_range lo hi (fun k out => out ++ [f k]) acc
  = acc ++ map f (seq lo (hi - lo)).
Proof.
  unfold JS.for_range. generalize (hi - lo)%nat as len. intros len.
  revert lo acc. induction len as [|len IH]; intros lo acc; simpl.
  - rewrite app_nil_r. reflexivity.
  - rewrite IH, <- app_assoc. reflexivity.
Qed.

Lemma fold_visitors_from (nearby : list Business) :
  forall acc : Q,
    fold_left (fun a b => a + JS.or_zero (activeVisitors b)) nearby acc
    == acc + sumVisitors nearby.
Proof.
  unfold sumVisitors.
  induction nearby as [|b rest IH]; intros acc; simpl.
  - ring.
  - rewrite IH, (IH (0 + _)). ring.
Qed.

Lemma sumVisitors_cons (b : Business) (rest : list Business) :
  sumVisitors (b :: rest) == JS.or_zero (activeVisitors b) + sumVisitors rest.
Proof.
  unfold sumVisitors at 1. simpl. rewrite fold_visitors_from. ring.
Qed.

Lemma sumVisitors_corridorTotal (beside : Business -> bool)
  (businesses : list Business) :
  sumVisitors (filter (fun b => isOccupied b && beside b) businesses)
  == corridorTotal beside businesses.
Proof.
  induction businesses as [|b rest IH]; simpl.
  - reflexivity.
  - destruct (isOccupied b && beside b).
    + rewrite sumVisitors_cons, IH. reflexivity.
    + exact IH.
Qed.

Lemma verticalSegment_visitors (businesses : list Business) (c : nat) :
  visitors (verticalSegment businesses c)
  == corridorTotal (besideColumn c) businesses.
Proof. apply (sumVisitors_corridorTotal (besideColumn c)). Qed.

Lemma horizontalSegment_visitors (businesses : list Business) (r : nat) :
  visitors (horizontalSegment businesses r)
  == corridorTotal (besideRow r) businesses.
Proof. apply (sumVisitors_corridorTotal (besideRow r)). Qed.

(** The segments of traffic mode, in the order the loops push them. *)
Lemma trafficSegments_traffic (businesses : list Business) :
  trafficSegments businesses traffic
  = map (verticalSegment businesses) (seq 1 (GRID_COLS - 1))
    ++ map (horizontalSegment businesses) (seq 1 (GRID_COLS - 1)).
Proof.
  unfold trafficSegments. rewrite !for_range_push. reflexivity.
Qed.

(** C7.  Traffic mode produces one segment per internal corridor,
    [GRID_COLS - 1] vertical ones followed by [GRID_COLS - 1] horizontal
    ones; the segment of vertical corridor [c] (horizontal corridor [r])
    carries the sum of [activeVisitors] over the occupied businesses in
    column [c] or [c + 1] (row [r] or [r + 1]); and when the list is two
    occupied businesses with 30 and 25 visitors, both beside a corridor,
    that corridor's segment carries 55. *)
Theorem traffic_segment_per_corridor :
  forall (businesses : list Business) (k : nat),
    (1 <= k < GRID_COLS)%nat ->
    List.length (trafficSegments businesses traffic)
      = ((GRID_COLS - 1) + (GRID_COLS - 1))%nat /\
    (exists v : Segment,
        nth_error (trafficSegments businesses traffic) (k - 1) = Some v /\
        seg_id v = ("v-" ++ JS.nat_to_string k)%string /\
        orientation v = vertical /\
        visitors v == corridorTotal (besideColumn k) businesses) /\
    (exists h : Segment,
        nth_error (trafficSegments businesses traffic) (GRID_COLS - 1 + (k - 1))
          = Some h /\
        seg_id h = ("h-" ++ JS.nat_to_string k)%string /\
        orientation h = horizontal /\
        visitors h == corridorTotal (besideRow k) businesses) /\
    (forall b1 b2 : Business,
        businesses = [b1; b2] ->
        isOccupied b1 = true -> isOccupied b2 = true ->
        activeVisitors b1 = Some 30 -> activeVisitors b2 = Some 25 ->
        (besideColumn k b1 = true -> besideColumn k b2 = true ->
         forall v : Segment,
           nth_error (trafficSegments businesses traffic) (k - 1) = Some v ->
           visitors v == 55) /\
        (besideRow k b1 = true -> besideRow k b2 = true ->
         forall h : Segment,
           nth_error (trafficSegments businesses traffic) (GRID_COLS - 1 + (k - 1))
             = Some h ->
           visitors h == 55)).
Proof.
  intros businesses k Hk.
  rewrite trafficSegments_traffic.
  assert (Hcases : k = 1%nat \/ k = 2%nat) by (unfold GRID_COLS in Hk; lia).
  refine (conj _ (conj _ (conj _ _))).
  - reflexivity.
  - exists (verticalSegment businesses k).
    refine (conj _ (conj eq_refl (conj eq_refl _))).
    + destruct Hcases as [-> | ->]; reflexivity.
    + apply verticalSegment_visitors.
  - exists (horizontalSegment businesses k).
    refine (conj _ (conj eq_refl (conj eq_refl _))).
    + destruct Hcases as [-> | ->]; reflexivity.
    + apply horizontalSegment_visitors.
  - intros b1 b2 -> Ho1 Ho2 Hv1 Hv2. split; intros Hb1 Hb2 seg Hseg.
    + assert (Hv : seg = verticalSegment [b1; b2] k)
        by (destruct Hcases as [-> | ->]; simpl in Hseg; congruence).
      rewrite Hv, verticalSegment_visitors. simpl.
      rewrite Ho1, Ho2, Hb1, Hb2, Hv1, Hv2. reflexivity.
    + assert (Hh : seg = horizontalSegment [b1; b2] k)
        by (destruct Hcases as [-> | ->]; simpl in Hseg; congruence).
      rewrite Hh, horizontalSegment_visitors. simpl.
      rewrite Ho1, Ho2, Hb1, Hb2, Hv1, Hv2. reflexivity.
Qed.

Lemma traffic_segment_per_corridor_witness :
  (exists v : Segment,
      nth_error (trafficSegments busyPair traffic) 0 = Some v /\
      seg_id v = "v-1"%string /\
      orientation v = vertical /\
      visitors v == corridorTotal (besideColumn 1) busyPair) /\
  visitors (verticalSegment busyPair 1) == 55.
Proof.
  assert (Hk : (1 <= 1 < GRID_COLS)%nat) by (unfold GRID_COLS; lia).
  destruct (traffic_segment_per_corridor busyPair Hk) as (_ & Hv & _ & Hpair).
  split.
  - exact Hv.
  - destruct (Hpair _ _ eq_refl eq_refl eq_refl eq_refl eq_refl) as [Hc _].
    apply Hc; reflexivity.
Defined.

End TrafficProperties.

(** ** Networking connections *)

Section NetworkingProperties.

Context {strings : JS.StringMethods}.

Local Open Scope nat_scope.

(** *** Loops that only push *)

Lemma for_range_flat (A : Type) (body : nat -> list A -> list A)
  (g : nat -> list A) :
  (forall k acc, body k acc = acc ++ g k) ->
  forall lo hi acc,
    JS.for_range lo hi body acc = acc ++ flat_map g (seq lo (hi - lo)).
Proof.
  intros Hbody lo hi. unfold JS.for_range.
  generalize (hi - lo) as len. intros len. revert lo.
  induction len as [|len IH]; intros lo acc; simpl.
  - rewrite app_nil_r. reflexivity.
  - rewrite IH, Hbody, <- app_assoc. reflexivity.
Qed.

Lemma filter_flat_map (A B : Type) (p : B -> bool) (g : A -> list B) (l : list A) :
  filter p (flat_map g l) = flat_map (fun x => filter p (g x)) l.
Proof.
  induction l as [|x l IH]; simpl; [reflexivity|].
  rewrite filter_app, IH. reflexivity.
Qed.

Lemma flat_map_all_nil (A B : Type) (h : A -> list B) (l : list A) :
  (forall y, In y l -> h y = []) -> flat_map h l = [].
Proof.
  induction l as [|x l IH]; intros H; simpl; [reflexivity|].
  rewrite (H x) by (left; reflexivity). apply IH.
  intros y Hy. apply H. right. exact Hy.
Qed.

(** Only one index contributes. *)
Lemma flat_map_single (A B : Type) (h : A -> list B) (l : list A) (x : A) :
  NoDup l -> In x l ->
  (forall y, In y l -> y <> x -> h y = []) ->
  flat_map h l = h x.
Proof.
  induction l as [|a l IH]; intros Hnd Hin Hother; [contradiction|].
  inversion Hnd as [|a' l' Hnotin Hnd']; subst. simpl.
  destruct Hin as [->|Hin].
  - rewrite flat_map_all_nil; [apply app_nil_r|].
    intros y Hy. apply Hother; [right; exact Hy|].
    intros ->. contradiction.
  - rewrite (Hother a); [|left; reflexivity|intros ->; contradiction].
    simpl. apply IH; [exact Hnd' | exact Hin|].
    intros y Hy. apply Hother. right. exact Hy.
Qed.

(** *** The loops of [networkingConnections] *)

Lemma connectPair_push (occupied : list Business) (i j : nat)
  (connections : list Connection) :
  connectPair occupied i j connections = connections ++ edgeAt occupied i j.
Proof.
  unfold edgeAt, connectPair.
  destruct (nth_error occupied i) as [b1|]; [|symmetry; apply app_nil_r].
  destruct (nth_error occupied j) as [b2|]; [|symmetry; apply app_nil_r].
  destruct (connectionType b1 b2); [reflexivity | symmetry; apply app_nil_r].
Qed.

Lemma edgeAt_value (occupied : list Business) (i j : nat) (b1 b2 : Business) :
  nth_error occupied i = Some b1 ->
  nth_error occupied j = Some b2 ->
  edgeAt occupied i j
  = match connectionType b1 b2 with
    | Some type => [connectionOf b1 b2 type]
    | None => []
    end.
Proof.
  intros H1 H2. unfold edgeAt, connectPair. rewrite H1, H2.
  destruct (connectionType b1 b2); reflexivity.
Qed.

Lemma networkingConnections_networking (businesses : list Business) :
  networkingConnections businesses networking
  = flat_map (rowEdges (filter isOccupied businesses))
             (seq 0 (List.length (filter isOccupied businesses))).
Proof.
  unfold networkingConnections.
  set (occupied := filter isOccupied businesses).
  rewrite (for_range_flat _ (rowEdges occupied)).
  - rewrite Nat.sub_0_r. reflexivity.
  - intros i acc. apply for_range_flat. intros j acc'. apply connectPair_push.
Qed.

(** *** The connections between two given businesses *)

(** The connections between two businesses are picked out by [linkedBy], the
    test by which [getNetworkStatus] finds the connection of two ids. *)

Lemma linkedBy_own_connection (b1 b2 : Business) (type : EdgeType) :
  linkedBy (business_id b1) (business_id b2) (connectionOf b1 b2 type) = true.
Proof.
  unfold linkedBy, JS.array_includes. simpl.
  rewrite !String.eqb_refl, orb_true_r. reflexivity.
Qed.

Lemma linkedBy_connectionOf (a b : string) (x y : Business) (type : EdgeType) :
  linkedBy a b (connectionOf x y type) = true ->
  (a = business_id x \/ a = business_id y) /\
  (b = business_id x \/ b = business_id y).
Proof.
  unfold linkedBy, JS.array_includes. simpl. rewrite !orb_false_r.
  intros H. apply andb_prop in H. destruct H as [Ha Hb].
  apply orb_prop in Ha. apply orb_prop in Hb.
  split.
  - destruct Ha as [Ha|Ha]; apply String.eqb_eq in Ha; auto.
  - destruct Hb as [Hb|Hb]; apply String.eqb_eq in Hb; auto.
Qed.

(** With unique ids, an id determines the position in the list. *)
Lemma position_of_id (l : list Business) (i j : nat) (x y : Business) :
  NoDup (map business_id l) ->
  nth_error l i = Some x ->
  nth_error l j = Some y ->
  business_id x = business_id y ->
  i = j.
Proof.
  intros Hnd Hi Hj Hid.
  apply (proj1 (NoDup_nth_error (map business_id l)) Hnd).
  - rewrite length_map. apply nth_error_Some. rewrite Hi. discriminate.
  - rewrite (map_nth_error business_id i l Hi),
            (map_nth_error business_id j l Hj), Hid.
    reflexivity.
Qed.

Section Pair.

Variable occupied : list Business.
Variables i j : nat.
Variables b1 b2 : Business.
Hypothesis unique_ids : NoDup (map business_id occupied).
Hypothesis i_before_j : i < j.
Hypothesis at_i : nth_error occupied i = Some b1.
Hypothesis at_j : nth_error occupied j = Some b2.

Let linked := linkedBy (business_id b1) (business_id b2).

(** No other pair of positions pushes a connection between [b1] and
    [b2]. *)
Lemma other_pairs_unlinked (i' j' : nat) :
  i' < j' -> (i' <> i \/ j' <> j) ->
  filter linked (edgeAt occupied i' j') = [].
Proof.
  intros Hlt Hother. unfold edgeAt, connectPair.
  destruct (nth_error occupied i') as [x|] eqn:Hx; [|reflexivity].
  destruct (nth_error occupied j') as [y|] eqn:Hy; [|reflexivity].
  destruct (connectionType x y) as [type|]; [|reflexivity].
  simpl. destruct (linked (connectionOf x y type)) eqn:E; [|reflexivity].
  exfalso. apply linkedBy_connectionOf in E. destruct E as [E1 E2].
  assert (P1 : i = i' \/ i = j').
  { destruct E1 as [E|E]; [left|right];
      eapply position_of_id; eauto. }
  assert (P2 : j = i' \/ j = j').
  { destruct E2 as [E|E]; [left|right];
      eapply position_of_id; eauto. }
  lia.
Qed.

Lemma other_rows_unlinked (i' : nat) :
  i' <> i -> filter linked (rowEdges occupied i') = [].
Proof.
  intros Hne. unfold rowEdges. rewrite filter_flat_map.
  apply flat_map_all_nil. intros j' Hj'. apply in_seq in Hj'.
  apply other_pairs_unlinked; [lia | left; exact Hne].
Qed.

Lemma own_row_linked :
  filter linked (rowEdges occupied i) = filter linked (edgeAt occupied i j).
Proof.
  assert (Hjn : j < List.length occupied)
    by (apply nth_error_Some; rewrite at_j; discriminate).
  unfold rowEdges. rewrite filter_flat_map.
  apply (flat_map_single (fun j' => filter linked (edgeAt occupied i j'))).
  - apply seq_NoDup.
  - apply in_seq. lia.
  - intros j' Hj' Hne. apply in_seq in Hj'.
    apply other_pairs_unlinked; [lia | right; exact Hne].
Qed.

(** The connections between [b1] and [b2] in the whole result are what the
    pair [(i, j)] pushed. *)
Lemma linked_connections (businesses : list Business) :
  filter isOccupied businesses = occupied ->
  filter linked (networkingConnections businesses networking)
  = match connectionType b1 b2 with
    | Some type => [connectionOf b1 b2 type]
    | None => []
    end.
Proof.
  intros Hocc.
  assert (Hin : i < List.length occupied)
    by (apply nth_error_Some; rewrite at_i; discriminate).
  rewrite networkingConnections_networking, Hocc, filter_flat_map.
  rewrite (flat_map_single (fun i' => filter linked (rowEdges occupied i'))
             (x := i)).
  - rewrite own_row_linked, (edgeAt_value _ _ _ at_i at_j).
    destruct (connectionType b1 b2) as [type|]; [|reflexivity].
    simpl. unfold linked. rewrite linkedBy_own_connection. reflexivity.
  - apply seq_NoDup.
  - apply in_seq. lia.
  - intros i' _ Hne. apply other_rows_unlinked. exact Hne.
Qed.

End Pair.

(** *** Synergy in the words of the specification *)

(** [String.prefix sub s] holds exactly when [s] starts with [sub]. *)
Lemma prefix_starts (s sub : string) :
  String.prefix sub s = true <-> exists after : string, s = (sub ++ after)%string.
Proof.
  revert sub. induction s as [|c s IH]; intros [|d sub]; simpl.
  - split; [intros _; exists EmptyString; reflexivity | reflexivity].
  - split; [discriminate | intros [after H]; discriminate].
  - split; [intros _; exists (String c s); reflexivity | reflexivity].
  - destruct (ascii_dec d c) as [->|Hne].
    + rewrite IH. split; intros [after H]; exists after.
      * rewrite H. reflexivity.
      * injection H as H. exact H.
    + split; [discriminate|]. intros [after H]. injection H as Hc _.
      exfalso. apply Hne. symmetry. exact Hc.
Qed.

(** [s.includes(sub)] holds exactly when [sub] is a substring of [s]. *)
Lemma includes_contains (s sub : string) :
  JS.includes s sub = true <-> contains s sub.
Proof.
  unfold contains. induction s as [|c s IH].
  - cbn [JS.includes]. rewrite orb_false_r, prefix_starts. split.
    + intros [after H]. exists EmptyString, after. exact H.
    + intros (before & after & H). destruct before as [|b before].
      * exists after. exact H.
      * discriminate.
  - cbn [JS.includes]. rewrite orb_true_iff, prefix_starts, IH. split.
    + intros [[after H]|(before & after & H)].
      * exists EmptyString, after. exact H.
      * exists (String c before), after. rewrite H. reflexivity.
    + intros (before & after & H). destruct before as [|b before].
      * left. exists after. exact H.
      * right. injection H as _ H. exists before, after. exact H.
Qed.

Lemma truthy_opt_some (A : Type) (arr : option (list A)) (p : A -> option bool) :
  JS.truthy (JS.opt_some arr p) = true <->
  exists a : A, In a (listOf arr) /\ JS.truthy (p a) = true.
Proof.
  destruct arr as [xs|]; simpl.
  - destruct (existsb (fun a => JS.truthy (p a)) xs) eqn:E.
    + apply existsb_exists in E. split; [intros _; exact E | reflexivity].
    + split; [discriminate|]. intros H.
      apply existsb_exists in H. rewrite H in E. discriminate.
  - split; [discriminate | intros (a & Hin & _); contradiction].
Qed.

Lemma needsMeetOffers_spec (needer offerer : Business) :
  JS.truthy (needsMeetOffers needer offerer) = true <-> needMetBy needer offerer.
Proof.
  unfold needsMeetOffers, needMetBy. rewrite truthy_opt_some. split.
  - intros (need & Hneed & H). apply truthy_opt_some in H.
    destruct H as (offer & Hoffer & Hov).
    exists need, offer. refine (conj Hneed (conj Hoffer _)).
    unfold overlaps. rewrite <- !includes_contains. apply orb_prop.
    destruct (JS.includes (JS.toLowerCase offer) (JS.toLowerCase need)
              || JS.includes (JS.toLowerCase need) (JS.toLowerCase offer));
      [reflexivity | discriminate].
  - intros (need & offer & Hneed & Hoffer & Hov).
    exists need. split; [exact Hneed|].
    apply truthy_opt_some. exists offer. split; [exact Hoffer|].
    unfold overlaps in Hov. rewrite <- !includes_contains in Hov.
    destruct Hov as [Hov|Hov]; simpl; rewrite Hov;
      [reflexivity | rewrite orb_true_r; reflexivity].
Qed.

Lemma hasSynergy_spec (a b : Business) :
  JS.truthy (hasSynergy a b) = true <-> synergyBetween a b.
Proof.
  unfold hasSynergy, synergyBetween, JS.or_else.
  rewrite <- !needsMeetOffers_spec.
  destruct (JS.truthy (needsMeetOffers a b)) eqn:E.
  - rewrite E. split; [left; reflexivity | reflexivity].
  - split; [right; assumption | intros [H|H]; [discriminate | exact H]].
Qed.

Lemma connectionType_spec (a b : Business) :
  (synergyBetween a b -> connectionType a b = Some synergy) /\
  (~ synergyBetween a b -> category a = category b ->
     connectionType a b = Some industry) /\
  (~ synergyBetween a b -> category a <> category b ->
     connectionType a b = None).
Proof.
  unfold connectionType.
  destruct (JS.truthy (hasSynergy a b)) eqn:E.
  - apply hasSynergy_spec in E.
    refine (conj _ (conj _ _)).
    + intros _. reflexivity.
    + intros H. contradiction.
    + intros H. contradiction.
  - assert (Hno : ~ synergyBetween a b).
    { intros H. apply hasSynergy_spec in H. rewrite H in E. discriminate. }
    refine (conj _ (conj _ _)).
    + intros H. contradiction.
    + intros _ Hc. rewrite Hc, String.eqb_refl. reflexivity.
    + intros _ Hc. destruct (String.eqb_spec (category a) (category b));
        [contradiction | reflexivity].
Qed.

(** C3.  Take two occupied businesses [b1] and [b2], at positions [i < j]
    of the occupied list.  The derived list is the concatenation, over the
    pairs of positions, of what each pair pushes, and the pair [(i, j)]
    pushes at most one connection: of type [synergy] if a service one of the
    two needs overlaps, ignoring case, a service the other offers (in either
    role assignment), whether or not their categories are equal; otherwise
    of type [industry] if their categories are equal; otherwise none.  Two
    names overlap ignoring case when, lower-cased by the host, one is a
    substring of the other ([overlaps], [contains]); this holds for whatever
    lower-casing the host performs.  When ids are unique, the connections of
    the result that link [b1] and [b2] are exactly what that pair pushed, so
    there is at most one, in every mode. *)
Theorem one_connection_per_pair_synergy_first :
  forall (businesses : list Business) (i j : nat) (b1 b2 : Business),
    i < j ->
    nth_error (filter isOccupied businesses) i = Some b1 ->
    nth_error (filter isOccupied businesses) j = Some b2 ->
    networkingConnections businesses networking
    = flat_map (rowEdges (filter isOccupied businesses))
               (seq 0 (List.length (filter isOccupied businesses))) /\
    List.length (edgeAt (filter isOccupied businesses) i j) <= 1 /\
    (synergyBetween b1 b2 ->
       edgeAt (filter isOccupied businesses) i j = [connectionOf b1 b2 synergy]) /\
    (~ synergyBetween b1 b2 -> category b1 = category b2 ->
       edgeAt (filter isOccupied businesses) i j = [connectionOf b1 b2 industry]) /\
    (~ synergyBetween b1 b2 -> category b1 <> category b2 ->
       edgeAt (filter isOccupied businesses) i j = []) /\
    (NoDup (map business_id (filter isOccupied businesses)) ->
       filter (linkedBy (business_id b1) (business_id b2))
              (networkingConnections businesses networking)
       = edgeAt (filter isOccupied businesses) i j /\
       forall mode : MapMode,
         List.length
           (filter (linkedBy (business_id b1) (business_id b2))
                   (networkingConnections businesses mode)) <= 1).
Proof.
  intros businesses i j b1 b2 Hij Hi Hj.
  pose proof (edgeAt_value _ _ _ Hi Hj) as Hpushed.
  destruct (connectionType_spec b1 b2) as (Hsyn & Hind & Hnone).
  assert (Hone : List.length (edgeAt (filter isOccupied businesses) i j) <= 1)
    by (rewrite Hpushed; destruct (connectionType b1 b2); simpl; lia).
  refine (conj _ (conj Hone (conj _ (conj _ (conj _ _))))).
  - apply networkingConnections_networking.
  - intros H. rewrite Hpushed, (Hsyn H). reflexivity.
  - intros H Hc. rewrite Hpushed, (Hind H Hc). reflexivity.
  - intros H Hc. rewrite Hpushed, (Hnone H Hc). reflexivity.
  - intros Hnd.
    pose proof (linked_connections Hnd Hij Hi Hj businesses eq_refl) as Hlinked.
    cbv zeta in Hlinked. rewrite <- Hpushed in Hlinked.
    split; [exact Hlinked|].
    intros mode. destruct mode; try (simpl; lia).
    rewrite Hlinked. exact Hone.
Qed.

End NetworkingProperties.

(** The example of the specification: the cafe needs "Marketing", the
    agency offers "marketing services", and both are in category FOOD. *)
Lemma one_connection_per_pair_synergy_first_witness :
  category cafe = category agency /\
  edgeAt (filter isOccupied district) 0 1 = [connectionOf cafe agency synergy] /\
  filter (linkedBy "b1" "b2") (networkingConnections district networking)
  = edgeAt (filter isOccupied district) 0 1.
Proof.
  split; [reflexivity|].
  assert (Hnd : NoDup (map business_id (filter isOccupied district))).
  { repeat (constructor; [simpl; intuition discriminate|]). constructor. }
  assert (Hij : (0 < 1)%nat) by constructor.
  assert (Hsyn : synergyBetween cafe agency).
  { left. exists "Marketing"%string, "marketing services"%string.
    split; [left; reflexivity|]. split; [left; reflexivity|].
    left. exists ""%string, " services"%string. reflexivity. }
  destruct (@one_connection_per_pair_synergy_first _ district 0 1 cafe agency
              Hij eq_refl eq_refl) as (_ & _ & H & _ & _ & Hlinked).
  split.
  - exact (H Hsyn).
  - exact (proj1 (Hlinked Hnd)).
Defined.

(* ================================================================== *)
(** * Further properties of the map *)
(* ================================================================== *)

(** ** Comparisons *)

Section Comparisons.

Lemma Qlt_bool_iff (a b : Q) : Qlt_bool a b = true <-> a < b.
Proof.
  unfold Qlt_bool. split.
  - intros H. apply Qnot_le_lt. intros Hle.
    apply Qle_bool_iff in Hle. rewrite Hle in H. discriminate.
  - intros H. destruct (Qle_bool b a) eqn:E; [|reflexivity].
    apply Qle_bool_iff in E. exfalso. apply (Qlt_not_le _ _ H E).
Qed.

Lemma Qlt_bool_false_iff (a b : Q) : Qlt_bool a b = false <-> b <= a.
Proof.
  unfold Qlt_bool. split.
  - intros H. apply Qle_bool_iff. destruct (Qle_bool b a); [reflexivity | discriminate].
  - intros H. apply Qle_bool_iff in H. rewrite H. reflexivity.
Qed.

Lemma div_by_50 (v : Q) : v / 50 == v * (1 # 50).
Proof. reflexivity. Qed.

(** [Math.min(v / 50, 1)] against a threshold below 1. *)
Lemma capped_share_above (v t : Q) :
  t < 1 -> (t < Qmin (v / 50) 1 <-> t * 50 < v).
Proof.
  intros Ht. rewrite div_by_50.
  destruct (Q.min_spec (v * (1 # 50)) 1) as [[Hlt Heq]|[Hle Heq]]; rewrite Heq;
    split; intros H; Lqa.lra.
Qed.

End Comparisons.

(** ** Level of detail *)

Section LodProperties.

(** The detail tiers in increasing order. *)
Definition Lod_rank (l : Lod) : nat :=
  match l with low => 0 | medium => 1 | high => 2 end.

Lemma currentLod_cases (v : ViewState) (mode : MapMode) :
  mode <> globe ->
  (zoom v < 0.65 /\ currentLod v mode = low) \/
  (0.65 <= zoom v /\ zoom v <= 1.25 /\ currentLod v mode = medium) \/
  (1.25 < zoom v /\ currentLod v mode = high).
Proof.
  intros Hmode. unfold currentLod.
  assert (Hg : MapMode_eqb mode globe = false)
    by (destruct mode; try reflexivity; contradiction).
  rewrite Hg, orb_false_r.
  destruct (Qlt_bool (zoom v) 0.65) eqn:E1.
  - left. split; [apply Qlt_bool_iff; exact E1 | reflexivity].
  - apply Qlt_bool_false_iff in E1.
    destruct (Qlt_bool 1.25 (zoom v)) eqn:E2.
    + right. right. split; [apply Qlt_bool_iff; exact E2 | reflexivity].
    + apply Qlt_bool_false_iff in E2. right. left. repeat split; assumption.
Qed.

(** X1.  The level of detail is [low] in globe mode whatever the zoom.  In
    every other mode it is [low] exactly below zoom 0.65, [high] exactly
    above 1.25 and [medium] in between, so it never decreases when the zoom
    grows. *)
Theorem currentLod_thresholds_and_monotone :
  forall (v w : ViewState) (mode : MapMode),
    currentLod v globe = low /\
    (mode <> globe ->
       (currentLod v mode = low <-> zoom v < 0.65) /\
       (currentLod v mode = high <-> 1.25 < zoom v) /\
       (currentLod v mode = medium <-> 0.65 <= zoom v <= 1.25)) /\
    (zoom v <= zoom w ->
       (Lod_rank (currentLod v mode) <= Lod_rank (currentLod w mode))%nat).
Proof.
  intros v w mode. refine (conj _ (conj _ _)).
  - unfold currentLod. simpl. rewrite orb_true_r. reflexivity.
  - intros Hmode.
    destruct (currentLod_cases v Hmode)
      as [[Hz E]|[(Hz1 & Hz2 & E)|[Hz E]]]; rewrite E;
      (refine (conj _ (conj _ _)); split; intros H;
       try reflexivity; try discriminate; try assumption;
       try (split; assumption); try (exfalso; Lqa.lra)).
  - intros Hle. destruct (MapMode_eqb mode globe) eqn:Eg.
    + destruct mode; try discriminate.
      unfold currentLod. simpl. rewrite !orb_true_r. simpl. lia.
    + assert (Hm : mode <> globe) by (intros ->; discriminate).
      destruct (currentLod_cases v Hm)
        as [[Hz E]|[(Hz1 & Hz2 & E)|[Hz E]]];
        destruct (currentLod_cases w Hm)
          as [[Hz' E']|[(Hz1' & Hz2' & E')|[Hz' E']]];
        rewrite E, E'; simpl; try lia; exfalso; Lqa.lra.
Qed.

Lemma currentLod_thresholds_and_monotone_witness :
  currentLod (mkView 0.5 55 45 0 0) standard = low /\
  currentLod (mkView 1.0 55 45 0 0) heatmap = medium /\
  currentLod (mkView 1.5 55 45 0 0) traffic = high /\
  (Lod_rank (currentLod (mkView 0.5 55 45 0 0) networking)
   <= Lod_rank (currentLod (mkView 1.5 55 45 0 0) networking))%nat.
Proof.
  assert (Hs : standard <> globe) by discriminate.
  assert (Hh : heatmap <> globe) by discriminate.
  assert (Ht : traffic <> globe) by discriminate.
  destruct (currentLod_thresholds_and_monotone
              (mkView 0.5 55 45 0 0) (mkView 1.5 55 45 0 0) standard)
    as (_ & H1 & _).
  destruct (currentLod_thresholds_and_monotone
              (mkView 1.0 55 45 0 0) (mkView 1.5 55 45 0 0) heatmap)
    as (_ & H2 & _).
  destruct (currentLod_thresholds_and_monotone
              (mkView 1.5 55 45 0 0) (mkView 1.5 55 45 0 0) traffic)
    as (_ & H3 & _).
  destruct (currentLod_thresholds_and_monotone
              (mkView 0.5 55 45 0 0) (mkView 1.5 55 45 0 0) networking)
    as (_ & _ & H4).
  refine (conj _ (conj _ (conj _ _))).
  - apply (proj1 (H1 Hs)). reflexivity.
  - apply (proj2 (proj2 (H2 Hh))). split; discriminate.
  - apply (proj1 (proj2 (H3 Ht))). reflexivity.
  - apply H4. discriminate.
Defined.

End LodProperties.

(** ** What a tile shows *)

Section BuildingBlockProperties.

(** The heat of a tile is the visitor count over 50, capped at 1. *)
Lemma heatmapIntensity_facts (business : Business) :
  let v := JS.or_zero (activeVisitors business) in
  let i := heatmapIntensity heatmap business in
  i <= 1 /\
  (0 <= v -> 0 <= i) /\
  (isOccupied business = true -> v <= 50 -> i == v * (1 # 50)) /\
  (isOccupied business = true -> 50 <= v -> i == 1) /\
  (isOccupied business = false -> i == 0).
Proof.
  cbv zeta. unfold heatmapIntensity. simpl MapMode_eqb. cbn [andb].
  destruct (isOccupied business).
  - rewrite div_by_50.
    destruct (Q.min_spec (JS.or_zero (activeVisitors business) * (1 # 50)) 1)
      as [[Hlt Heq]|[Hle Heq]]; rewrite Heq;
      (refine (conj _ (conj _ (conj _ (conj _ _)))); intros;
       try discriminate; try reflexivity; Lqa.lra).
  - refine (conj _ (conj _ (conj _ (conj _ _)))); intros;
      try discriminate; try reflexivity; Lqa.lra.
Qed.

Lemma heatmapHue_facts (i : Q) :
  0 <= heatmapHue i /\ (i <= 1 -> heatmapHue i == 240 - i * 240).
Proof.
  unfold heatmapHue. split.
  - apply Q.le_max_l.
  - intros H. apply Q.max_r. Lqa.lra.
Qed.

(** X2.  In heatmap mode the colour of a tile stays inside the blue-to-red
    ramp: for a non-negative visitor count the hue is in [[0, 240]], the
    saturation in [[60, 90]] and the lightness in [[55, 65]]; a vacant unit
    is at the cold end [(240, 60, 65)], an occupied one with 50 visitors or
    more at the hot end [(0, 90, 55)]; and of two occupied units the one
    with more visitors never has the larger hue. *)
Theorem heatmap_colour_stays_on_ramp :
  forall (b c : Business),
    0 <= JS.or_zero (activeVisitors b) ->
    (0 <= heatmapHue (heatmapIntensity heatmap b) <= 240 /\
     60 <= heatmapSat (heatmapIntensity heatmap b) <= 90 /\
     55 <= heatmapLight (heatmapIntensity heatmap b) <= 65) /\
    (isOccupied b = false ->
       heatmapHue (heatmapIntensity heatmap b) == 240 /\
       heatmapSat (heatmapIntensity heatmap b) == 60 /\
       heatmapLight (heatmapIntensity heatmap b) == 65) /\
    (isOccupied b = true -> 50 <= JS.or_zero (activeVisitors b) ->
       heatmapHue (heatmapIntensity heatmap b) == 0 /\
       heatmapSat (heatmapIntensity heatmap b) == 90 /\
       heatmapLight (heatmapIntensity heatmap b) == 55) /\
    (isOccupied b = true -> isOccupied c = true ->
     JS.or_zero (activeVisitors b) <= JS.or_zero (activeVisitors c) ->
       heatmapHue (heatmapIntensity heatmap c)
       <= heatmapHue (heatmapIntensity heatmap b)).
Proof.
  intros b c Hv.
  pose proof (heatmapIntensity_facts b) as Hb. cbv zeta in Hb.
  destruct Hb as (Hb1 & Hb0 & Hblow & Hbtop & Hbvac).
  specialize (Hb0 Hv).
  destruct (heatmapHue_facts (heatmapIntensity heatmap b)) as [Hh0 Hh].
  specialize (Hh Hb1).
  unfold heatmapSat, heatmapLight.
  refine (conj _ (conj _ (conj _ _))).
  - rewrite Hh. repeat split; Lqa.lra.
  - intros Hocc. rewrite Hh, (Hbvac Hocc). repeat split; reflexivity.
  - intros Hocc H50. rewrite Hh, (Hbtop Hocc H50). repeat split; reflexivity.
  - intros Hocc Hocc' Hle.
    pose proof (heatmapIntensity_facts c) as Hc. cbv zeta in Hc.
    destruct Hc as (Hc1 & Hc0 & Hclow & Hctop & _).
    destruct (heatmapHue_facts (heatmapIntensity heatmap c)) as [_ Hh'].
    rewrite Hh, (Hh' Hc1).
    assert (heatmapIntensity heatmap b <= heatmapIntensity heatmap c); [|Lqa.lra].
    destruct (Qlt_le_dec 50 (JS.or_zero (activeVisitors c))) as [Hbig|Hsmall].
    + rewrite (Hctop Hocc') by Lqa.lra. exact Hb1.
    + rewrite (Hclow Hocc' Hsmall), (Hblow Hocc) by Lqa.lra. Lqa.lra.
Qed.

Lemma heatmap_colour_stays_on_ramp_witness :
  (0 <= heatmapHue (heatmapIntensity heatmap cafe) <= 240 /\
   60 <= heatmapSat (heatmapIntensity heatmap cafe) <= 90 /\
   55 <= heatmapLight (heatmapIntensity heatmap cafe) <= 65) /\
  heatmapHue (heatmapIntensity heatmap vacant) == 240 /\
  heatmapHue (heatmapIntensity heatmap cafe)
  <= heatmapHue (heatmapIntensity heatmap agency).
Proof.
  assert (Hc : 0 <= JS.or_zero (activeVisitors cafe)) by discriminate.
  assert (Ha : 0 <= JS.or_zero (activeVisitors agency)) by discriminate.
  assert (Hv : 0 <= JS.or_zero (activeVisitors vacant)) by discriminate.
  destruct (heatmap_colour_stays_on_ramp cafe agency Hc) as (H1 & _).
  destruct (heatmap_colour_stays_on_ramp vacant cafe Hv) as (_ & H2 & _).
  destruct (heatmap_colour_stays_on_ramp agency cafe Ha) as (_ & _ & _ & H3).
  refine (conj H1 (conj _ _)).
  - apply (proj1 (H2 eq_refl)).
  - apply H3; [reflexivity | reflexivity | discriminate].
Defined.

(** X3.  When a tile pulses.  Never at the low level of detail, and never in
    standard or globe mode.  Otherwise: in heatmap mode exactly the occupied
    units with more than 35 visitors; in traffic mode exactly the units with
    more than 40 visitors, occupied or not; in networking mode exactly the
    tiles that are related to the focus. *)
Theorem showPulse_characterised :
  forall (lod : Lod) (business : Business) (isNetworkRelated : option bool),
    showPulse low heatmap business isNetworkRelated = false /\
    showPulse low traffic business isNetworkRelated = false /\
    showPulse low networking business isNetworkRelated = false /\
    showPulse lod standard business isNetworkRelated = false /\
    showPulse lod globe business isNetworkRelated = false /\
    (lod <> low ->
       (showPulse lod heatmap business isNetworkRelated = true <->
        isOccupied business = true /\ 35 < JS.or_zero (activeVisitors business)) /\
       (showPulse lod traffic business isNetworkRelated = true <->
        40 < JS.or_zero (activeVisitors business)) /\
       (showPulse lod networking business isNetworkRelated = true <->
        isNetworkRelated = Some true)).
Proof.
  intros lod business rel.
  refine (conj eq_refl (conj eq_refl (conj eq_refl (conj _ (conj _ _))))).
  - unfold showPulse. simpl. apply andb_false_r.
  - unfold showPulse. simpl. apply andb_false_r.
  - intros Hlod.
    assert (Hl : negb (Lod_eqb lod low) = true)
      by (destruct lod; try reflexivity; contradiction).
    unfold showPulse. rewrite Hl. simpl. rewrite !orb_false_r.
    refine (conj _ (conj _ _)).
    + rewrite Qlt_bool_iff. unfold heatmapIntensity. simpl MapMode_eqb. cbn [andb].
      destruct (isOccupied business).
      * rewrite capped_share_above by reflexivity.
        split; [intros H; split; [reflexivity | Lqa.lra] | intros [_ H]; Lqa.lra].
      * split; [intros H; exfalso; Lqa.lra | intros [H _]; discriminate].
    + apply Qlt_bool_iff.
    + destruct rel as [[|]|]; simpl; split; intros H;
        try reflexivity; discriminate.
Qed.

Lemma showPulse_characterised_witness :
  showPulse medium traffic cafe None = false /\
  showPulse high networking cafe (Some true) = true /\
  showPulse medium heatmap cafe None = false.
Proof.
  assert (Hm : medium <> low) by discriminate.
  assert (Hh : high <> low) by discriminate.
  destruct (showPulse_characterised medium cafe None) as (_ & _ & _ & _ & _ & Hmed).
  destruct (showPulse_characterised high cafe (Some true))
    as (_ & _ & _ & _ & _ & Hhigh).
  destruct (Hmed Hm) as (Hheat & Htraffic & _).
  destruct (Hhigh Hh) as (_ & _ & Hnet).
  refine (conj _ (conj _ _)).
  - destruct (showPulse medium traffic cafe None) eqn:E; [|reflexivity].
    exfalso. pose proof (proj1 Htraffic eq_refl) as H. revert H. discriminate.
  - apply Hnet. reflexivity.
  - destruct (showPulse medium heatmap cafe None) eqn:E; [|reflexivity].
    exfalso. pose proof (proj2 (proj1 Hheat eq_refl)) as H. revert H.
    discriminate.
Defined.

(** X4.  In traffic mode the banner class and the status dot of an occupied
    unit, both computed at every render, are chosen by the same thresholds
    and so always agree: rose above 40 visitors, amber above 20 and up to
    40, emerald up to 20; and off the low level of detail the tile pulses
    exactly in the rose case. *)
Theorem traffic_severity_is_consistent :
  forall (business : Business) (networkType : option EdgeType)
         (isFeatured : bool) (isNetworkRelated : option bool) (lod : Lod),
    isOccupied business = true ->
    lod <> low ->
    (40 < JS.or_zero (activeVisitors business) /\
     statusColor traffic business networkType = "bg-rose-600 shadow-glow"%string /\
     dotColor traffic business networkType isFeatured = "bg-rose-200"%string /\
     showPulse lod traffic business isNetworkRelated = true) \/
    (20 < JS.or_zero (activeVisitors business) <= 40 /\
     statusColor traffic business networkType = "bg-amber-500"%string /\
     dotColor traffic business networkType isFeatured = "bg-amber-200"%string /\
     showPulse lod traffic business isNetworkRelated = false) \/
    (JS.or_zero (activeVisitors business) <= 20 /\
     statusColor traffic business networkType = "bg-emerald-500"%string /\
     dotColor traffic business networkType isFeatured = "bg-emerald-200"%string /\
     showPulse lod traffic business isNetworkRelated = false).
Proof.
  intros business nt feat rel lod Hocc Hlod.
  assert (Hl : negb (Lod_eqb lod low) = true)
    by (destruct lod; try reflexivity; contradiction).
  unfold statusColor, dotColor, showPulse.
  rewrite Hocc, Hl. simpl MapMode_eqb. cbn [andb orb].
  rewrite !orb_false_r.
  destruct (Qlt_bool 40 (JS.or_zero (activeVisitors business))) eqn:E40.
  - left. apply Qlt_bool_iff in E40. repeat split; assumption.
  - apply Qlt_bool_false_iff in E40.
    destruct (Qlt_bool 20 (JS.or_zero (activeVisitors business))) eqn:E20.
    + right. left. apply Qlt_bool_iff in E20. repeat split; assumption.
    + right. right. apply Qlt_bool_false_iff in E20. repeat split; assumption.
Qed.

Lemma traffic_severity_is_consistent_witness :
  statusColor traffic cafe None = "bg-amber-500"%string /\
  dotColor traffic cafe None false = "bg-amber-200"%string /\
  showPulse high traffic cafe None = false.
Proof.
  assert (Hlod : high <> low) by discriminate.
  destruct (traffic_severity_is_consistent cafe None false None eq_refl Hlod)
    as [(H & _)|[(_ & Hs & Hd & Hp)|(H & _)]].
  - exfalso. revert H. discriminate.
  - exact (conj Hs (conj Hd Hp)).
  - exfalso. apply H. reflexivity.
Defined.

(** X5.  Globe mode shows bare tiles: with the level of detail the map
    computes for that mode, whatever the zoom, the hover, the selection and
    the business, a tile neither pulses nor lifts on hover nor shows its
    status banner. *)
Theorem globe_tiles_are_bare :
  forall (v : ViewState) (business : Business) (isHovered isSelected : bool)
         (isNetworkRelated : option bool),
    showPulse (currentLod v globe) globe business isNetworkRelated = false /\
    hoverLift isHovered (currentLod v globe) == 0 /\
    showBanner (currentLod v globe) isHovered isSelected globe business
               isNetworkRelated = false.
Proof.
  intros v business hov sel rel.
  assert (Hlod : currentLod v globe = low)
    by (unfold currentLod; simpl; rewrite orb_true_r; reflexivity).
  rewrite Hlod. refine (conj eq_refl (conj _ _)).
  - unfold hoverLift. destruct hov; reflexivity.
  - unfold showBanner. simpl. apply andb_false_r.
Qed.

(** X6.  A higher level of detail never shows less: the name and logo
    shown at one level are shown at every higher level, a tile that pulses
    at one level pulses at every higher level, and the hover lift does not
    shrink. *)
Theorem higher_detail_shows_no_less :
  forall (l1 l2 : Lod) (mode : MapMode) (business : Business)
         (isHovered isSelected : bool) (isNetworkRelated : option bool),
    (Lod_rank l1 <= Lod_rank l2)%nat ->
    (showContent l1 isHovered mode isNetworkRelated = true ->
     showContent l2 isHovered mode isNetworkRelated = true) /\
    (showBanner l1 isHovered isSelected mode business isNetworkRelated = true ->
     showBanner l2 isHovered isSelected mode business isNetworkRelated = true) /\
    (showPulse l1 mode business isNetworkRelated = true ->
     showPulse l2 mode business isNetworkRelated = true) /\
    hoverLift isHovered l1 <= hoverLift isHovered l2.
Proof.
  intros l1 l2 mode business hov sel rel Hrank.
  assert (Hcontent : showContent l1 hov mode rel = true ->
                     showContent l2 hov mode rel = true).
  { unfold showContent.
    destruct l1, l2; simpl in Hrank; try lia; simpl; auto.
    all: destruct hov; simpl; auto. }
  refine (conj Hcontent (conj _ (conj _ _))).
  - unfold showBanner. intros H.
    apply andb_prop in H. destruct H as [H Hg].
    apply andb_prop in H. destruct H as [H Ho].
    rewrite Hg, Ho, !andb_true_r.
    apply orb_prop in H. destruct H as [H|H].
    + rewrite (Hcontent H). reflexivity.
    + rewrite H. apply orb_true_r.
  - unfold showPulse.
    destruct l1, l2; simpl in Hrank; try lia; simpl;
      solve [intros H; exact H | discriminate].
  - unfold hoverLift. destruct hov; [|apply Qle_refl].
    destruct l1, l2; simpl in Hrank; try lia; simpl; discriminate.
Qed.

Lemma higher_detail_shows_no_less_witness :
  showContent high false networking (Some true) = true /\
  hoverLift true low <= hoverLift true medium.
Proof.
  assert (H1 : (Lod_rank low <= Lod_rank high)%nat) by (simpl; lia).
  assert (H2 : (Lod_rank low <= Lod_rank medium)%nat) by (simpl; lia).
  destruct (@higher_detail_shows_no_less low high networking cafe false false
              (Some true) H1) as (Hc & _).
  destruct (@higher_detail_shows_no_less low medium standard cafe true false
              None H2) as (_ & _ & _ & Hl).
  exact (conj (Hc eq_refl) Hl).
Defined.

End BuildingBlockProperties.

(** ** The traffic overlay *)

Section TrafficOverlayProperties.

(** X7.  The colour of a traffic segment follows its visitor aggregate: red
    exactly above 30, amber exactly above 15 and up to 30, green exactly up
    to 15. *)
Theorem segmentColor_thresholds :
  forall seg : Segment,
    (segmentColor seg = "#ef4444"%string <-> 30 < visitors seg) /\
    (segmentColor seg = "#f59e0b"%string <-> 15 < visitors seg <= 30) /\
    (segmentColor seg = "#10b981"%string <-> visitors seg <= 15).
Proof.
  intros seg. unfold segmentColor. cbv zeta.
  destruct (Qlt_bool 0.6 (Qmin (visitors seg / 50) 1)) eqn:E6.
  - apply Qlt_bool_iff in E6. apply capped_share_above in E6; [|reflexivity].
    refine (conj _ (conj _ _)); split; intros H;
      try reflexivity; try discriminate; try Lqa.lra; exfalso; Lqa.lra.
  - apply Qlt_bool_false_iff in E6.
    assert (H30 : visitors seg <= 30).
    { apply Qnot_lt_le. intros H.
      assert (H' : 0.6 * 50 < visitors seg) by Lqa.lra.
      apply (capped_share_above (visitors seg)) in H'; [|reflexivity].
      Lqa.lra. }
    destruct (Qlt_bool 0.3 (Qmin (visitors seg / 50) 1)) eqn:E3.
    + apply Qlt_bool_iff in E3. apply capped_share_above in E3; [|reflexivity].
      refine (conj _ (conj _ _)); split; intros H;
        try reflexivity; try discriminate; try Lqa.lra; exfalso; Lqa.lra.
    + apply Qlt_bool_false_iff in E3.
      assert (H15 : visitors seg <= 15).
      { apply Qnot_lt_le. intros H.
        assert (H' : 0.3 * 50 < visitors seg) by Lqa.lra.
        apply (capped_share_above (visitors seg)) in H'; [|reflexivity].
        Lqa.lra. }
      refine (conj _ (conj _ _)); split; intros H;
        try reflexivity; try discriminate; try Lqa.lra; exfalso; Lqa.lra.
Qed.

End TrafficOverlayProperties.

(** ** The camera over whole sessions *)

Section SessionProperties.

Context {strings : JS.StringMethods}.

Variable hypot : Q -> Q -> Q.
Variable JSON_parse : string -> ParseOutcome.
Variable businesses : list Business.
Variable language : string.

Local Abbreviation step := (step hypot JSON_parse businesses language).
Local Abbreviation run := (run hypot JSON_parse businesses language).

(** What one event can do to the mode and the camera. *)
Inductive CameraChange (s s' : State) : Prop :=
| CameraKept :
    mapMode s' = mapMode s -> interactionMode s' = interactionMode s ->
    viewState s' = viewState s -> CameraChange s s'
| CameraNavigated (dx dy : Q) :
    mapMode s' = mapMode s -> interactionMode s' = interactionMode s ->
    viewState s' = navigate (mapMode s) (interactionMode s) dx dy (viewState s) ->
    CameraChange s s'
| CameraZoomed (delta zoomSpeed : Q) :
    mapMode s' = mapMode s -> interactionMode s' = interactionMode s ->
    viewState s' = zoomBy delta zoomSpeed (viewState s) -> CameraChange s s'
| CameraZoomedIn :
    mapMode s' = mapMode s -> interactionMode s' = interactionMode s ->
    viewState s' = zoomIn (viewState s) -> CameraChange s s'
| CameraZoomedOut :
    mapMode s' = mapMode s -> interactionMode s' = interactionMode s ->
    viewState s' = zoomOut (viewState s) -> CameraChange s s'
| ModeSwitched (mode : MapMode) :
    mode <> mapMode s -> s' = mapModeEffect (setMapMode mode s) ->
    CameraChange s s'
| InteractionToggled :
    mapMode s <> globe -> mapMode s' = mapMode s ->
    viewState s' = viewState s -> CameraChange s s'.

Lemma step_CameraChange (s : State) (e : Event) : CameraChange s (step s e).
Proof.
  destruct e; cbn [OfficeMap.step];
    try (apply CameraKept; reflexivity).
  - unfold handleAISearch_start.
    destruct (JS.truthy_string (JS.trim (searchQuery s)));
      apply CameraKept; reflexivity.
  - destruct (searchBusinessesWithAI JSON_parse (searchQuery s) businesses
                language reply); apply CameraKept; reflexivity.
  - destruct settled; apply CameraKept; reflexivity.
  - unfold clickMapMode. destruct (MapMode_eqb mode (mapMode s)) eqn:E.
    + apply CameraKept; reflexivity.
    + apply (@ModeSwitched s _ mode); [|reflexivity].
      intros ->. destruct (mapMode s); discriminate.
  - destruct (mapMode s) eqn:E;
      try (apply InteractionToggled; [rewrite E; discriminate | | ];
           cbn [mapMode viewState setInteractionMode]; congruence).
    apply CameraKept; reflexivity.
  - apply CameraZoomedIn; reflexivity.
  - apply CameraZoomedOut; reflexivity.
  - unfold handleMouseDown. destruct onControl; apply CameraKept; reflexivity.
  - unfold handleMouseMove.
    destruct (isDragging s); [|apply CameraKept; reflexivity].
    destruct (lastMousePos s) as [last|]; [|apply CameraKept; reflexivity].
    apply (@CameraNavigated s _ (clientX - px last) (clientY - py last));
      reflexivity.
  - apply (@CameraZoomed s _ (- deltaY) 0.0015); reflexivity.
  - unfold handleTouchStart. destruct onControl; [apply CameraKept; reflexivity|].
    destruct touches as [|t0 [|t1 [|t2 ts]]]; apply CameraKept; reflexivity.
  - unfold handleTouchMove.
    destruct (isDragging s); [|apply CameraKept; reflexivity]. cbn [negb].
    destruct touches as [|t0 [|t1 [|t2 ts]]]; try (apply CameraKept; reflexivity).
    + destruct (lastTouchPos s) as [last|]; [|apply CameraKept; reflexivity].
      apply (@CameraNavigated s _ (px t0 - px last) (py t0 - py last));
        reflexivity.
    + destruct (lastTouchDist s) as [d|]; [|apply CameraKept; reflexivity].
      destruct (JS.truthy_number (Some d)); [|apply CameraKept; reflexivity].
      apply (@CameraZoomed s _
               (hypot (px t0 - px t1) (py t0 - py t1) - d) 0.005); reflexivity.
Qed.

(** A property kept by every event is kept by every run. *)
Lemma run_keeps (P : State -> Prop) :
  (forall s e, P s -> P (step s e)) ->
  forall events s, P s -> P (run s events).
Proof.
  intros Hstep events. induction events as [|e es IH]; intros s H; simpl.
  - exact H.
  - apply IH. apply Hstep. exact H.
Qed.

Lemma navigate_keeps_zoom (mode : MapMode) (imode : InteractionMode)
  (dx dy : Q) (v : ViewState) :
  zoom (navigate mode imode dx dy v) = zoom v.
Proof. destruct mode, imode; reflexivity. Qed.

Lemma mapModeEffect_result (mode : MapMode) (s : State) :
  mapMode (mapModeEffect (setMapMode mode s)) = mode /\
  ((mode = globe /\
    viewState (mapModeEffect (setMapMode mode s)) = mkView 0.9 0 0 0 0 /\
    interactionMode (mapModeEffect (setMapMode mode s)) = rotate) \/
   (mode <> globe /\
    viewState (mapModeEffect (setMapMode mode s)) = mkView 0.8 55 45 0 0 /\
    interactionMode (mapModeEffect (setMapMode mode s)) = pan)).
Proof.
  destruct mode; (split; [reflexivity|]);
    solve [left; repeat split | right; repeat split; discriminate].
Qed.

(** X8.  The zoom never leaves [[0.4, 2.5]]: from a state whose zoom is in
    that range, no sequence of events (wheel, pinch, the two zoom buttons,
    drags, mode switches, searches, ...) takes it out. *)
Theorem zoom_stays_in_range :
  forall (s : State) (events : list Event),
    0.4 <= zoom (viewState s) <= 2.5 ->
    0.4 <= zoom (viewState (run s events)) <= 2.5.
Proof.
  intros s events. revert s.
  apply (run_keeps (fun s => 0.4 <= zoom (viewState s) <= 2.5)).
  intros s e [Hlo Hhi].
  destruct (step_CameraChange s e)
    as [_ _ Hv | dx dy _ _ Hv | d sp _ _ Hv | _ _ Hv | _ _ Hv | mode _ Hs | _ _ Hv].
  - rewrite Hv. split; assumption.
  - rewrite Hv, navigate_keeps_zoom. split; assumption.
  - rewrite Hv. cbn [zoom zoomBy]. apply clamp_between. discriminate.
  - rewrite Hv. cbn [zoom zoomIn]. split.
    + apply Q.min_glb; [discriminate | Lqa.lra].
    + apply Q.le_min_l.
  - rewrite Hv. cbn [zoom zoomOut]. split.
    + apply Q.le_max_l.
    + apply Q.max_lub; [discriminate | Lqa.lra].
  - rewrite Hs.
    destruct (mapModeEffect_result mode s) as [_ [(_ & Hv & _)|(_ & Hv & _)]];
      rewrite Hv; split; discriminate.
  - rewrite Hv. split; assumption.
Qed.

(** X9.  Outside globe mode the tilt never leaves [[0, 85]]: if a state is
    in globe mode or has [rotateX] in that range, then after any sequence
    of events the state is in globe mode or has [rotateX] in that range.
    (In globe mode the drag is unclamped; leaving globe mode resets the
    camera.) *)
Theorem rotateX_bounded_outside_globe :
  forall (s : State) (events : list Event),
    (mapMode s = globe \/ 0 <= rotateX (viewState s) <= 85) ->
    mapMode (run s events) = globe \/
    0 <= rotateX (viewState (run s events)) <= 85.
Proof.
  intros s events. revert s.
  apply (run_keeps
           (fun s => mapMode s = globe \/ 0 <= rotateX (viewState s) <= 85)).
  intros s e H.
  destruct (step_CameraChange s e)
    as [Hm _ Hv | dx dy Hm _ Hv | d sp Hm _ Hv | Hm _ Hv | Hm _ Hv
        | mode _ Hs | _ Hm Hv];
    try (rewrite Hm, Hv; exact H).
  - rewrite Hm, Hv. destruct H as [H|H]; [left; exact H|].
    destruct (mapMode s); try (left; reflexivity); right;
      destruct (interactionMode s); cbn [navigate rotateX];
        solve [exact H | apply clamp_between; discriminate].
  - rewrite Hs.
    destruct (mapModeEffect_result mode s) as [Hmode [(Hg & _)|(_ & Hv & _)]].
    + left. rewrite Hmode. exact Hg.
    + right. rewrite Hv. split; discriminate.
Qed.

(** X10.  Globe mode always rotates: if a state is not in globe mode, or
    is in interaction mode [rotate], then after any sequence of events a
    state in globe mode is in interaction mode [rotate]: the mode effect
    sets it and the toggle button is not rendered there. *)
Theorem globe_mode_always_rotates :
  forall (s : State) (events : list Event),
    (mapMode s = globe -> interactionMode s = rotate) ->
    mapMode (run s events) = globe ->
    interactionMode (run s events) = rotate.
Proof.
  intros s events. revert s.
  apply (run_keeps (fun s => mapMode s = globe -> interactionMode s = rotate)).
  intros s e H.
  destruct (step_CameraChange s e)
    as [Hm Hi _ | dx dy Hm Hi _ | d sp Hm Hi _ | Hm Hi _ | Hm Hi _
        | mode _ Hs | Hng Hm _];
    try (rewrite Hm, Hi; exact H).
  - rewrite Hs.
    destruct (mapModeEffect_result mode s)
      as [Hmode [(_ & _ & Hi)|(Hng & _ & _)]]; rewrite Hmode; intros Hg.
    + exact Hi.
    + contradiction.
  - rewrite Hm. intros Hg. contradiction.
Qed.

End SessionProperties.

(** A session on the sample district: the user zooms, drags, pinches,
    searches and visits the globe. *)
Definition sampleSession : list Event :=
  [ Wheel (-4000); ClickZoomIn; ClickToggleInteraction;
    MouseDown false 10 10; MouseMove 400 (-900); MouseUp;
    ClickMapMode globe; ClickToggleInteraction;
    MouseDown false 0 0; MouseMove 30 700; MouseLeave;
    TouchStart false [mkPoint 0 0; mkPoint 3 4];
    TouchMove [mkPoint 0 0; mkPoint 0 1]; TouchEnd;
    ClickZoomOut; ClickZoomOut; ChangeSearchQuery "cafe"; ClickAISearch;
    AISearchSettles RequestFails; ClickMapMode traffic; Wheel 9000 ].

Lemma zoom_stays_in_range_witness :
  0.4 <= zoom (viewState
                 (run hypot_floor parse_sample district "en"
                      initialState sampleSession)) <= 2.5.
Proof.
  apply (zoom_stays_in_range hypot_floor parse_sample district "en"
           initialState sampleSession).
  split; discriminate.
Defined.

Lemma rotateX_bounded_outside_globe_witness :
  mapMode (run hypot_floor parse_sample district "en"
               initialState sampleSession) = globe \/
  0 <= rotateX (viewState
                  (run hypot_floor parse_sample district "en"
                       initialState sampleSession)) <= 85.
Proof.
  apply (rotateX_bounded_outside_globe hypot_floor parse_sample district "en"
           initialState sampleSession).
  right. split; discriminate.
Defined.

Lemma globe_mode_always_rotates_witness :
  interactionMode
    (run hypot_floor parse_sample district "en" initialState
         [ClickToggleInteraction; ClickMapMode globe; ClickToggleInteraction;
          MouseDown false 0 0; MouseMove 5 5])
  = rotate.
Proof.
  apply (globe_mode_always_rotates hypot_floor parse_sample district "en"
           initialState).
  - discriminate.
  - reflexivity.
Defined.

(** ** Zoom buttons *)

Section ZoomButtonProperties.

(** [n] presses of a button. *)
Definition presses (button : ViewState -> ViewState) (n : nat)
  (v : ViewState) : ViewState :=
  Nat.iter n button v.

Lemma num_succ (n : nat) : JS.num (S n) == JS.num n + 1.
Proof.
  unfold JS.num. rewrite Nat2Z.inj_succ. unfold Z.succ.
  rewrite inject_Z_plus. reflexivity.
Qed.

(** [n] presses of [+] raise the zoom by [n] tenths, unless the bound is
    met first. *)
Lemma zoomIn_presses (n : nat) (v : ViewState) :
  Qmin 2.5 (zoom v + JS.num n * 0.1) <= zoom (presses zoomIn n v).
Proof.
  induction n as [|n IH].
  - cbn [presses Nat.iter nat_rect]. unfold JS.num. simpl inject_Z.
    destruct (Q.min_spec 2.5 (zoom v + 0 * 0.1)) as [[? ->]|[? ->]]; Lqa.lra.
  - unfold presses in *. cbn [Nat.iter nat_rect] in *.
    fold (Nat.iter n zoomIn v) in *. cbn [zoom zoomIn].
    rewrite num_succ.
    destruct (Q.min_spec 2.5 (zoom v + JS.num n * 0.1)) as [[? E]|[? E]];
      rewrite E in IH;
      destruct (Q.min_spec 2.5 (zoom v + (JS.num n + 1) * 0.1))
        as [[? ->]|[? ->]];
      destruct (Q.min_spec 2.5 (zoom (Nat.iter n zoomIn v) + 0.1))
        as [[? ->]|[? ->]];
      Lqa.lra.
Qed.

Lemma zoomOut_presses (n : nat) (v : ViewState) :
  zoom (presses zoomOut n v) <= Qmax 0.4 (zoom v - JS.num n * 0.1).
Proof.
  induction n as [|n IH].
  - cbn [presses Nat.iter nat_rect]. unfold JS.num. simpl inject_Z.
    destruct (Q.max_spec 0.4 (zoom v - 0 * 0.1)) as [[? ->]|[? ->]]; Lqa.lra.
  - unfold presses in *. cbn [Nat.iter nat_rect] in *.
    fold (Nat.iter n zoomOut v) in *. cbn [zoom zoomOut].
    rewrite num_succ.
    destruct (Q.max_spec 0.4 (zoom v - JS.num n * 0.1)) as [[? E]|[? E]];
      rewrite E in IH;
      destruct (Q.max_spec 0.4 (zoom v - (JS.num n + 1) * 0.1))
        as [[? ->]|[? ->]];
      destruct (Q.max_spec 0.4 (zoom (Nat.iter n zoomOut v) - 0.1))
        as [[? ->]|[? ->]];
      Lqa.lra.
Qed.

(** X11.  The zoom buttons move the zoom one way and stop at the bounds.
    [+] never takes the zoom above 2.5 and never lowers a zoom that is at
    most 2.5; [-] never takes it below 0.4 and never raises a zoom that is
    at least 0.4.  At the bound the button leaves the zoom on the bound.
    From any zoom in range, 22 presses of one button reach its bound (one
    press more than the 21 tenths between the bounds).  Neither button
    touches rotation or pan. *)
Theorem zoom_buttons_saturate :
  forall v : ViewState,
    zoom (zoomIn v) <= 2.5 /\
    0.4 <= zoom (zoomOut v) /\
    (zoom v <= 2.5 -> zoom v <= zoom (zoomIn v)) /\
    (0.4 <= zoom v -> zoom (zoomOut v) <= zoom v) /\
    (2.5 <= zoom v -> zoom (zoomIn v) == 2.5) /\
    (zoom v <= 0.4 -> zoom (zoomOut v) == 0.4) /\
    (0.4 <= zoom v -> zoom (presses zoomIn 22 v) == 2.5) /\
    (zoom v <= 2.5 -> zoom (presses zoomOut 22 v) == 0.4) /\
    (rotateX (zoomIn v), rotateZ (zoomIn v), panX (zoomIn v), panY (zoomIn v))
      = (rotateX v, rotateZ v, panX v, panY v) /\
    (rotateX (zoomOut v), rotateZ (zoomOut v), panX (zoomOut v), panY (zoomOut v))
      = (rotateX v, rotateZ v, panX v, panY v).
Proof.
  intros v.
  refine (conj _ (conj _ (conj _ (conj _ (conj _ (conj _
            (conj _ (conj _ (conj eq_refl eq_refl))))))))).
  - cbn [zoom zoomIn]. apply Q.le_min_l.
  - cbn [zoom zoomOut]. apply Q.le_max_l.
  - intros H. cbn [zoom zoomIn].
    destruct (Q.min_spec 2.5 (zoom v + 0.1)) as [[_ ->]|[_ ->]]; Lqa.lra.
  - intros H. cbn [zoom zoomOut].
    destruct (Q.max_spec 0.4 (zoom v - 0.1)) as [[_ ->]|[_ ->]]; Lqa.lra.
  - intros H. cbn [zoom zoomIn]. apply Q.min_l. Lqa.lra.
  - intros H. cbn [zoom zoomOut]. apply Q.max_l. Lqa.lra.
  - intros H. apply Qle_antisym.
    + change (presses zoomIn 22 v) with (zoomIn (presses zoomIn 21 v)).
      cbn [zoom zoomIn]. apply Q.le_min_l.
    + pose proof (zoomIn_presses 22 v) as Hn.
      assert (E : JS.num 22 == 22) by reflexivity. rewrite E in Hn.
      rewrite Q.min_l in Hn by Lqa.lra. exact Hn.
  - intros H. apply Qle_antisym.
    + pose proof (zoomOut_presses 22 v) as Hn.
      assert (E : JS.num 22 == 22) by reflexivity. rewrite E in Hn.
      rewrite Q.max_l in Hn by Lqa.lra. exact Hn.
    + change (presses zoomOut 22 v) with (zoomOut (presses zoomOut 21 v)).
      cbn [zoom zoomOut]. apply Q.le_max_l.
Qed.

Lemma zoom_buttons_saturate_witness :
  zoom sampleView <= zoom (zoomIn sampleView) /\
  zoom (presses zoomIn 22 sampleView) == 2.5 /\
  zoom (presses zoomOut 22 sampleView) == 0.4.
Proof.
  destruct (zoom_buttons_saturate sampleView)
    as (_ & _ & H1 & _ & _ & _ & H2 & H3 & _).
  refine (conj _ (conj _ _)).
  - apply H1. discriminate.
  - apply H2. discriminate.
  - apply H3. discriminate.
Defined.

End ZoomButtonProperties.

(** ** Mouse gestures *)

Section GestureProperties.

Context {strings : JS.StringMethods}.

Variable hypot : Q -> Q -> Q.
Variable JSON_parse : string -> ParseOutcome.
Variable businesses : list Business.
Variable language : string.

Local Abbreviation step := (step hypot JSON_parse businesses language).
Local Abbreviation run := (run hypot JSON_parse businesses language).

(** The mouse moves through the points of [path]. *)
Definition mouseMoves (path : list Point) : list Event :=
  map (fun p => MouseMove (px p) (py p)) path.

(** A whole gesture: the button goes down on the map at [(x0, y0)], the
    mouse moves through [path], the button goes up. *)
Definition mouseGesture (x0 y0 : Q) (path : list Point) : list Event :=
  MouseDown false x0 y0 :: mouseMoves path ++ [MouseUp].

Lemma run_app (s : State) (es es' : list Event) :
  run s (es ++ es') = run (run s es) es'.
Proof. unfold OfficeMap.run. apply fold_left_app. Qed.

Lemma last_cons_default (A : Type) (path : list A) :
  forall (p d : A), last (p :: path) d = last path p.
Proof.
  induction path as [|q path IH]; intros p d; [reflexivity|].
  change (last (p :: q :: path) d) with (last (q :: path) d).
  rewrite (IH q d), (IH q p). reflexivity.
Qed.

(** Panning follows the pointer. *)
Lemma mouseMoves_pan (path : list Point) :
  forall (s : State) (cur : Point),
    mapMode s <> globe -> interactionMode s = pan ->
    isDragging s = true -> lastMousePos s = Some cur ->
    panX (viewState (run s (mouseMoves path)))
      == panX (viewState s) + (px (last path cur) - px cur) /\
    panY (viewState (run s (mouseMoves path)))
      == panY (viewState s) + (py (last path cur) - py cur) /\
    zoom (viewState (run s (mouseMoves path))) = zoom (viewState s) /\
    rotateX (viewState (run s (mouseMoves path))) = rotateX (viewState s) /\
    rotateZ (viewState (run s (mouseMoves path))) = rotateZ (viewState s).
Proof.
  induction path as [|p path IH]; intros s cur Hmode Hpan Hdrag Hlast.
  - simpl. repeat split; try reflexivity; ring.
  - assert (Hstep : step s (MouseMove (px p) (py p))
                    = setLastMousePos (Some (mkPoint (px p) (py p)))
                        (updateNavigation (px p - px cur) (py p - py cur) s)).
    { cbn [OfficeMap.step]. unfold handleMouseMove. rewrite Hdrag, Hlast.
      reflexivity. }
    assert (Hview : viewState (step s (MouseMove (px p) (py p)))
                    = mkView (zoom (viewState s)) (rotateX (viewState s))
                        (rotateZ (viewState s))
                        (panX (viewState s) + (px p - px cur))
                        (panY (viewState s) + (py p - py cur))).
    { rewrite Hstep. unfold updateNavigation.
      cbn [viewState setLastMousePos setViewState]. rewrite Hpan.
      destruct (mapMode s); try reflexivity. contradiction. }
    change (run s (mouseMoves (p :: path)))
      with (run (step s (MouseMove (px p) (py p))) (mouseMoves path)).
    destruct (IH (step s (MouseMove (px p) (py p))) (mkPoint (px p) (py p)))
      as (Hx & Hy & Hz & Hrx & Hrz).
    + rewrite Hstep. exact Hmode.
    + rewrite Hstep. exact Hpan.
    + rewrite Hstep. exact Hdrag.
    + rewrite Hstep. reflexivity.
    + assert (Hlastp : last (p :: path) cur = last path (mkPoint (px p) (py p)))
        by (destruct p; apply last_cons_default).
      rewrite Hlastp, Hz, Hrx, Hrz, Hview.
      cbn [panX panY zoom rotateX rotateZ].
      refine (conj _ (conj _ (conj eq_refl (conj eq_refl eq_refl)))).
      * rewrite Hx, Hview. cbn [panX px]. ring.
      * rewrite Hy, Hview. cbn [panY py]. ring.
Qed.

(** X12.  In pan mode, outside globe mode, a mouse gesture that starts on
    the map moves the pan by exactly the displacement of the pointer from
    where the button went down to where the gesture ends, whatever path was
    taken; zoom and rotation are untouched, and the drag is over at the
    end. *)
Theorem pan_follows_the_pointer :
  forall (s : State) (x0 y0 : Q) (path : list Point),
    mapMode s <> globe ->
    interactionMode s = pan ->
    panX (viewState (run s (mouseGesture x0 y0 path)))
      == panX (viewState s) + (px (last path (mkPoint x0 y0)) - x0) /\
    panY (viewState (run s (mouseGesture x0 y0 path)))
      == panY (viewState s) + (py (last path (mkPoint x0 y0)) - y0) /\
    zoom (viewState (run s (mouseGesture x0 y0 path))) = zoom (viewState s) /\
    rotateX (viewState (run s (mouseGesture x0 y0 path))) = rotateX (viewState s) /\
    rotateZ (viewState (run s (mouseGesture x0 y0 path))) = rotateZ (viewState s) /\
    isDragging (run s (mouseGesture x0 y0 path)) = false.
Proof.
  intros s x0 y0 path Hmode Hpan. unfold mouseGesture.
  change (run s (MouseDown false x0 y0 :: mouseMoves path ++ [MouseUp]))
    with (run (handleMouseDown false x0 y0 s) (mouseMoves path ++ [MouseUp])).
  rewrite run_app.
  destruct (@mouseMoves_pan path (handleMouseDown false x0 y0 s)
              (mkPoint x0 y0) Hmode Hpan eq_refl eq_refl)
    as (Hx & Hy & Hz & Hrx & Hrz).
  simpl OfficeMap.run at 1. cbn [OfficeMap.step handleMouseUp].
  cbn [viewState setIsDragging isDragging].
  refine (conj Hx (conj Hy (conj Hz (conj Hrx (conj Hrz eq_refl))))).
Qed.

(** Spinning the globe follows the pointer. *)
Lemma mouseMoves_globe (path : list Point) :
  forall (s : State) (cur : Point),
    mapMode s = globe ->
    isDragging s = true -> lastMousePos s = Some cur ->
    rotateZ (viewState (run s (mouseMoves path)))
      == rotateZ (viewState s) + (px (last path cur) - px cur) * 0.5 /\
    rotateX (viewState (run s (mouseMoves path)))
      == rotateX (viewState s) - (py (last path cur) - py cur) * 0.5 /\
    zoom (viewState (run s (mouseMoves path))) = zoom (viewState s) /\
    panX (viewState (run s (mouseMoves path))) = panX (viewState s) /\
    panY (viewState (run s (mouseMoves path))) = panY (viewState s).
Proof.
  induction path as [|p path IH]; intros s cur Hmode Hdrag Hlast.
  - simpl. refine (conj _ (conj _ (conj eq_refl (conj eq_refl eq_refl)))); ring.
  - assert (Hstep : step s (MouseMove (px p) (py p))
                    = setLastMousePos (Some (mkPoint (px p) (py p)))
                        (updateNavigation (px p - px cur) (py p - py cur) s)).
    { cbn [OfficeMap.step]. unfold handleMouseMove. rewrite Hdrag, Hlast.
      reflexivity. }
    assert (Hview : viewState (step s (MouseMove (px p) (py p)))
                    = mkView (zoom (viewState s))
                        (rotateX (viewState s) - (py p - py cur) * 0.5)
                        (rotateZ (viewState s) + (px p - px cur) * 0.5)
                        (panX (viewState s)) (panY (viewState s))).
    { rewrite Hstep. unfold updateNavigation.
      cbn [viewState setLastMousePos setViewState]. rewrite Hmode.
      reflexivity. }
    change (run s (mouseMoves (p :: path)))
      with (run (step s (MouseMove (px p) (py p))) (mouseMoves path)).
    destruct (IH (step s (MouseMove (px p) (py p))) (mkPoint (px p) (py p)))
      as (Hz & Hx & Hzoom & Hpx & Hpy).
    + rewrite Hstep. exact Hmode.
    + rewrite Hstep. exact Hdrag.
    + rewrite Hstep. reflexivity.
    + assert (Hlastp : last (p :: path) cur = last path (mkPoint (px p) (py p)))
        by (destruct p; apply last_cons_default).
      rewrite Hlastp, Hzoom, Hpx, Hpy, Hview.
      cbn [panX panY zoom rotateX rotateZ].
      refine (conj _ (conj _ (conj eq_refl (conj eq_refl eq_refl)))).
      * rewrite Hz, Hview. cbn [rotateZ px]. ring.
      * rewrite Hx, Hview. cbn [rotateX py]. ring.
Qed.

(** X13.  In globe mode a mouse gesture that starts on the map spins the
    globe by half the displacement of the pointer, whatever path was taken:
    [rotateZ] grows by half the horizontal displacement and [rotateX]
    shrinks by half the vertical one, with no clamp, so the tilt can leave
    [[0, 85]]; zoom and pan are untouched. *)
Theorem globe_spin_follows_the_pointer :
  forall (s : State) (x0 y0 : Q) (path : list Point),
    mapMode s = globe ->
    rotateZ (viewState (run s (mouseGesture x0 y0 path)))
      == rotateZ (viewState s) + (px (last path (mkPoint x0 y0)) - x0) * 0.5 /\
    rotateX (viewState (run s (mouseGesture x0 y0 path)))
      == rotateX (viewState s) - (py (last path (mkPoint x0 y0)) - y0) * 0.5 /\
    zoom (viewState (run s (mouseGesture x0 y0 path))) = zoom (viewState s) /\
    panX (viewState (run s (mouseGesture x0 y0 path))) = panX (viewState s) /\
    panY (viewState (run s (mouseGesture x0 y0 path))) = panY (viewState s).
Proof.
  intros s x0 y0 path Hmode. unfold mouseGesture.
  change (run s (MouseDown false x0 y0 :: mouseMoves path ++ [MouseUp]))
    with (run (handleMouseDown false x0 y0 s) (mouseMoves path ++ [MouseUp])).
  rewrite run_app.
  destruct (@mouseMoves_globe path (handleMouseDown false x0 y0 s)
              (mkPoint x0 y0) Hmode eq_refl eq_refl)
    as (Hz & Hx & Hzoom & Hpx & Hpy).
  simpl OfficeMap.run at 1. cbn [OfficeMap.step handleMouseUp].
  cbn [viewState setIsDragging].
  exact (conj Hz (conj Hx (conj Hzoom (conj Hpx Hpy)))).
Qed.

(** Events that cannot start a drag: pointer moves, and presses that land
    on a button, an input or a select. *)
Definition inert (e : Event) : bool :=
  match e with
  | MouseMove _ _ | TouchMove _ => true
  | MouseDown onControl _ _ | TouchStart onControl _ => onControl
  | _ => false
  end.

(** X14.  While no drag is in progress, pointer moves and presses on
    controls change nothing at all: any sequence of mouse moves, touch
    moves, and mouse-downs or touch-starts over a button, input or select
    leaves the whole state as it was. *)
Theorem moves_outside_a_drag_change_nothing :
  forall (s : State) (events : list Event),
    isDragging s = false ->
    forallb inert events = true ->
    run s events = s.
Proof.
  intros s events Hdrag. induction events as [|e es IH]; intros Hin.
  - reflexivity.
  - simpl in Hin. apply andb_prop in Hin. destruct Hin as [He Hes].
    assert (Hstep : step s e = s).
    { destruct e; try discriminate; cbn [OfficeMap.step].
      - unfold handleMouseDown. simpl in He. rewrite He. reflexivity.
      - unfold handleMouseMove. rewrite Hdrag. reflexivity.
      - unfold handleTouchStart. simpl in He. rewrite He. reflexivity.
      - unfold handleTouchMove. rewrite Hdrag. reflexivity. }
    change (run s (e :: es)) with (run (step s e) es).
    rewrite Hstep. apply IH. exact Hes.
Qed.

(** X15.  A pinch that starts with its two fingers at distance zero is
    dead: the stored distance is falsy, so no later two-finger move zooms
    or changes anything, until the touches end and a new gesture starts. *)
Theorem pinch_from_zero_distance_is_dead :
  forall (s : State) (t0 t1 : Point) (moves : list (Point * Point)),
    hypot (px t0 - px t1) (py t0 - py t1) == 0 ->
    run (handleTouchStart hypot false [t0; t1] s)
        (map (fun m => TouchMove [fst m; snd m]) moves)
    = handleTouchStart hypot false [t0; t1] s.
Proof.
  intros s t0 t1 moves Hzero.
  induction moves as [|m ms IH]; [reflexivity|].
  change (run (handleTouchStart hypot false [t0; t1] s)
              (map (fun m => TouchMove [fst m; snd m]) (m :: ms)))
    with (run (step (handleTouchStart hypot false [t0; t1] s)
                    (TouchMove [fst m; snd m]))
              (map (fun m => TouchMove [fst m; snd m]) ms)).
  assert (Hstep : step (handleTouchStart hypot false [t0; t1] s)
                       (TouchMove [fst m; snd m])
                  = handleTouchStart hypot false [t0; t1] s).
  { cbn [OfficeMap.step]. unfold handleTouchMove.
    cbn [handleTouchStart isDragging lastTouchDist setLastTouchDist
         setIsDragging negb].
    unfold JS.truthy_number.
    rewrite (proj2 (Qeq_bool_iff _ 0) Hzero). reflexivity. }
  rewrite Hstep. exact IH.
Qed.

End GestureProperties.

Lemma pan_follows_the_pointer_witness :
  panX (viewState
          (run hypot_floor parse_sample district "en" initialState
               (mouseGesture 10 20 [mkPoint 500 (-3); mkPoint 7 7; mkPoint 60 50])))
    == 0 + (60 - 10) /\
  isDragging
    (run hypot_floor parse_sample district "en" initialState
         (mouseGesture 10 20 [mkPoint 500 (-3); mkPoint 7 7; mkPoint 60 50]))
    = false.
Proof.
  assert (Hmode : mapMode initialState <> globe) by discriminate.
  destruct (@pan_follows_the_pointer asciiStrings hypot_floor parse_sample
              district "en"
              initialState 10 20 [mkPoint 500 (-3); mkPoint 7 7; mkPoint 60 50]
              Hmode eq_refl) as (Hx & _ & _ & _ & _ & Hd).
  exact (conj Hx Hd).
Defined.

Lemma globe_spin_follows_the_pointer_witness :
  rotateX (viewState
             (run hypot_floor parse_sample district "en"
                  (clickMapMode globe initialState)
                  (mouseGesture 0 0 [mkPoint 40 (-100); mkPoint 8 (-400)])))
    == 0 - (-400 - 0) * 0.5.
Proof.
  destruct (@globe_spin_follows_the_pointer asciiStrings hypot_floor
              parse_sample district
              "en" (clickMapMode globe initialState) 0 0
              [mkPoint 40 (-100); mkPoint 8 (-400)] eq_refl) as (_ & Hx & _).
  exact Hx.
Defined.

Lemma moves_outside_a_drag_change_nothing_witness :
  run hypot_floor parse_sample district "en" initialState
      [MouseMove 5 5; MouseDown true 5 5; MouseMove 300 300;
       TouchStart true [mkPoint 1 1]; TouchMove [mkPoint 90 90]]
  = initialState.
Proof.
  apply (@moves_outside_a_drag_change_nothing asciiStrings hypot_floor
           parse_sample district
           "en"); reflexivity.
Defined.

Lemma pinch_from_zero_distance_is_dead_witness :
  zoom (viewState
          (run hypot_floor parse_sample district "en"
               (handleTouchStart hypot_floor false [mkPoint 7 7; mkPoint 7 7]
                  initialState)
               [TouchMove [mkPoint 0 0; mkPoint 300 400];
                TouchMove [mkPoint 0 0; mkPoint 600 800]]))
  = 0.8.
Proof.
  assert (Hzero : hypot_floor (7 - 7) (7 - 7) == 0) by reflexivity.
  pose proof (@pinch_from_zero_distance_is_dead asciiStrings hypot_floor
                parse_sample
                district "en" initialState (mkPoint 7 7) (mkPoint 7 7)
                [(mkPoint 0 0, mkPoint 300 400); (mkPoint 0 0, mkPoint 600 800)]
                Hzero) as H.
  cbn [map fst snd] in H. rewrite H. reflexivity.
Defined.

(** ** The string methods on ASCII text *)

Section AsciiStringProperties.









End AsciiStringProperties.

(** ** The displayed list *)

Section DisplayedListProperties.

Context {strings : JS.StringMethods}.

Lemma array_includes_In (arr : list string) (x : string) :
  JS.array_includes arr x = true <-> In x arr.
Proof.
  unfold JS.array_includes. rewrite existsb_exists. split.
  - intros (y & Hy & E). apply String.eqb_eq in E. subst. exact Hy.
  - intros H. exists x. split; [exact H | apply String.eqb_refl].
Qed.

(** X16.  The displayed list is a selection from the business list: the
    businesses that pass one test, in their original order, so never more
    than the list holds.  With an AI filter a business is displayed exactly
    if its id is in the id list; with no AI filter and a query that [trim]
    empties, every business is displayed. *)
Theorem displayed_list_is_a_selection :
  forall (businesses : list Business) (aiFilteredIds : option (list string))
         (query : string),
    (exists keep : Business -> bool,
        processedBusinesses businesses aiFilteredIds query
        = filter keep businesses) /\
    (List.length (processedBusinesses businesses aiFilteredIds query)
     <= List.length businesses)%nat /\
    (forall (filteredIds : list string) (b : Business),
        In b (processedBusinesses businesses (Some filteredIds) query) <->
        In b businesses /\ In (business_id b) filteredIds) /\
    (JS.trim query = EmptyString ->
     processedBusinesses businesses None query = businesses).
Proof.
  intros businesses ai query.
  assert (Hkeep : exists keep : Business -> bool,
             processedBusinesses businesses ai query = filter keep businesses).
  { unfold processedBusinesses. destruct ai as [ids|].
    - eexists. reflexivity.
    - destruct (JS.truthy_string (JS.trim query)).
      + eexists. reflexivity.
      + exists (fun _ => true). symmetry. apply forallb_filter_id.
        apply forallb_forall. reflexivity. }
  refine (conj Hkeep (conj _ (conj _ _))).
  - destruct Hkeep as [keep ->]. apply filter_length_le.
  - intros ids b. unfold processedBusinesses. rewrite filter_In.
    rewrite array_includes_In. reflexivity.
  - intros Hblank. unfold processedBusinesses. rewrite Hblank. reflexivity.
Qed.


(** X18.  Only the set of ids of the AI filter matters: two id lists with
    the same members, in any order and with any repetitions, display the
    same list, whatever the text queries. *)
Theorem ai_filter_is_read_as_a_set :
  forall (businesses : list Business) (ids1 ids2 : list string)
         (query1 query2 : string),
    (forall id : string, In id ids1 <-> In id ids2) ->
    processedBusinesses businesses (Some ids1) query1
    = processedBusinesses businesses (Some ids2) query2.
Proof.
  intros businesses ids1 ids2 q1 q2 H. unfold processedBusinesses.
  apply filter_ext. intros b.
  destruct (JS.array_includes ids1 (business_id b)) eqn:E1;
    destruct (JS.array_includes ids2 (business_id b)) eqn:E2; try reflexivity.
  - apply array_includes_In in E1. apply H in E1.
    apply array_includes_In in E1. congruence.
  - apply array_includes_In in E2. apply H in E2.
    apply array_includes_In in E2. congruence.
Qed.

End DisplayedListProperties.


Lemma displayed_list_is_a_selection_witness :
  processedBusinesses district None "  " = district.
Proof.
  destruct (displayed_list_is_a_selection district None "  ") as (_ & _ & _ & H).
  apply H. reflexivity.
Defined.


Lemma ai_filter_is_read_as_a_set_witness :
  processedBusinesses district (Some ["b5"; "b1"; "b5"; "zz"]%string) "x"
  = processedBusinesses district (Some ["zz"; "b1"; "b5"]%string) "".
Proof.
  apply ai_filter_is_read_as_a_set.
  intros id. simpl. tauto.
Defined.

(** ** The selection *)

Section SelectionProperties.

Context {strings : JS.StringMethods}.

Variable hypot : Q -> Q -> Q.
Variable JSON_parse : string -> ParseOutcome.
Variable businesses : list Business.
Variable language : string.

Lemma find_by_unique_id (l : list Business) (b : Business) :
  NoDup (map business_id l) -> In b l ->
  find (fun x => String.eqb (business_id x) (business_id b)) l = Some b.
Proof.
  induction l as [|x l IH]; intros Hnd Hin; [contradiction|].
  inversion Hnd as [|i ids Hnotin Hnd']; subst. simpl.
  destruct Hin as [->|Hin].
  - rewrite String.eqb_refl. reflexivity.
  - destruct (String.eqb_spec (business_id x) (business_id b)) as [E|_].
    + exfalso. apply Hnotin. rewrite E. apply in_map. exact Hin.
    + apply IH; assumption.
Qed.

Lemma find_by_absent_id (l : list Business) (id : string) :
  ~ In id (map business_id l) ->
  find (fun x => String.eqb (business_id x) id) l = None.
Proof.
  induction l as [|x l IH]; intros Hnot; [reflexivity|]. simpl.
  destruct (String.eqb_spec (business_id x) id) as [E|_].
  - exfalso. apply Hnot. left. exact E.
  - apply IH. intros H. apply Hnot. right. exact H.
Qed.

(** X19.  Selecting a tile and looking the selection up gives that very
    business back, provided it is in the list and ids are unique, and opens
    the sidebar; an id that no business of the list carries selects
    nothing. *)
Theorem selection_round_trip :
  forall (s : State) (b : Business),
    NoDup (map business_id businesses) ->
    In b businesses ->
    selectedBusiness businesses
      (selectedBusinessId
         (step hypot JSON_parse businesses language s (SelectTile b)))
    = Some b /\
    isSidebarOpen (step hypot JSON_parse businesses language s (SelectTile b))
    = true /\
    (forall id : string,
        ~ In id (map business_id businesses) ->
        selectedBusiness businesses (Some id) = None).
Proof.
  intros s b Hnd Hin. refine (conj _ (conj eq_refl _)).
  - cbn [step selectedBusinessId setIsSidebarOpen setSelectedBusinessId
         selectedBusiness].
    apply find_by_unique_id; assumption.
  - intros id Hnot. apply find_by_absent_id. exact Hnot.
Qed.

End SelectionProperties.

Lemma selection_round_trip_witness :
  selectedBusiness district
    (selectedBusinessId
       (step hypot_floor parse_sample district "en" initialState
             (SelectTile bakery)))
  = Some bakery.
Proof.
  assert (Hnd : NoDup (map business_id district)).
  { repeat (constructor; [simpl; intuition discriminate|]). constructor. }
  assert (Hin : In bakery district) by (right; right; left; reflexivity).
  destruct (@selection_round_trip asciiStrings hypot_floor parse_sample
              district "en"
              initialState bakery Hnd Hin) as (H & _).
  exact H.
Defined.

(** ** Where things are drawn *)

Section PlacementProperties.

(** The left (or top) edge of the tile in 1-based column (or row) [k]. *)
Definition tileEdge (k : Q) : Q := PADDING + ((k - 1) * CELL_SIZE) + ((k - 1) * GAP).

Lemma renderTile_grid (mode : MapMode) (processed : list Business)
  (b : Business) (index : nat) :
  mode <> globe ->
  tile_style (renderTile mode processed b index)
  = GridStyle CELL_SIZE CELL_SIZE (tileEdge (px (gridPosition b)))
              (tileEdge (py (gridPosition b))).
Proof. destruct mode; intros H; try reflexivity. contradiction. Qed.

(** X20.  Connection lines join tile centres: outside globe mode the tile
    of a business is the [CELL_SIZE] square whose centre is
    [getCellCenter] of its grid position, and the line of a connection
    starts at that centre for its first participant and ends at it for its
    second. *)
Theorem connections_join_tile_centres :
  forall (mode : MapMode) (processed : list Business) (b1 b2 : Business)
         (i1 i2 : nat) (type : EdgeType),
    mode <> globe ->
    exists left1 top1 left2 top2 : Q,
      tile_style (renderTile mode processed b1 i1)
        = GridStyle CELL_SIZE CELL_SIZE left1 top1 /\
      tile_style (renderTile mode processed b2 i2)
        = GridStyle CELL_SIZE CELL_SIZE left2 top2 /\
      px (conn_start (connectionOf b1 b2 type)) == left1 + CELL_SIZE / 2 /\
      py (conn_start (connectionOf b1 b2 type)) == top1 + CELL_SIZE / 2 /\
      px (conn_end (connectionOf b1 b2 type)) == left2 + CELL_SIZE / 2 /\
      py (conn_end (connectionOf b1 b2 type)) == top2 + CELL_SIZE / 2.
Proof.
  intros mode processed b1 b2 i1 i2 type Hmode.
  exists (tileEdge (px (gridPosition b1))), (tileEdge (py (gridPosition b1))),
         (tileEdge (px (gridPosition b2))), (tileEdge (py (gridPosition b2))).
  rewrite !renderTile_grid by exact Hmode.
  unfold connectionOf, getCellCenter, tileEdge.
  cbn [conn_start conn_end px py].
  refine (conj eq_refl (conj eq_refl (conj _ (conj _ (conj _ _))))); ring.
Qed.

Lemma connections_join_tile_centres_witness :
  exists left1 top1 left2 top2 : Q,
    tile_style (renderTile networking district cafe 0)
      = GridStyle CELL_SIZE CELL_SIZE left1 top1 /\
    tile_style (renderTile networking district agency 1)
      = GridStyle CELL_SIZE CELL_SIZE left2 top2 /\
    px (conn_start (connectionOf cafe agency synergy)) == left1 + CELL_SIZE / 2 /\
    py (conn_start (connectionOf cafe agency synergy)) == top1 + CELL_SIZE / 2 /\
    px (conn_end (connectionOf cafe agency synergy)) == left2 + CELL_SIZE / 2 /\
    py (conn_end (connectionOf cafe agency synergy)) == top2 + CELL_SIZE / 2.
Proof.
  assert (Hmode : networking <> globe) by discriminate.
  exact (@connections_join_tile_centres networking district cafe agency 0 1
           synergy Hmode).
Defined.

(** X21.  A traffic band runs inside the gap it belongs to and never covers
    a tile: the 40 wide band of vertical corridor [k] starts 40 to the right
    of the tiles of column [k] and ends 40 to the left of the tiles of
    column [k + 1], and it spans the grid from [PADDING] to
    [CONTAINER_SIZE - PADDING]; likewise for the horizontal corridors and
    the rows. *)
Theorem traffic_band_stays_in_its_gap :
  forall (businesses : list Business) (k : nat),
    let v := verticalSegment businesses k in
    let h := horizontalSegment businesses k in
    x1 v + segmentMarginLeft v == tileEdge (JS.num k) + CELL_SIZE + 40 /\
    x1 v + segmentMarginLeft v + segmentWidth v + 40 == tileEdge (JS.num k + 1) /\
    y1 v + segmentMarginTop v == PADDING /\
    y1 v + segmentMarginTop v + segmentHeight v == CONTAINER_SIZE - PADDING /\
    y1 h + segmentMarginTop h == tileEdge (JS.num k) + CELL_SIZE + 40 /\
    y1 h + segmentMarginTop h + segmentHeight h + 40 == tileEdge (JS.num k + 1) /\
    x1 h + segmentMarginLeft h == PADDING /\
    x1 h + segmentMarginLeft h + segmentWidth h == CONTAINER_SIZE - PADDING.
Proof.
  intros businesses k. cbv zeta.
  unfold segmentMarginLeft, segmentMarginTop, segmentWidth, segmentHeight,
    verticalSegment, horizontalSegment, tileEdge.
  cbn [x1 y1 x2 y2 orientation].
  unfold PADDING, GAP, CONTAINER_SIZE.
  generalize (JS.num k). intros q.
  assert (Hc : CELL_SIZE == 240) by reflexivity.
  repeat split; rewrite ?Hc; field.
Qed.

End PlacementProperties.

(** ** More on the networking graph *)

Section GraphProperties.

Context {strings : JS.StringMethods}.

Local Open Scope nat_scope.

Lemma edgeAt_In (occupied : list Business) (i j : nat) (c : Connection) :
  In c (edgeAt occupied i j) <->
  exists (b1 b2 : Business) (type : EdgeType),
    nth_error occupied i = Some b1 /\ nth_error occupied j = Some b2 /\
    connectionType b1 b2 = Some type /\ c = connectionOf b1 b2 type.
Proof.
  unfold edgeAt, connectPair. split.
  - destruct (nth_error occupied i) as [b1|]; [|contradiction].
    destruct (nth_error occupied j) as [b2|]; [|contradiction].
    destruct (connectionType b1 b2) as [type|] eqn:E; [|contradiction].
    intros [H|[]]. exists b1, b2, type. repeat split; congruence.
  - intros (b1 & b2 & type & H1 & H2 & Ht & ->).
    rewrite H1, H2, Ht. left. reflexivity.
Qed.

(** X22.  The derived connections are exactly the typed pairs of occupied
    businesses: a connection is in the result of networking mode if and only
    if it is the connection of two occupied businesses, the first listed
    before the second, whose pair has a type (synergy or industry).  So
    every participant of every connection is the id of an occupied business
    of the list: a vacant unit is never linked. *)
Theorem connections_are_the_typed_pairs :
  forall (businesses : list Business) (c : Connection),
    (In c (networkingConnections businesses networking) <->
     exists (i j : nat) (b1 b2 : Business) (type : EdgeType),
       i < j /\
       nth_error (filter isOccupied businesses) i = Some b1 /\
       nth_error (filter isOccupied businesses) j = Some b2 /\
       connectionType b1 b2 = Some type /\
       c = connectionOf b1 b2 type) /\
    (In c (networkingConnections businesses networking) ->
     forall id : string,
       In id (participants c) ->
       exists b : Business,
         In b businesses /\ isOccupied b = true /\ business_id b = id).
Proof.
  intros businesses c.
  assert (Hiff : In c (networkingConnections businesses networking) <->
                 exists (i j : nat) (b1 b2 : Business) (type : EdgeType),
                   i < j /\
                   nth_error (filter isOccupied businesses) i = Some b1 /\
                   nth_error (filter isOccupied businesses) j = Some b2 /\
                   connectionType b1 b2 = Some type /\
                   c = connectionOf b1 b2 type).
  { rewrite networkingConnections_networking, in_flat_map. split.
    - intros (i & _ & Hrow). unfold rowEdges in Hrow.
      apply in_flat_map in Hrow. destruct Hrow as (j & Hj & Hedge).
      apply in_seq in Hj. apply edgeAt_In in Hedge.
      destruct Hedge as (b1 & b2 & type & H1 & H2 & Ht & Hc).
      exists i, j, b1, b2, type. repeat split; try assumption. lia.
    - intros (i & j & b1 & b2 & type & Hij & H1 & H2 & Ht & Hc).
      assert (Hjn : j < List.length (filter isOccupied businesses))
        by (apply nth_error_Some; rewrite H2; discriminate).
      exists i. split; [apply in_seq; lia|].
      unfold rowEdges. apply in_flat_map. exists j.
      split; [apply in_seq; lia|].
      apply edgeAt_In. exists b1, b2, type. repeat split; assumption. }
  split; [exact Hiff|].
  intros Hin id Hid. apply Hiff in Hin.
  destruct Hin as (i & j & b1 & b2 & type & _ & H1 & H2 & _ & ->).
  apply nth_error_In in H1. apply nth_error_In in H2.
  apply filter_In in H1. apply filter_In in H2.
  simpl in Hid. destruct Hid as [<-|[<-|[]]].
  - exists b1. repeat split; tauto.
  - exists b2. repeat split; tauto.
Qed.

(** X23.  The type of the link between two businesses does not depend on
    which of the two comes first. *)
Theorem connectionType_is_symmetric :
  forall a b : Business, connectionType a b = connectionType b a.
Proof.
  intros a b. unfold connectionType.
  assert (Hs : JS.truthy (hasSynergy a b) = JS.truthy (hasSynergy b a)).
  { destruct (JS.truthy (hasSynergy a b)) eqn:E1;
      destruct (JS.truthy (hasSynergy b a)) eqn:E2; try reflexivity.
    - apply hasSynergy_spec in E1. destruct E1 as [H|H];
        [assert (H' : synergyBetween b a) by (right; exact H)
        |assert (H' : synergyBetween b a) by (left; exact H)];
        apply hasSynergy_spec in H'; congruence.
    - apply hasSynergy_spec in E2. destruct E2 as [H|H];
        [assert (H' : synergyBetween a b) by (right; exact H)
        |assert (H' : synergyBetween a b) by (left; exact H)];
        apply hasSynergy_spec in H'; congruence. }
  rewrite Hs, (String.eqb_sym (category a) (category b)). reflexivity.
Qed.

Lemma contains_empty (s : string) : contains s "".
Proof. exists ""%string, s. reflexivity. Qed.

(** On a host that lower-cases the empty string to itself, an empty service
    name matches everything. *)
Lemma empty_name_is_in_every_name :
  JS.toLowerCase ""%string = ""%string ->
  forall (a b : Business) (other : string),
    (In ""%string (listOf (needsOf a)) /\ In other (listOf (offersOf b))) \/
    (In other (listOf (needsOf a)) /\ In ""%string (listOf (offersOf b))) ->
    connectionType a b = Some synergy /\ connectionType b a = Some synergy.
Proof.
  intros Hempty a b other H.
  assert (Hsyn : synergyBetween a b).
  { left. destruct H as [[Hn Ho]|[Hn Ho]].
    - exists ""%string, other. refine (conj Hn (conj Ho _)).
      left. rewrite Hempty. apply contains_empty.
    - exists other, ""%string. refine (conj Hn (conj Ho _)).
      right. rewrite Hempty. apply contains_empty. }
  split.
  - apply (proj1 (connectionType_spec a b) Hsyn).
  - apply (proj1 (connectionType_spec b a)).
    destruct Hsyn as [Hs|Hs]; [right | left]; exact Hs.
Qed.

End GraphProperties.

(** X24.  An empty service name matches everything: if one business lists
    the empty string among the services it needs and the other offers any
    service at all, or one lists it among its offers and the other needs
    any service at all, the two are linked by synergy, whatever their
    categories and in either order.  (Stated for [asciiStrings].) *)
Theorem empty_service_name_links_everything :
  forall (a b : Business) (other : string),
    (In ""%string (listOf (needsOf a)) /\ In other (listOf (offersOf b))) \/
    (In other (listOf (needsOf a)) /\ In ""%string (listOf (offersOf b))) ->
    connectionType a b = Some synergy /\ connectionType b a = Some synergy.
Proof.
  intros a b other H.
  apply (@empty_name_is_in_every_name asciiStrings eq_refl a b other H).
Qed.

Lemma connections_are_the_typed_pairs_witness :
  exists b : Business,
    In b district /\ isOccupied b = true /\ business_id b = "b2"%string.
Proof.
  destruct (connections_are_the_typed_pairs district
              (connectionOf cafe agency synergy)) as [Hiff Hocc].
  apply Hocc.
  - apply Hiff. exists 0%nat, 1%nat, cafe, agency, synergy.
    repeat split; try reflexivity. constructor.
  - right. left. reflexivity.
Defined.

(** A unit that lists an empty need, in another category than the agency. *)
Definition careless : Business :=
  mkBusiness "b9" "Careless Ltd" None "LEGAL" true (Some 1%Q) (mkPoint 1%Q 3%Q)
    (Some (mkGenome None (Some [""%string]))).

Lemma empty_service_name_links_everything_witness :
  connectionType careless agency = Some synergy /\
  connectionType agency careless = Some synergy.
Proof.
  apply (@empty_service_name_links_everything careless agency
           "marketing services").
  left. split; left; reflexivity.
Defined.

(** ** The highlight *)

Section HighlightProperties.

Context {strings : JS.StringMethods}.

Local Open Scope nat_scope.

Lemma truthy_string_nonempty (s : string) :
  s <> ""%string -> JS.truthy_string s = true.
Proof. destruct s; [contradiction | reflexivity]. Qed.

Lemma find_hd_filter (A : Type) (p : A -> bool) (l : list A) :
  find p l = hd_error (filter p l).
Proof.
  induction l as [|x l IH]; [reflexivity|]. simpl.
  destruct (p x); [reflexivity | exact IH].
Qed.

Lemma find_existsb (A : Type) (p : A -> bool) (l : list A) :
  match find p l with Some _ => true | None => false end = existsb p l.
Proof.
  induction l as [|x l IH]; [reflexivity|]. simpl.
  destruct (p x); [reflexivity | exact IH].
Qed.

Lemma linkedBy_sym (a b : string) (c : Connection) :
  linkedBy a b c = linkedBy b a c.
Proof. unfold linkedBy. apply andb_comm. Qed.

(** The status of a tile against a focus, read off the type of their
    pair. *)
Definition statusOfPair (b1 b2 : Business) : NetworkStatus :=
  match connectionType b1 b2 with
  | Some type => mkStatus true (Some type)
  | None => mkStatus false None
  end.

(** X25.  In networking mode the highlight agrees with the derived graph.
    Take two occupied businesses with unique, non-empty ids.  When one of
    them is hovered (whatever is selected), the tile of the other is
    reported related exactly if their pair has a type, and the type
    reported is that type: synergy if they have synergy, else industry if
    they share a category.  It is the same whichever of the two is hovered.
    With nothing hovered or selected every tile is related, and outside
    networking mode none is. *)
Theorem highlight_agrees_with_connections :
  forall (businesses : list Business) (i j : nat) (b1 b2 : Business)
         (selectedBusinessId : option string),
    NoDup (map business_id (filter isOccupied businesses)) ->
    i < j ->
    nth_error (filter isOccupied businesses) i = Some b1 ->
    nth_error (filter isOccupied businesses) j = Some b2 ->
    business_id b1 <> ""%string ->
    business_id b2 <> ""%string ->
    getNetworkStatus networking (networkingConnections businesses networking)
      (Some (business_id b1)) selectedBusinessId (business_id b2)
    = statusOfPair b1 b2 /\
    getNetworkStatus networking (networkingConnections businesses networking)
      (Some (business_id b2)) selectedBusinessId (business_id b1)
    = statusOfPair b1 b2 /\
    getNetworkStatus networking (networkingConnections businesses networking)
      None None (business_id b2)
    = mkStatus true None /\
    (forall mode : MapMode,
        mode <> networking ->
        getNetworkStatus mode (networkingConnections businesses mode)
          (Some (business_id b1)) selectedBusinessId (business_id b2)
        = mkStatus false None).
Proof.
  intros businesses i j b1 b2 sel Hnd Hij Hi Hj Hid1 Hid2.
  pose proof (linked_connections Hnd Hij Hi Hj businesses eq_refl) as Hlinked.
  cbv zeta in Hlinked.
  assert (Hne : business_id b1 <> business_id b2).
  { intros E. pose proof (position_of_id _ _ _ Hnd Hi Hj E). lia. }
  assert (Hfind12 : find (linkedBy (business_id b1) (business_id b2))
                      (networkingConnections businesses networking)
                    = match connectionType b1 b2 with
                      | Some type => Some (connectionOf b1 b2 type)
                      | None => None
                      end).
  { rewrite find_hd_filter, Hlinked.
    destruct (connectionType b1 b2); reflexivity. }
  assert (Hfind21 : find (linkedBy (business_id b2) (business_id b1))
                      (networkingConnections businesses networking)
                    = match connectionType b1 b2 with
                      | Some type => Some (connectionOf b1 b2 type)
                      | None => None
                      end).
  { rewrite <- Hfind12. rewrite !find_hd_filter. f_equal.
    apply filter_ext. intros c. apply linkedBy_sym. }
  unfold getNetworkStatus, activeIdOf, statusOfPair.
  rewrite !(truthy_string_nonempty Hid1), !(truthy_string_nonempty Hid2).
  refine (conj _ (conj _ (conj eq_refl _))).
  - destruct (String.eqb_spec (business_id b2) (business_id b1)) as [E|_];
      [exfalso; apply Hne; symmetry; exact E|].
    rewrite Hfind21. destruct (connectionType b1 b2); reflexivity.
  - destruct (String.eqb_spec (business_id b1) (business_id b2)) as [E|_];
      [exfalso; apply Hne; exact E|].
    rewrite Hfind12. destruct (connectionType b1 b2); reflexivity.
  - intros mode Hmode. destruct mode; try reflexivity. contradiction.
Qed.

(** X26.  Tiles and lines agree on the highlight.  With a non-empty focus
    id, a line is drawn bright (opacity 0.9) exactly if the focus is one of
    its participants, and the tile of another id is reported related
    exactly if some bright line has that id as a participant.  With no
    focus every line is bright. *)
Theorem tiles_and_lines_agree :
  forall (connections : list Connection) (focus id : string)
         (selectedBusinessId : option string) (c : Connection),
    focus <> ""%string ->
    id <> focus ->
    (lineOpacity (Some focus) c = 0.9%Q <->
     JS.array_includes (participants c) focus = true) /\
    isRelated (getNetworkStatus networking connections (Some focus)
                 selectedBusinessId id)
    = existsb (fun line => isRelevant (Some focus) line
                           && JS.array_includes (participants line) id)
              connections /\
    lineOpacity None c = 0.9%Q.
Proof.
  intros connections focus id sel c Hfocus Hid.
  unfold lineOpacity, isRelevant, getNetworkStatus, activeIdOf.
  rewrite !(truthy_string_nonempty Hfocus).
  refine (conj _ (conj _ eq_refl)).
  - destruct (JS.array_includes (participants c) focus); split; intros H;
      try reflexivity; discriminate.
  - destruct (String.eqb_spec id focus) as [E|_]; [contradiction|].
    rewrite <- (find_existsb _ connections).
    assert (Hext : find (linkedBy id focus) connections
                   = find (fun line => JS.array_includes (participants line) focus
                                       && JS.array_includes (participants line) id)
                          connections).
    { rewrite !find_hd_filter. f_equal. apply filter_ext. intros line.
      unfold linkedBy. apply andb_comm. }
    rewrite Hext. clear Hext.
    match goal with
    | |- context [find ?p connections] => destruct (find p connections)
    end; reflexivity.
Qed.

End HighlightProperties.

Lemma highlight_agrees_with_connections_witness :
  getNetworkStatus networking (networkingConnections district networking)
    (Some "b1"%string) (Some "b5"%string) "b2"
  = mkStatus true (Some synergy) /\
  getNetworkStatus networking (networkingConnections district networking)
    (Some "b2"%string) None "b1"
  = mkStatus true (Some synergy).
Proof.
  assert (Hnd : NoDup (map business_id (filter isOccupied district))).
  { repeat (constructor; [simpl; intuition discriminate|]). constructor. }
  assert (Hij : (0 < 1)%nat) by constructor.
  assert (H1 : business_id cafe <> ""%string) by discriminate.
  assert (H2 : business_id agency <> ""%string) by discriminate.
  destruct (@highlight_agrees_with_connections asciiStrings district 0 1
              cafe agency
              (Some "b5"%string) Hnd Hij eq_refl eq_refl H1 H2) as (Ha & _).
  destruct (@highlight_agrees_with_connections asciiStrings district 0 1
              cafe agency
              None Hnd Hij eq_refl eq_refl H1 H2) as (_ & Hb & _).
  exact (conj Ha Hb).
Defined.

Lemma tiles_and_lines_agree_witness :
  isRelated (getNetworkStatus networking
               (networkingConnections district networking)
               (Some "b1"%string) None "b3")
  = existsb (fun line => isRelevant (Some "b1"%string) line
                         && JS.array_includes (participants line) "b3")
            (networkingConnections district networking).
Proof.
  assert (Hf : "b1"%string <> ""%string) by discriminate.
  assert (Hid : "b3"%string <> "b1"%string) by discriminate.
  destruct (@tiles_and_lines_agree (networkingConnections district networking)
              "b1" "b3" None (connectionOf cafe agency synergy) Hf Hid)
    as (_ & H & _).
  exact H.
Defined.

(** ** The match list *)

Section MatchListProperties.

Import NetworkIntelligence.

(** The comparator of [sortedMatches]. *)
Definition byScoreDescending (a b : MatchResult) : Q := score b - score a.

(** [a] may stand before [b]: its score is not smaller. *)
Definition notBelow (a b : MatchResult) : Prop := score b <= score a.

Lemma insert_perm (x : MatchResult) (l : list MatchResult) :
  Permutation (x :: l) (insert byScoreDescending x l).
Proof.
  induction l as [|y l IH]; simpl; [apply Permutation_refl|].
  destruct (Qle_bool (byScoreDescending x y) 0).
  - apply Permutation_refl.
  - apply perm_trans with (y :: x :: l); [apply perm_swap|].
    apply perm_skip. exact IH.
Qed.

Lemma insert_sorted (x : MatchResult) (l : list MatchResult) :
  Sorted notBelow l -> Sorted notBelow (insert byScoreDescending x l).
Proof.
  induction l as [|y l IH]; intros Hs; simpl.
  - constructor; constructor.
  - destruct (Qle_bool (byScoreDescending x y) 0) eqn:E.
    + apply Qle_bool_iff in E. unfold byScoreDescending in E.
      constructor; [exact Hs|]. constructor. unfold notBelow. Lqa.lra.
    + assert (Hlt : score x < score y).
      { apply Qnot_le_lt. intros Hle.
        assert (Hb : Qle_bool (byScoreDescending x y) 0 = true)
          by (apply Qle_bool_iff; unfold byScoreDescending; Lqa.lra).
        rewrite Hb in E. discriminate. }
      inversion Hs as [|y' l' Hs' Hhd]; subst.
      constructor; [apply IH; exact Hs'|].
      destruct l as [|z l]; simpl.
      * constructor. unfold notBelow. Lqa.lra.
      * destruct (Qle_bool (byScoreDescending x z) 0).
        -- constructor. unfold notBelow. Lqa.lra.
        -- inversion Hhd; subst. constructor. assumption.
Qed.

Lemma notBelow_trans : Relations_1.Transitive notBelow.
Proof. intros a b c Hab Hbc. unfold notBelow in *. Lqa.lra. Qed.

(** Inserting does not reorder the matches of one score. *)
Lemma insert_keeps_ties (q : Q) (x : MatchResult) (l : list MatchResult) :
  filter (fun m => Qeq_bool (score m) q) (insert byScoreDescending x l)
  = filter (fun m => Qeq_bool (score m) q) (x :: l).
Proof.
  induction l as [|y l IH]; [reflexivity|]. simpl insert.
  destruct (Qle_bool (byScoreDescending x y) 0) eqn:E; [reflexivity|].
  assert (Hlt : score x < score y).
  { apply Qnot_le_lt. intros Hle.
    assert (Hb : Qle_bool (byScoreDescending x y) 0 = true)
      by (apply Qle_bool_iff; unfold byScoreDescending; Lqa.lra).
    rewrite Hb in E. discriminate. }
  change (filter (fun m => Qeq_bool (score m) q) (y :: insert byScoreDescending x l))
    with (if Qeq_bool (score y) q
          then y :: filter (fun m => Qeq_bool (score m) q)
                      (insert byScoreDescending x l)
          else filter (fun m => Qeq_bool (score m) q)
                 (insert byScoreDescending x l)).
  rewrite IH. simpl.
  destruct (Qeq_bool (score x) q) eqn:Ex;
    destruct (Qeq_bool (score y) q) eqn:Ey; try reflexivity.
  exfalso. apply Qeq_bool_iff in Ex. apply Qeq_bool_iff in Ey. Lqa.lra.
Qed.

(** X27.  Sorting the match list by score keeps exactly the same matches,
    puts them in non-increasing order of score, and leaves matches of equal
    score in the order they had; with the default order the list is shown
    as it came. *)
Theorem sortedMatches_orders_by_score :
  forall (matches : list MatchResult) (q : Q),
    Permutation matches (sortedMatches matches order_score) /\
    StronglySorted notBelow (sortedMatches matches order_score) /\
    filter (fun m => Qeq_bool (score m) q) (sortedMatches matches order_score)
    = filter (fun m => Qeq_bool (score m) q) matches /\
    sortedMatches matches order_default = matches.
Proof.
  intros matches q. unfold sortedMatches.
  change (fun a b : MatchResult => score b - score a) with byScoreDescending.
  refine (conj _ (conj _ (conj _ eq_refl))).
  - induction matches as [|x l IH]; [apply perm_nil|]. simpl.
    apply perm_trans with (x :: sort byScoreDescending l).
    + apply perm_skip. exact IH.
    + apply insert_perm.
  - apply Sorted_StronglySorted; [exact notBelow_trans|].
    induction matches as [|x l IH]; [constructor|]. simpl.
    apply insert_sorted. exact IH.
  - induction matches as [|x l IH]; [reflexivity|].
    change (sort byScoreDescending (x :: l))
      with (insert byScoreDescending x (sort byScoreDescending l)).
    rewrite insert_keeps_ties. simpl. rewrite IH. reflexivity.
Qed.

End MatchListProperties.

(** ** The asynchronous requests *)

Section RequestProperties.

Context {strings : JS.StringMethods}.

Variable hypot : Q -> Q -> Q.
Variable JSON_parse : string -> ParseOutcome.
Variable businesses : list Business.
Variable language : string.

Local Abbreviation step := (step hypot JSON_parse businesses language).
Local Abbreviation run := (run hypot JSON_parse businesses language).

(** X28.  The insights panel never shows an empty text.  Whatever happens
    to the request, [analyzeMapTrends] resolves with a non-empty text: the
    fixed message "Unable to generate insights at this time." when the
    request fails, "No insights generated." when the reply has no text.
    After the analysis has run the panel is open, the spinner is off and
    the panel holds that text; the component's own message "Failed to
    generate insights." appears only if the model replied with exactly
    it. *)
Theorem insights_are_never_empty :
  forall (s : State) (reply : GenerateContent),
    exists text : string,
      analyzeMapTrends businesses language reply = Fulfilled text /\
      text <> ""%string /\
      insightsContent
        (run s [ClickAnalyzeTrends;
                AnalyzeTrendsSettles (analyzeMapTrends businesses language reply)])
      = text /\
      isAnalyzing
        (run s [ClickAnalyzeTrends;
                AnalyzeTrendsSettles (analyzeMapTrends businesses language reply)])
      = false /\
      showInsights
        (run s [ClickAnalyzeTrends;
                AnalyzeTrendsSettles (analyzeMapTrends businesses language reply)])
      = true /\
      (reply = RequestFails ->
       text = "Unable to generate insights at this time."%string) /\
      (reply = Responds None \/ reply = Responds (Some ""%string) ->
       text = "No insights generated."%string) /\
      (text = "Failed to generate insights."%string ->
       reply = Responds (Some "Failed to generate insights."%string)).
Proof.
  intros s reply. destruct reply as [|[t|]].
  - eexists. repeat split; try reflexivity; try discriminate.
    intros [H|H]; discriminate.
  - destruct t as [|c t].
    + eexists. repeat split; try reflexivity; try discriminate.
    + exists (String c t). repeat split; try reflexivity; try discriminate.
      * intros [H|H]; discriminate.
      * intros ->. reflexivity.
  - eexists. repeat split; try reflexivity; try discriminate.
Qed.

(** X29.  The life of a search.  A click with a query that [trim] empties
    returns at once and changes nothing.  A click with any other query
    raises the searching flag and changes nothing else.  When the reply
    settles the flag is cleared, whatever the reply, and nothing but the flag
    and the filter has changed. *)
Theorem search_lifecycle :
  forall (s : State) (reply : GenerateContent),
    (JS.trim (searchQuery s) = ""%string -> step s ClickAISearch = s) /\
    (JS.trim (searchQuery s) <> ""%string ->
     step s ClickAISearch = setIsSearchingAI true s) /\
    isSearchingAI (step s (AISearchSettles reply)) = false /\
    step s (AISearchSettles reply)
    = setIsSearchingAI false
        (setAiFilteredIds (aiFilteredIds (step s (AISearchSettles reply))) s).
Proof.
  intros s reply. refine (conj _ (conj _ _)).
  - intros Hblank. cbn [OfficeMap.step]. unfold handleAISearch_start.
    rewrite Hblank. reflexivity.
  - intros Hquery. cbn [OfficeMap.step]. unfold handleAISearch_start.
    destruct (JS.trim (searchQuery s)); [contradiction | reflexivity].
  - cbn [OfficeMap.step]. unfold searchBusinessesWithAI.
    destruct (tryBody JSON_parse reply); split; reflexivity.
Qed.

End RequestProperties.

Lemma search_lifecycle_witness :
  step hypot_floor parse_sample district "en"
       (setSearchQuery "   " initialState) ClickAISearch
  = setSearchQuery "   " initialState /\
  step hypot_floor parse_sample district "en"
       (setSearchQuery "cafe" initialState) ClickAISearch
  = setIsSearchingAI true (setSearchQuery "cafe" initialState).
Proof.
  destruct (search_lifecycle hypot_floor parse_sample district "en"
              (setSearchQuery "   " initialState) RequestFails) as (H1 & _).
  destruct (search_lifecycle hypot_floor parse_sample district "en"
              (setSearchQuery "cafe" initialState) RequestFails)
    as (_ & H2 & _).
  split.
  - apply H1. reflexivity.
  - apply H2. discriminate.
Defined.

(** ** Code fences around the reply *)

Section FenceProperties.

Context {strings : JS.StringMethods}.

Variable JSON_parse : string -> ParseOutcome.

Open Scope string_scope.

(** No backtick occurs in the string. *)
Fixpoint no_backtick (s : string) : bool :=
  match s with
  | EmptyString => true
  | String c s' => negb (Ascii.eqb c "`") && no_backtick s'
  end.

(** Text without backticks passes through a replacement whose pattern
    starts with a backtick. *)
Lemma replaceAll_plain_prefix (pat rep s tail : string) :
  no_backtick s = true ->
  JS.replaceAll_from 0 (String "`" pat) rep (s ++ tail)
  = s ++ JS.replaceAll_from 0 (String "`" pat) rep tail.
Proof.
  induction s as [|c s IH]; intros H; [reflexivity|].
  simpl in H. apply andb_prop in H. destruct H as [Hc Hs].
  change ((String c s ++ tail)%string) with (String c (s ++ tail)).
  cbn [JS.replaceAll_from String.prefix].
  destruct (ascii_dec "`" c) as [E|_].
  - subst c. discriminate.
  - rewrite (IH Hs). reflexivity.
Qed.

Lemma prefix_empty (s : string) : String.prefix "" s = true.
Proof. destruct s; reflexivity. Qed.

Lemma append_empty_r (s : string) : s ++ "" = s.
Proof. induction s as [|c s IH]; [reflexivity|]. simpl. rewrite IH. reflexivity. Qed.

(** X30.  Code fences are stripped before parsing: for a body without
    backticks, the reply [```json] body [```] is cleaned to the same text
    as the bare body, namely the body trimmed, so a fenced reply with a
    non-empty body gives the search the same result as the bare one. *)
Theorem fenced_reply_reads_like_bare :
  forall body : string,
    no_backtick body = true ->
    cleanText ("```json" ++ body ++ "```") = JS.trim body /\
    cleanText body = JS.trim body /\
    (body <> "" ->
     tryBody JSON_parse (Responds (Some ("```json" ++ body ++ "```")))
     = tryBody JSON_parse (Responds (Some body))).
Proof.
  intros body Hbody.
  assert (Hopen : JS.replaceAll_from 0 "```json" "" ("```json" ++ body ++ "```")
                  = JS.replaceAll_from 0 "```json" "" (body ++ "```")).
  { cbn. rewrite prefix_empty. reflexivity. }
  assert (Hfenced : cleanText ("```json" ++ body ++ "```") = JS.trim body).
  { unfold cleanText, JS.replaceAll. rewrite Hopen.
    rewrite (@replaceAll_plain_prefix "``json" "" body "```" Hbody).
    change (JS.replaceAll_from 0 "```json" "" "```") with "```".
    rewrite (@replaceAll_plain_prefix "``" "" body "```" Hbody).
    change (JS.replaceAll_from 0 "```" "" "```") with "".
    rewrite append_empty_r. reflexivity. }
  assert (Hbare : cleanText body = JS.trim body).
  { unfold cleanText, JS.replaceAll.
    rewrite <- (append_empty_r body) at 1.
    rewrite (@replaceAll_plain_prefix "``json" "" body "" Hbody).
    change (JS.replaceAll_from 0 "```json" "" "") with "".
    rewrite (@replaceAll_plain_prefix "``" "" body "" Hbody).
    change (JS.replaceAll_from 0 "```" "" "") with "".
    rewrite append_empty_r. reflexivity. }
  refine (conj Hfenced (conj Hbare _)).
  intros Hne. unfold tryBody.
  rewrite (truthy_string_nonempty Hne).
  change (JS.truthy_string ("```json" ++ body ++ "```")) with true.
  cbv iota. rewrite Hfenced, Hbare. reflexivity.
Qed.

End FenceProperties.

Lemma fenced_reply_reads_like_bare_witness :
  cleanText "```json
{}
```" = "{}"%string /\
  tryBody parse_sample (Responds (Some "```json
{}
```"%string))
  = Some (mkResponse [] (mkFilters "all" [])).
Proof.
  assert (Hb : no_backtick "
{}
" = true) by reflexivity.
  assert (Hne : "
{}
"%string <> ""%string) by discriminate.
  destruct (@fenced_reply_reads_like_bare asciiStrings parse_sample "
{}
" Hb) as (H1 & _ & H3).
  split.
  - exact H1.
  - pose proof (H3 Hne) as H. cbn [String.append] in H. rewrite H. reflexivity.
Defined.
